(** * COW proxy: the authentication gate (auth.go)

    A shallow embedding of [auth.go] and of the parts of the Go standard
    library it calls, followed by the properties of the gate.

    Conventions.
    - A Go [string] is a byte string: a Rocq [string], one [ascii] per byte.
    - A Go [int], [int64] or [uint16] is a [Z]; conversions that wrap are
      written out ([wrap64], [uint16]).
    - A Go [error] is an [option error]: [None] is [nil].
    - [map[string]T] is a [gmap string T]; reading a missing key of a
      [map[string]string] gives the empty string ([kvGet]).
    - The process-wide variable [auth] is threaded explicitly; a function
      that can stop the process returns a [result]. *)

From Stdlib Require Import ZArith Lia Ascii String List Bool.
From stdpp Require Import gmap strings list fin_maps.

Local Open Scope Z_scope.

(** * Bytes and characters *)

Definition byteZ (c : ascii) : Z := Z.of_nat (nat_of_ascii c).
Definition chr (z : Z) : ascii := ascii_of_nat (Z.to_nat z).

Definition str1 (z : Z) : string := String (chr z) EmptyString.

Definition TAB : string := str1 9.
Definition LF : string := str1 10.
Definition CR : string := str1 13.
Definition DQUOTE : string := str1 34.
Definition CRLF : string := CR +:+ LF.

Definition bytesOf (s : string) : list Z := map byteZ (list_ascii_of_string s).
Definition stringOf (l : list Z) : string := string_of_list_ascii (map chr l).

Definition eqb_string (a b : string) : bool := bool_decide (a = b).


(** * The Go package [strings] *)

Module GoStrings.

(** [strings.Split(s, sep)] for a one-byte separator, the only use in
    [auth.go] (":", "," and "/"). The result is never empty:
    [Split "" sep] is [[""]]. *)
Fixpoint Split (s : string) (sep : ascii) : list string :=
  match s with
  | EmptyString => [EmptyString]
  | String c rest =>
      if Ascii.eqb c sep then EmptyString :: Split rest sep
      else match Split rest sep with
           | [] => [String c EmptyString]
           | x :: xs => String c x :: xs
           end
  end.

(** [strings.SplitN(s, sep, 2)] for a one-byte separator: cut at the first
    separator only. *)
Fixpoint SplitN2 (s : string) (sep : ascii) : list string :=
  match s with
  | EmptyString => [EmptyString]
  | String c rest =>
      if Ascii.eqb c sep then [EmptyString; rest]
      else match SplitN2 rest sep with
           | x :: xs => String c x :: xs
           | [] => [String c EmptyString]
           end
  end.

(** [strings.Join]. *)
Fixpoint Join (l : list string) (sep : string) : string :=
  match l with
  | [] => EmptyString
  | [x] => x
  | x :: xs => x +:+ sep +:+ Join xs sep
  end.

(** The UTF-8 encodings of the runes for which [unicode.IsSpace] holds:
    the six ASCII ones, U+0085, U+00A0, U+1680, U+2000..U+200A, U+2028,
    U+2029, U+202F, U+205F and U+3000. *)
Definition spaceRunes : list (list Z) :=
  [ [9]; [10]; [11]; [12]; [13]; [32];
    [194; 133]; [194; 160]; [225; 154; 128];
    [226; 128; 128]; [226; 128; 129]; [226; 128; 130]; [226; 128; 131];
    [226; 128; 132]; [226; 128; 133]; [226; 128; 134]; [226; 128; 135];
    [226; 128; 136]; [226; 128; 137]; [226; 128; 138];
    [226; 128; 168]; [226; 128; 169]; [226; 128; 175];
    [226; 129; 159]; [227; 128; 128] ].

Fixpoint stripPrefix (p l : list Z) : option (list Z) :=
  match p, l with
  | [], _ => Some l
  | x :: p', y :: l' => if x =? y then stripPrefix p' l' else None
  | _ :: _, [] => None
  end.

Fixpoint stripSpaceRune (rs : list (list Z)) (l : list Z) : option (list Z) :=
  match rs with
  | [] => None
  | r :: rs' =>
      match stripPrefix r l with
      | Some l' => Some l'
      | None => stripSpaceRune rs' l
      end
  end.

(** Drop leading white space; [fuel] bounds the number of runes dropped. *)
Fixpoint trimLeft (rs : list (list Z)) (fuel : nat) (l : list Z) : list Z :=
  match fuel with
  | O => l
  | S fuel' =>
      match stripSpaceRune rs l with
      | Some l' => trimLeft rs fuel' l'
      | None => l
      end
  end.

(** [strings.TrimSpace]: white space is removed at both ends. The trailing
    end is handled on the reversed bytes with the reversed encodings. *)
Definition TrimSpace (s : string) : string :=
  let l := bytesOf s in
  let l1 := trimLeft spaceRunes (length l) l in
  let l2 := trimLeft (map (@rev Z) spaceRunes) (length l1) (rev l1) in
  stringOf (rev l2).

(** [strings.ToLower], exact wherever the result is compared with an ASCII
    word, which is its only use in [auth.go]: ASCII capitals are lowered,
    and so are the two runes outside ASCII whose lower case is an ASCII
    letter, U+0130 (to i) and U+212A (to k). Other bytes are kept: Go may
    rewrite them, but only into bytes outside ASCII. *)
Fixpoint lowerBytes (fuel : nat) (l : list Z) : list Z :=
  match fuel with
  | O => l
  | S fuel' =>
      match l with
      | [] => []
      | 196 :: 176 :: l' => 105 :: lowerBytes fuel' l'
      | 226 :: 132 :: 170 :: l' => 107 :: lowerBytes fuel' l'
      | c :: l' =>
          (if (65 <=? c) && (c <=? 90) then c + 32 else c) :: lowerBytes fuel' l'
      end
  end.

Definition ToLower (s : string) : string :=
  let l := bytesOf s in stringOf (lowerBytes (length l) l).

(** [strings.Contains] for a one-byte needle. *)
Fixpoint containsByte (s : string) (c : ascii) : bool :=
  match s with
  | EmptyString => false
  | String d rest => Ascii.eqb d c || containsByte rest c
  end.

End GoStrings.

Import GoStrings.

(** * Machine integers *)

Definition minInt64 : Z := - 2 ^ 63.
Definition maxInt64 : Z := 2 ^ 63 - 1.

Definition inInt64 (z : Z) : bool := (minInt64 <=? z) && (z <=? maxInt64).

(** Two's complement wrap-around of [int64] arithmetic. *)
Definition wrap64 (z : Z) : Z := (z + 2 ^ 63) mod 2 ^ 64 - 2 ^ 63.

(** Saturation, as [time.Time.Sub] does on overflow. *)
Definition sat64 (z : Z) : Z := Z.max minInt64 (Z.min maxInt64 z).

(** The conversion [uint16(n)] of an [int]. *)
Definition uint16 (z : Z) : Z := z mod 2 ^ 16.


(** * The Go package [strconv] (and the verbs %d, %x of [fmt]) *)

Module Strconv.

(** The value of a digit byte, as [strconv.ParseUint] reads it: decimal
    digits, then letters of either case from ten on. *)
Definition digitVal (c : ascii) : option Z :=
  let b := byteZ c in
  if (48 <=? b) && (b <=? 57) then Some (b - 48)
  else if (97 <=? b) && (b <=? 122) then Some (b - 97 + 10)
  else if (65 <=? b) && (b <=? 90) then Some (b - 65 + 10)
  else None.

Fixpoint parseDigits (base : Z) (s : string) (acc : Z) : option Z :=
  match s with
  | EmptyString => Some acc
  | String c rest =>
      match digitVal c with
      | Some d => if d <? base then parseDigits base rest (acc * base + d) else None
      | None => None
      end
  end.

(** [strconv.ParseInt(s, base, 64)] for an explicit base (10 or 16): an
    optional sign, at least one digit, no prefix and no underscore, and a
    value that fits [int64]. [None] stands for a non-nil [err] (syntax or
    range). *)
Definition parseSigned (base : Z) (s : string) : option Z :=
  match s with
  | EmptyString => None
  | String c rest =>
      let '(neg, body) :=
        if Ascii.eqb c "+"%char then (false, rest)
        else if Ascii.eqb c "-"%char then (true, rest)
        else (false, s) in
      match body with
      | EmptyString => None
      | _ =>
          match parseDigits base body 0 with
          | None => None
          | Some un =>
              let v := if neg then - un else un in
              if inInt64 v then Some v else None
          end
      end
  end.

(** [strconv.Atoi] on a platform whose [int] has 64 bits. *)
Definition Atoi (s : string) : option Z := parseSigned 10 s.

(** [strconv.ParseInt(s, 16, 64)]. *)
Definition ParseInt16 (s : string) : option Z := parseSigned 16 s.

Definition digitChar (d : Z) : Z := if d <? 10 then 48 + d else 97 + (d - 10).

(** The digits of [n], least significant first. *)
Fixpoint digitsRev (fuel : nat) (base n : Z) : list Z :=
  match fuel with
  | O => []
  | S fuel' =>
      if n <? base then [n]
      else (n mod base) :: digitsRev fuel' base (n / base)
  end.

Definition digitsOf (base n : Z) : list Z :=
  rev (digitsRev (S (Z.to_nat (Z.log2 n))) base n).

Definition FormatUint (base n : Z) : string :=
  stringOf (map digitChar (digitsOf base n)).

(** [fmt.Sprintf] with the verb %d or %x on a signed integer: a minus sign
    and the magnitude, lower-case digits, no padding. *)
Definition FormatInt (base n : Z) : string :=
  if n <? 0 then String "-"%char (FormatUint base (- n)) else FormatUint base n.

End Strconv.

Import Strconv.

(** * The Go package [encoding/base64] *)

Module Base64.

(** The value of a byte of the standard alphabet. *)
Definition b64val (b : Z) : option Z :=
  if (65 <=? b) && (b <=? 90) then Some (b - 65)
  else if (97 <=? b) && (b <=? 122) then Some (b - 97 + 26)
  else if (48 <=? b) && (b <=? 57) then Some (b - 48 + 52)
  else if b =? 43 then Some 62
  else if b =? 47 then Some 63
  else None.

Definition isPad (b : Z) : bool := b =? 61.

(** One quantum of four bytes gives three, or two or one before padding;
    padding ends the input. *)
Fixpoint decodeQuanta (l : list Z) : option (list Z) :=
  match l with
  | [] => Some []
  | a :: b :: c :: d :: rest =>
      match b64val a, b64val b with
      | Some va, Some vb =>
          let o1 := va * 4 + vb / 16 in
          if isPad c then
            if isPad d then
              match rest with [] => Some [o1] | _ => None end
            else None
          else
            match b64val c with
            | None => None
            | Some vc =>
                let o2 := (vb mod 16) * 16 + vc / 4 in
                if isPad d then
                  match rest with [] => Some [o1; o2] | _ => None end
                else
                  match b64val d with
                  | None => None
                  | Some vd =>
                      let o3 := (vc mod 4) * 64 + vd in
                      match decodeQuanta rest with
                      | Some more => Some (o1 :: o2 :: o3 :: more)
                      | None => None
                      end
                  end
            end
      | _, _ => None
      end
  | _ => None
  end.

(** [base64.StdEncoding.DecodeString]: carriage returns and line feeds are
    skipped, the padding is required. [None] stands for a non-nil [err]. *)
Definition DecodeString (s : string) : option string :=
  let l := filter (fun b => negb ((b =? 13) || (b =? 10))) (bytesOf s) in
  match decodeQuanta l with
  | Some out => Some (stringOf out)
  | None => None
  end.

End Base64.

(** * MD5 (RFC 1321), as [crypto/md5] computes it *)

Module MD5.

Definition mask32 : Z := 2 ^ 32 - 1.
Definition add32 (a b : Z) : Z := (a + b) mod 2 ^ 32.
Definition not32 (a : Z) : Z := Z.lxor a mask32.
Definition rotl32 (x s : Z) : Z :=
  Z.lor (Z.shiftl x s mod 2 ^ 32) (Z.shiftr x (32 - s)).

(** The sine table and the per-round shift amounts. *)
Definition K : list Z :=
  [ 0xd76aa478; 0xe8c7b756; 0x242070db; 0xc1bdceee;
    0xf57c0faf; 0x4787c62a; 0xa8304613; 0xfd469501;
    0x698098d8; 0x8b44f7af; 0xffff5bb1; 0x895cd7be;
    0x6b901122; 0xfd987193; 0xa679438e; 0x49b40821;
    0xf61e2562; 0xc040b340; 0x265e5a51; 0xe9b6c7aa;
    0xd62f105d; 0x02441453; 0xd8a1e681; 0xe7d3fbc8;
    0x21e1cde6; 0xc33707d6; 0xf4d50d87; 0x455a14ed;
    0xa9e3e905; 0xfcefa3f8; 0x676f02d9; 0x8d2a4c8a;
    0xfffa3942; 0x8771f681; 0x6d9d6122; 0xfde5380c;
    0xa4beea44; 0x4bdecfa9; 0xf6bb4b60; 0xbebfbc70;
    0x289b7ec6; 0xeaa127fa; 0xd4ef3085; 0x04881d05;
    0xd9d4d039; 0xe6db99e5; 0x1fa27cf8; 0xc4ac5665;
    0xf4292244; 0x432aff97; 0xab9423a7; 0xfc93a039;
    0x655b59c3; 0x8f0ccc92; 0xffeff47d; 0x85845dd1;
    0x6fa87e4f; 0xfe2ce6e0; 0xa3014314; 0x4e0811a1;
    0xf7537e82; 0xbd3af235; 0x2ad7d2bb; 0xeb86d391 ].

Definition shifts : list Z :=
  [ 7; 12; 17; 22; 7; 12; 17; 22; 7; 12; 17; 22; 7; 12; 17; 22;
    5; 9; 14; 20; 5; 9; 14; 20; 5; 9; 14; 20; 5; 9; 14; 20;
    4; 11; 16; 23; 4; 11; 16; 23; 4; 11; 16; 23; 4; 11; 16; 23;
    6; 10; 15; 21; 6; 10; 15; 21; 6; 10; 15; 21; 6; 10; 15; 21 ].

Record state := mkState { sA : Z; sB : Z; sC : Z; sD : Z }.

Definition init : state :=
  mkState 0x67452301 0xefcdab89 0x98badcfe 0x10325476.

(** Little-endian words of a block, and bytes of a word. *)
Fixpoint wordsLE (l : list Z) : list Z :=
  match l with
  | a :: b :: c :: d :: rest =>
      (a + 256 * b + 65536 * c + 16777216 * d) :: wordsLE rest
  | _ => []
  end.

Definition bytesLE (n : nat) (w : Z) : list Z :=
  map (fun i => (w / 256 ^ Z.of_nat i) mod 256) (seq 0 n).

Definition step (M : list Z) (st : state) (i : Z) : state :=
  let '(mkState a b c d) := st in
  let '(f, g) :=
    if i <? 16 then (Z.lor (Z.land b c) (Z.land (not32 b) d), i)
    else if i <? 32 then
      (Z.lor (Z.land d b) (Z.land (not32 d) c), (5 * i + 1) mod 16)
    else if i <? 48 then (Z.lxor b (Z.lxor c d), (3 * i + 5) mod 16)
    else (Z.lxor c (Z.lor b (not32 d)), (7 * i) mod 16) in
  let n := Z.to_nat i in
  let f' := add32 (add32 (add32 f a) (nth n K 0)) (nth (Z.to_nat g) M 0) in
  mkState d (add32 b (rotl32 f' (nth n shifts 0))) b c.

Definition block (st : state) (blk : list Z) : state :=
  let M := wordsLE blk in
  let '(mkState a b c d) := fold_left (step M) (map Z.of_nat (seq 0 64)) st in
  mkState (add32 (sA st) a) (add32 (sB st) b) (add32 (sC st) c) (add32 (sD st) d).

(** The message followed by the bit 1, zeros up to 56 bytes modulo 64, and
    the bit length on eight bytes. *)
Definition pad (msg : list Z) : list Z :=
  let len := Z.of_nat (length msg) in
  let zeros := Z.to_nat ((55 - len) mod 64) in
  msg ++ [128] ++ repeat 0 zeros ++ bytesLE 8 ((8 * len) mod 2 ^ 64).

Fixpoint blocks (fuel : nat) (st : state) (l : list Z) : state :=
  match fuel with
  | O => st
  | S fuel' =>
      match l with
      | [] => st
      | _ => blocks fuel' (block st (firstn 64 l)) (skipn 64 l)
      end
  end.

(** The sixteen bytes of the digest. *)
Definition sum (msg : list Z) : list Z :=
  let p := pad msg in
  let '(mkState a b c d) := blocks (length p) init p in
  bytesLE 4 a ++ bytesLE 4 b ++ bytesLE 4 c ++ bytesLE 4 d.

Definition hexByte (b : Z) : list Z :=
  [Strconv.digitChar (b / 16); Strconv.digitChar (b mod 16)].

End MD5.

(** * Searching a byte string *)

Fixpoint stripPrefixS (p s : string) : option string :=
  match p, s with
  | EmptyString, _ => Some s
  | String a p', String b s' => if Ascii.eqb a b then stripPrefixS p' s' else None
  | String _ _, EmptyString => None
  end.

(** [cutAt pat s] cuts [s] around the first occurrence of [pat]. *)
Fixpoint cutAt (pat s : string) : option (string * string) :=
  match stripPrefixS pat s with
  | Some rest => Some (EmptyString, rest)
  | None =>
      match s with
      | EmptyString => None
      | String c r =>
          match cutAt pat r with
          | Some (a, b) => Some (String c a, b)
          | None => None
          end
      end
  end.

(** * The Go package [net]: addresses and masks *)

Module Net.

(** [net.IP] and [net.IPMask] are byte slices; [nil] is the empty list. An
    address has 4 or 16 bytes. *)
Definition IP := list Z.
Definition IPMask := list Z.

Definition IPv4len : nat := 4.
Definition IPv6len : nat := 16.

Definition v4InV6Prefix : list Z := [0; 0; 0; 0; 0; 0; 0; 0; 0; 0; 255; 255].

Definition IPv4 (a b c d : Z) : IP := v4InV6Prefix ++ [a; b; c; d].

Definition bytesEqual (a b : list Z) : bool := bool_decide (a = b).

Definition isNil (ip : list Z) : bool := match ip with [] => true | _ => false end.

(** A decimal field of a dotted quad: digits only, no leading zero, at
    most 255. *)
Definition parseIPv4Field (f : string) : option Z :=
  match f with
  | EmptyString => None
  | String c rest =>
      if Ascii.eqb c "0"%char && negb (eqb_string rest EmptyString) then None
      else
        match parseDigits 10 f 0 with
        | Some v => if v <=? 255 then Some v else None
        | None => None
        end
  end.

Definition parseIPv4 (s : string) : IP :=
  match map parseIPv4Field (Split s "."%char) with
  | [Some a; Some b; Some c; Some d] => IPv4 a b c d
  | _ => []
  end.

(** A group of an IPv6 address: one to four hexadecimal digits. *)
Definition parseHex16 (f : string) : option (list Z) :=
  match f with
  | EmptyString => None
  | _ =>
      if (4 <? String.length f)%nat then None
      else
        match parseDigits 16 f 0 with
        | Some v => Some [v / 256; v mod 256]
        | None => None
        end
  end.

(** The groups between colons; the last one may be a dotted quad when
    [v4tail] allows it. *)
Fixpoint parseGroups (v4tail : bool) (fs : list string) : option (list Z) :=
  match fs with
  | [] => Some []
  | [f] =>
      if v4tail && containsByte f "."%char then
        match parseIPv4 f with
        | [] => None
        | ip4 => Some (skipn 12 ip4)
        end
      else parseHex16 f
  | f :: rest =>
      match parseHex16 f, parseGroups v4tail rest with
      | Some b, Some more => Some (b ++ more)
      | _, _ => None
      end
  end.

Definition parseIPv6 (s : string) : IP :=
  match cutAt "::" s with
  | None =>
      match parseGroups true (Split s ":"%char) with
      | Some bs => if (length bs =? IPv6len)%nat then bs else []
      | None => []
      end
  | Some (l, r) =>
      let side v4 (x : string) :=
        match x with
        | EmptyString => Some []
        | _ => parseGroups v4 (Split x ":"%char)
        end in
      match side false l, side true r with
      | Some lb, Some rb =>
          let n := (length lb + length rb)%nat in
          if (n <=? 14)%nat then lb ++ repeat 0 (IPv6len - n) ++ rb else []
      | _, _ => []
      end
  end.

(** [net.ParseIP]: a dotted quad gives the 16-byte IPv4-in-IPv6 form;
    [nil] when the text is not an address. *)
Definition ParseIP (s : string) : IP :=
  match parseIPv4 s with
  | [] => parseIPv6 s
  | ip => ip
  end.

Definition allFF (l : list Z) : bool := forallb (fun b => b =? 255) l.

Fixpoint andBytes (a b : list Z) : list Z :=
  match a, b with
  | x :: a', y :: b' => Z.land x y :: andBytes a' b'
  | _, _ => []
  end.

(** [ip.Mask(mask)]: a 16-byte mask of an IPv4 subnet and a 16-byte IPv4
    address are first cut to 4 bytes; when the lengths still differ, as
    for an IPv6 address and a 4-byte mask, the result is [nil]. *)
Definition Mask (ip : IP) (mask : IPMask) : IP :=
  let mask1 :=
    if (length mask =? IPv6len)%nat && (length ip =? IPv4len)%nat
       && allFF (firstn 12 mask)
    then skipn 12 mask else mask in
  let ip1 :=
    if (length mask1 =? IPv4len)%nat && (length ip =? IPv6len)%nat
       && bytesEqual (firstn 12 ip) v4InV6Prefix
    then skipn 12 ip else ip in
  if (length ip1 =? length mask1)%nat then andBytes ip1 mask1 else [].

(** [ip.Equal(x)]: equal bytes when the lengths agree (two [nil]
    addresses are equal); an IPv4 address equals its 16-byte form. *)
Definition Equal (ip x : IP) : bool :=
  if (length ip =? length x)%nat then bytesEqual ip x
  else if (length ip =? IPv4len)%nat && (length x =? IPv6len)%nat then
    bytesEqual (firstn 12 x) v4InV6Prefix && bytesEqual ip (skipn 12 x)
  else if (length ip =? IPv6len)%nat && (length x =? IPv4len)%nat then
    bytesEqual (firstn 12 ip) v4InV6Prefix && bytesEqual (skipn 12 ip) x
  else false.

End Net.

(** * The Go package [time] *)

Module GoTime.

(** Seconds between year 1 and 1970: [time.Time] counts from year 1. *)
Definition unixToInternal : Z := 62135596800.

(** A [time.Time] without its location: the seconds since year 1, an
    [int64], and the nanoseconds within the second. *)
Record Time := mkTime { sec : Z; nsec : Z }.

Definition Duration := Z.
Definition Second : Duration := 10 ^ 9.
Definition Minute : Duration := 60 * Second.
Definition Hour : Duration := 60 * Minute.

(** [time.Unix(s, n)]: the nanoseconds are normalised and the offset
    [unixToInternal] is added to the seconds in [int64], where the sum can
    wrap around. The documentation of [time.Unix] says so: "Not all sec
    values have a corresponding time value. One such value is 1<<63-1 (the
    largest int64 value)." *)
Definition Unix (s n : Z) : Time :=
  let '(s1, n1) :=
    if (n <? 0) || (10 ^ 9 <=? n) then
      let q := Z.quot n (10 ^ 9) in
      let s' := wrap64 (s + q) in
      let n' := n - q * 10 ^ 9 in
      if n' <? 0 then (wrap64 (s' - 1), n' + 10 ^ 9) else (s', n')
    else (s, n) in
  mkTime (wrap64 (s1 + unixToInternal)) n1.

(** [t.Unix()]. *)
Definition toUnix (t : Time) : Z := wrap64 (sec t - unixToInternal).

(** [t.Sub(u)]: the difference in nanoseconds; "if the result exceeds the
    maximum (or minimum) value that can be stored in a Duration, the
    maximum (or minimum) duration will be returned". *)
Definition Sub (t u : Time) : Duration :=
  sat64 ((sec t - sec u) * 10 ^ 9 + (nsec t - nsec u)).

End GoTime.

(** * The Go package [text/template], for templates made of text and of
      actions of the form [{{.Field}}] *)

Module Template.

Inductive node :=
| Text (s : string)
| Field (name : string).

Definition isIdentByte (c : ascii) : bool :=
  let b := byteZ c in
  ((48 <=? b) && (b <=? 57)) || ((65 <=? b) && (b <=? 90))
  || ((97 <=? b) && (b <=? 122)) || (b =? 95).

Fixpoint allIdent (s : string) : bool :=
  match s with
  | EmptyString => true
  | String c r => isIdentByte c && allIdent r
  end.

Definition parseAction (a : string) : option node :=
  match TrimSpace a with
  | String c name =>
      if Ascii.eqb c "."%char && negb (eqb_string name EmptyString) && allIdent name
      then Some (Field name) else None
  | EmptyString => None
  end.

(** [Parse]: text up to the next opening delimiter, the action, and so on.
    [None] stands for a parse error. *)
Fixpoint parseFuel (fuel : nat) (s : string) : option (list node) :=
  match fuel with
  | O => None
  | S fuel' =>
      match cutAt "{{" s with
      | None => Some [Text s]
      | Some (before, after) =>
          match cutAt "}}" after with
          | None => None
          | Some (act, rest) =>
              match parseAction act, parseFuel fuel' rest with
              | Some n, Some more => Some (Text before :: n :: more)
              | _, _ => None
              end
          end
      end
  end.

Definition Parse (s : string) : option (list node) :=
  parseFuel (S (String.length s)) s.

(** [Execute] on a struct given by its fields: the text is copied and a
    field is replaced by its value; a field the struct lacks is an error. *)
Fixpoint Execute (t : list node) (data : list (string * string)) : option string :=
  match t with
  | [] => Some EmptyString
  | Text s :: rest =>
      match Execute rest data with
      | Some out => Some (s +:+ out)
      | None => None
      end
  | Field f :: rest =>
      match list_find (fun kv => bool_decide (kv.1 = f)) data, Execute rest data with
      | Some (_, (_, v)), Some out => Some (v +:+ out)
      | _, _ => None
      end
  end.

End Template.

Import Net GoTime.

(** * Parts of the repository that are not in [auth.go] *)

(** The causes of a library error that [auth.go] wraps into its own. *)
Inductive libError :=
| CorruptInput      (* encoding/base64 *)
| NumError          (* strconv *)
| ExecError         (* text/template *)
| WriteError        (* the connection *).

(** Modelled from the spec: the sentinel [errAuthRequired] is declared
    outside [auth.go]; it is the one value that [authUserPasswd] compares
    errors with. The other constructors are the errors that [auth.go]
    builds itself: [errors.New(msg)], and a message around a library error
    ([fmt.Errorf] with %v, or a prefix and [err.Error()]). *)
Inductive error :=
| errAuthRequired
| errorsNew (msg : string)
| errorWrap (prefix : string) (cause : libError).

Global Instance libError_eq_dec : EqDecision libError.
Proof. solve_decision. Defined.

Global Instance error_eq_dec : EqDecision error.
Proof. solve_decision. Defined.

(** Why the process stops in [Fatal] or [Fatalf]. *)
Inductive fatalCause :=
| FatalError (e : error)
| FatalDuplicateUser (user : string)
| FatalOpenFile (file : string)
| FatalClientForm
| FatalClientIP (entry : string)
| FatalClientBits (entry : string)
| FatalClientMask
| FatalTemplate.

(** A computation returns, or the process ends in [Fatal] (an error
    reported at startup) or in a run-time panic. *)
Inductive result (A : Type) :=
| Ret (a : A)
| Fatal (c : fatalCause)
| Panic (msg : string).
Arguments Ret {A} a.
Arguments Fatal {A} c.
Arguments Panic {A} msg.

Definition bind {A B} (m : result A) (k : A -> result B) : result B :=
  match m with
  | Ret a => k a
  | Fatal c => Fatal c
  | Panic msg => Panic msg
  end.

Notation "x <- m ;; k" := (bind m (fun x => k))
  (at level 100, m at next level, right associativity).

Definition nilDeref : string := "invalid memory address or nil pointer dereference".

(** Modelled from the spec: the MD5-hex helper [md5sum] (in the
    repository's utilities, not in [auth.go]): the MD5 digest of the string
    in lower-case hexadecimal. *)
Definition md5sum (s : string) : string :=
  stringOf (flat_map MD5.hexByte (MD5.sum (bytesOf s))).

(** Reading [kv[key]] of a [map[string]string]. *)
Definition kvGet (kv : gmap string string) (key : string) : string :=
  default EmptyString (kv !! key).

(** A value between double quotes loses them. *)
Definition unquote (v : string) : string :=
  match stripPrefixS DQUOTE v with
  | Some rest =>
      match stripPrefixS DQUOTE (String.rev rest) with
      | Some inner => String.rev inner
      | None => v
      end
  | None => v
  end.

(** Modelled from the spec: the key=value list parser [parseKeyValueList]
    (not in [auth.go]): comma-separated pairs key=value or key="value";
    an item without [=] is skipped. *)
Definition parseKeyValueList (str : string) : gmap string string :=
  fold_left
    (fun kv item =>
       match SplitN2 item "="%char with
       | [k; v] => <[TrimSpace k := unquote (TrimSpace v)]> kv
       | _ => kv
       end)
    (Split str ","%char) ∅.

(** Modelled from the spec: [NewNbitIPv4Mask] (not in [auth.go]) gives the
    4-byte mask of an IPv4 prefix length, its [n] leading bits set. The
    spec is silent on a negative length; it is read as 0 here. *)
Definition NewNbitIPv4Mask (n : Z) : IPMask :=
  let m := 2 ^ 32 - 2 ^ (32 - Z.max 0 n) in
  [m / 2 ^ 24; (m / 2 ^ 16) mod 256; (m / 2 ^ 8) mod 256; m mod 256].

(** Modelled from the spec: the time-windowed set [TimeoutSet] (not in
    [auth.go]) that keeps the client addresses already authenticated: a
    key is in the set from [add] until the window has passed. *)
Record TimeoutSet := mkTimeoutSet {
  since : gmap string Time;
  timeout : Duration
}.

Definition NewTimeoutSet (d : Duration) : TimeoutSet := mkTimeoutSet ∅ d.

Definition has (ts : TimeoutSet) (key : string) (now : Time) : bool :=
  match since ts !! key with
  | Some t => negb (timeout ts <? Sub now t)
  | None => false
  end.

Definition add (ts : TimeoutSet) (key : string) (now : Time) : TimeoutSet :=
  mkTimeoutSet (<[key := now]> (since ts)) (timeout ts).

(** What a call leaves on the client connection. [sendErrorPage] is not in
    [auth.go]; its call is recorded with its arguments. *)
Inductive event :=
| Written (bytes : string)
| ErrorPage (status : Z) (title : string) (err : error).

Definition statusBadReq : Z := 400.

(** The request: the request line and the raw [Proxy-Authorization]
    header. *)
Record Request := mkRequest {
  Method : string;
  URL : string;
  ProxyAuthorization : string
}.

(** The client connection, by what [auth.go] observes of it: the host of
    [conn.RemoteAddr()] and the port number of [conn.LocalAddr()] (what
    [net.SplitHostPort] and [strconv.Atoi] give), and whether [conn.Write]
    fails. *)
Record clientConn := mkConn {
  remoteHost : string;
  localPort : Z;
  writeFails : bool
}.

(** The configuration read at startup. *)
Record Config := mkConfig {
  UserPasswd : string;
  UserPasswdFile : string;
  AllowedClient : string;
  AuthTimeout : Z
}.

(** * [auth.go] *)

Definition authRealm : string := "cow proxy".

Definition authRawBodyTmpl : string :=
  "<!DOCTYPE html>" +:+ LF +:+
  "<html>" +:+ LF +:+
  TAB +:+ "<head> <title>COW Proxy</title> </head>" +:+ LF +:+
  TAB +:+ "<body>" +:+ LF +:+
  TAB +:+ TAB +:+ "<h1>407 Proxy authentication required</h1>" +:+ LF +:+
  TAB +:+ TAB +:+ "<hr />" +:+ LF +:+
  TAB +:+ TAB +:+ "Generated by <i>COW</i>" +:+ LF +:+
  TAB +:+ "</body>" +:+ LF +:+
  "</html>" +:+ LF.

Record netAddr := mkNetAddr {
  ip : IP;
  mask : IPMask
}.

Record authUser := mkAuthUser {
  passwd : string;
  ha1 : string;    (* used in request digest, initialized on demand *)
  port : Z         (* uint16; 0 means any port *)
}.

(** The variable [auth]. The map holds pointers to the records: a change
    of a record is a change of the map. [authed] and [template] are
    pointers, [None] when [nil]. *)
Record authState := mkAuth {
  required : bool;
  user : gmap string authUser;
  allowedClient : list netAddr;
  authed : option TimeoutSet;
  template : option (list Template.node)
}.

(** The zero value, before [initAuth]. *)
Definition authZero : authState := mkAuth false ∅ [] None None.

Definition setRequired (b : bool) (st : authState) : authState :=
  mkAuth b (user st) (allowedClient st) (authed st) (template st).
Definition setUser (m : gmap string authUser) (st : authState) : authState :=
  mkAuth (required st) m (allowedClient st) (authed st) (template st).
Definition setAllowedClient (l : list netAddr) (st : authState) : authState :=
  mkAuth (required st) (user st) l (authed st) (template st).
Definition setAuthed (ts : option TimeoutSet) (st : authState) : authState :=
  mkAuth (required st) (user st) (allowedClient st) ts (template st).
Definition setTemplate (t : option (list Template.node)) (st : authState) : authState :=
  mkAuth (required st) (user st) (allowedClient st) (authed st) t.

Definition initHA1 (au : authUser) (usr : string) : authUser :=
  if bool_decide (ha1 au = EmptyString) then
    mkAuthUser (passwd au)
      (md5sum (usr +:+ ":" +:+ authRealm +:+ ":" +:+ passwd au)) (port au)
  else au.

(** The three results of [parseUserPasswd]: the user name, the record
    ([None] is the [nil] pointer) and the error. *)
Definition parseUserPasswd (userPasswd : string)
  : string * option authUser * option error :=
  let arr := Split userPasswd ":"%char in
  let n := length arr in
  if (n =? 1)%nat || (3 <? n)%nat then
    (EmptyString, None,
     Some (errorsNew ("user password: " +:+ userPasswd +:+
                      " syntax wrong, should be username:password[:port]")))
  else
    let usr := nth 0 arr EmptyString in
    let pw := nth 1 arr EmptyString in
    if bool_decide (usr = EmptyString) || bool_decide (pw = EmptyString) then
      (EmptyString, None,
       Some (errorsNew ("user password " +:+ userPasswd +:+
                        " should not contain empty user name or password")))
    else
      let invalid :=
        (EmptyString, None,
         Some (errorsNew ("user password: " +:+ userPasswd +:+ " invalid port"))) in
      if (n =? 3)%nat && negb (bool_decide (nth 2 arr EmptyString = EmptyString)) then
        match Atoi (nth 2 arr EmptyString) with
        | None => invalid
        | Some p =>
            if (p <=? 0) || (0xffff <? p) then invalid
            else (usr, Some (mkAuthUser pw EmptyString (uint16 p)), None)
        end
      else (usr, Some (mkAuthUser pw EmptyString (uint16 0)), None).

(** One entry of the allowed clients. *)
Definition parseAllowedEntry (v : string) : result netAddr :=
  let s := TrimSpace v in
  let ipAndMask := Split s "/"%char in
  if (2 <? length ipAndMask)%nat then Fatal FatalClientForm
  else
    let ip0 := ParseIP (nth 0 ipAndMask EmptyString) in
    if isNil ip0 then Fatal (FatalClientIP s)
    else if (length ipAndMask =? 2)%nat then
      match Atoi (nth 1 ipAndMask EmptyString) with
      | None => Fatal (FatalClientBits s)
      | Some nbit =>
          if 32 <? nbit then Fatal FatalClientMask
          else
            let m := NewNbitIPv4Mask nbit in
            Ret (mkNetAddr (Mask ip0 m) m)
      end
    else
      let m := NewNbitIPv4Mask 32 in
      Ret (mkNetAddr (Mask ip0 m) m).

Fixpoint parseAllowedEntries (arr : list string) : result (list netAddr) :=
  match arr with
  | [] => Ret []
  | v :: rest =>
      na <- parseAllowedEntry v ;;
      more <- parseAllowedEntries rest ;;
      Ret (na :: more)
  end.

Definition parseAllowedClient (val : string) (st : authState) : result authState :=
  if bool_decide (val = EmptyString) then Ret st
  else
    l <- parseAllowedEntries (Split val ","%char) ;;
    Ret (setAllowedClient l st).

(** [debug.Println] reads [au.port] before the error is looked at: with
    the [nil] record that [parseUserPasswd] returns beside an error, this
    is a nil dereference. *)
Definition addUserPasswd (val : string) (st : authState) : result authState :=
  if bool_decide (val = EmptyString) then Ret st
  else
    let '(usr, au, err) := parseUserPasswd val in
    match au with
    | None => Panic nilDeref
    | Some a =>
        match err with
        | Some e => Fatal (FatalError e)
        | None =>
            match user st !! usr with
            | Some _ => Fatal (FatalDuplicateUser usr)
            | None => Ret (setUser (<[usr := a]> (user st)) st)
            end
        end
    end.

Fixpoint addUserPasswds (lines : list string) (st : authState) : result authState :=
  match lines with
  | [] => Ret st
  | l :: rest =>
      st1 <- addUserPasswd l st ;;
      addUserPasswds rest st1
  end.

(** [open file] gives the lines that the scanner yields, or [None] when
    the file cannot be opened. *)
Definition loadUserPasswdFile (open : string -> option (list string))
    (file : string) (st : authState) : result authState :=
  if bool_decide (file = EmptyString) then Ret st
  else
    match open file with
    | None => Fatal (FatalOpenFile file)
    | Some lines => addUserPasswds lines st
    end.

Definition rawTemplate : string :=
  "HTTP/1.1 407 Proxy Authentication Required" +:+ CRLF +:+
  "Proxy-Authenticate: Digest realm=" +:+ DQUOTE +:+ authRealm +:+ DQUOTE +:+
  ", nonce=" +:+ DQUOTE +:+ "{{.Nonce}}" +:+ DQUOTE +:+
  ", qop=" +:+ DQUOTE +:+ "auth" +:+ DQUOTE +:+ CRLF +:+
  "Content-Type: text/html" +:+ CRLF +:+
  "Cache-Control: no-cache" +:+ CRLF +:+
  "Content-Length: " +:+ FormatInt 10 (Z.of_nat (String.length authRawBodyTmpl)) +:+
  CRLF +:+ CRLF +:+ authRawBodyTmpl.

Definition initAuth (config : Config) (open : string -> option (list string))
    (st : authState) : result authState :=
  if negb (bool_decide (UserPasswd config = EmptyString))
     || negb (bool_decide (UserPasswdFile config = EmptyString))
     || negb (bool_decide (AllowedClient config = EmptyString))
  then
    let st0 := setUser ∅ (setRequired true st) in
    st1 <- addUserPasswd (UserPasswd config) st0 ;;
    st2 <- loadUserPasswdFile open (UserPasswdFile config) st1 ;;
    st3 <- parseAllowedClient (AllowedClient config) st2 ;;
    let st4 :=
      setAuthed (Some (NewTimeoutSet (wrap64 (AuthTimeout config * Hour)))) st3 in
    match Template.Parse rawTemplate with
    | None => Fatal FatalTemplate
    | Some t => Ret (setTemplate (Some t) st4)
    end
  else Ret st.

(** [authIP] checks whether the client address matches one of the allowed
    clients, by a sequential search. *)
Definition authIP (clientIP : string) (st : authState) : result bool :=
  let ip0 := ParseIP clientIP in
  if isNil ip0 then Panic "authIP should always get IP address"
  else Ret (existsb (fun na => Equal (Mask ip0 (mask na)) (ip na)) (allowedClient st)).

Definition genNonce (now : Time) : string := FormatInt 16 (toUnix now).

Definition calcRequestDigest (kv : gmap string string) (ha1 method : string) : string :=
  let arr :=
    [ ha1; kvGet kv "nonce"; kvGet kv "nc"; kvGet kv "cnonce"; "auth";
      md5sum (method +:+ ":" +:+ kvGet kv "uri") ] in
  md5sum (Join arr ":").

Definition authPort (conn : clientConn) (usr : string) (au : authUser) : option error :=
  if port au =? 0 then None
  else if negb (uint16 (localPort conn) =? port au) then Some errAuthRequired
  else None.

Definition authBasic (conn : clientConn) (userPasswd : string) (st : authState)
  : option error :=
  match Base64.DecodeString userPasswd with
  | None => Some (errorWrap "auth:" CorruptInput)
  | Some b64 =>
      match Split b64 ":"%char with
      | [usr; pw] =>
          match user st !! usr with
          | None => Some errAuthRequired
          | Some au =>
              if negb (bool_decide (passwd au = pw)) then Some errAuthRequired
              else authPort conn usr au
          end
      | _ => Some (errorsNew "auth: malformed basic auth user:passwd")
      end
  end.

(** The nonce is too early when the time since it exceeds one minute. *)
Definition nonceTooEarly (now : Time) (nonceTime : Z) : bool :=
  Minute <? Sub now (Unix nonceTime 0).

Definition authDigest (conn : clientConn) (r : Request) (keyVal : string)
    (now : Time) (st : authState) : option error * authState :=
  let authHeader := parseKeyValueList keyVal in
  if (size authHeader =? 0)%nat then
    (Some (errorsNew "auth: empty authorization list"), st)
  else
    match ParseInt16 (kvGet authHeader "nonce") with
    | None => (Some (errorWrap "auth: nonce " NumError), st)
    | Some nonceTime =>
        if nonceTooEarly now nonceTime then (Some errAuthRequired, st)
        else
          let usr := kvGet authHeader "username" in
          match user st !! usr with
          | None => (Some errAuthRequired, st)
          | Some au =>
              match authPort conn usr au with
              | Some err => (Some err, st)
              | None =>
                  if negb (bool_decide (kvGet authHeader "qop" = "auth")) then
                    (Some (errorsNew ("auth: qop wrong: " +:+ kvGet authHeader "qop")), st)
                  else
                    match authHeader !! "response" with
                    | None =>
                        (Some (errorsNew "auth: no request-digest response"), st)
                    | Some response =>
                        let au1 := initHA1 au usr in
                        let st1 := setUser (<[usr := au1]> (user st)) st in
                        let digest := calcRequestDigest authHeader (ha1 au1) (Method r) in
                        if negb (bool_decide (response = digest))
                        then (Some errAuthRequired, st1)
                        else (None, st1)
                    end
              end
          end
    end.

Definition checkProxyAuthorization (conn : clientConn) (r : Request)
    (now : Time) (st : authState) : option error * authState :=
  match SplitN2 (ProxyAuthorization r) " "%char with
  | [scheme; blob] =>
      let authMethod := ToLower (TrimSpace scheme) in
      if bool_decide (authMethod = "digest") then authDigest conn r blob now st
      else if bool_decide (authMethod = "basic") then (authBasic conn blob st, st)
      else
        (Some (errorsNew ("auth: method " +:+ scheme +:+ " unsupported, must use digest")),
         st)
  | _ =>
      (Some (errorsNew ("auth: malformed ProxyAuthorization header: "
                        +:+ ProxyAuthorization r)), st)
  end.

(** The end of [authUserPasswd] (lines 340 to 356), reached when the
    request has no authorization or when the check asks for
    authentication: the 407 response, the template with a fresh nonce, is
    written to the connection. *)
Definition challenge (conn : clientConn) (now : Time) (st : authState)
  : result (option error * authState * list event) :=
  let nonce := genNonce now in
  match template st with
  | None => Panic nilDeref
  | Some t =>
      match Template.Execute t [("Nonce", nonce)] with
      | None =>
          Ret (Some (errorWrap "error generating auth response: " ExecError), st, [])
      | Some buf =>
          if writeFails conn then
            Ret (Some (errorWrap "send auth response error: " WriteError), st, [])
          else Ret (Some errAuthRequired, st, [Written buf])
      end
  end.

Definition authUserPasswd (conn : clientConn) (r : Request) (now : Time)
    (st : authState) : result (option error * authState * list event) :=
  if negb (bool_decide (ProxyAuthorization r = EmptyString)) then
    (* client has sent authorization header *)
    let '(err, st1) := checkProxyAuthorization conn r now st in
    match err with
    | None => Ret (None, st1, [])
    | Some e =>
        if negb (bool_decide (e = errAuthRequired)) then
          Ret (Some e, st1, [ErrorPage statusBadReq "Bad authorization request" e])
        else challenge conn now st1
    end
  else challenge conn now st.

(** [Authenticate] returns [nil] when authentication succeeds. The
    methods of [TimeoutSet] read the set they are called on: on the [nil]
    pointer that [auth.authed] is before [initAuth], this is a nil
    dereference. *)
Definition Authenticate (conn : clientConn) (r : Request) (now : Time)
    (st : authState) : result (option error * authState * list event) :=
  let clientIP := remoteHost conn in
  match authed st with
  | None => Panic nilDeref
  | Some ts =>
      if has ts clientIP now then Ret (None, st, [])
      else
        allowed <- authIP clientIP st ;;
        if (allowed : bool) then Ret (None, st, [])
        else
          out <- authUserPasswd conn r now st ;;
          let '(err, st1, ev) := out in
          match err with
          | None => Ret (None, setAuthed (Some (add ts clientIP now)) st1, ev)
          | Some e => Ret (Some e, st1, ev)
          end
  end.

(** * Notions used to state the properties *)

(** A digit of the base, and the value of digits given least significant
    first. *)
Definition isDigitOf (base d : Z) : Prop := 0 <= d < base.

Definition valueLE (base : Z) (ds : list Z) : Z :=
  fold_right (fun d a => a * base + d) 0 ds.

(** A lower-case hexadecimal digit. *)
Definition isLowerHex (c : ascii) : bool :=
  let b := byteZ c in
  ((48 <=? b) && (b <=? 57)) || ((97 <=? b) && (b <=? 102)).

Fixpoint allLowerHex (s : string) : bool :=
  match s with
  | EmptyString => true
  | String c r => isLowerHex c && allLowerHex r
  end.

(** The first byte of a string, if any. *)
Definition firstByte (s : string) : option Z :=
  match s with
  | EmptyString => None
  | String c _ => Some (byteZ c)
  end.

(** The clock shows [u] seconds and [n] nanoseconds since 1970:
    [time.Now()] is then [Unix u n]. The clock is valid when the
    nanoseconds are below one second and the instant has a time value. *)
Definition validClock (u n : Z) : Prop :=
  0 <= n < 10 ^ 9 /\ minInt64 <= u /\ u + unixToInternal <= maxInt64.

(** The nanoseconds from the instant [T] (in seconds since 1970) to the
    clock reading. *)
Definition elapsedSince (u n T : Z) : Z := (u - T) * 10 ^ 9 + n.

(** A credential spec is malformed, in the specification's words, when the
    split at the colons gives other than 2 or 3 fields, when the user name
    or the password is empty, or when a third field is there, not empty,
    and not a number from 1 to 65535. *)
Definition malformedSpec (val : string) : Prop :=
  let arr := Split val ":"%char in
  let n := length arr in
  (n <> 2 /\ n <> 3)%nat
  \/ nth 0 arr EmptyString = EmptyString
  \/ nth 1 arr EmptyString = EmptyString
  \/ (n = 3%nat /\ nth 2 arr EmptyString <> EmptyString
      /\ forall p, Atoi (nth 2 arr EmptyString) = Some p -> ~ (1 <= p <= 65535)).

(** An address as [net.ParseIP] returns it: 16 bytes. *)
Definition isByte (b : Z) : Prop := 0 <= b < 256.

Definition wfIP (a : IP) : Prop := length a = 16%nat /\ Forall isByte a.

(** The 407 response as the specification lays it out (section 6), around
    the nonce. *)
Definition challengeBytes (nonce : string) : string :=
  "HTTP/1.1 407 Proxy Authentication Required" +:+ CRLF +:+
  "Proxy-Authenticate: Digest realm=" +:+ DQUOTE +:+ "cow proxy" +:+ DQUOTE +:+
  ", nonce=" +:+ DQUOTE +:+ nonce +:+ DQUOTE +:+
  ", qop=" +:+ DQUOTE +:+ "auth" +:+ DQUOTE +:+ CRLF +:+
  "Content-Type: text/html" +:+ CRLF +:+
  "Cache-Control: no-cache" +:+ CRLF +:+
  "Content-Length: 169" +:+ CRLF +:+
  CRLF +:+
  "<!DOCTYPE html>" +:+ LF +:+
  "<html>" +:+ LF +:+
  TAB +:+ "<head> <title>COW Proxy</title> </head>" +:+ LF +:+
  TAB +:+ "<body>" +:+ LF +:+
  TAB +:+ TAB +:+ "<h1>407 Proxy authentication required</h1>" +:+ LF +:+
  TAB +:+ TAB +:+ "<hr />" +:+ LF +:+
  TAB +:+ TAB +:+ "Generated by <i>COW</i>" +:+ LF +:+
  TAB +:+ "</body>" +:+ LF +:+
  "</html>" +:+ LF.

(** The digest key of a user: the MD5 of user, realm and password. *)
Definition digestKey (usr pw : string) : string :=
  md5sum (usr +:+ ":cow proxy:" +:+ pw).

(** The invariant of the store: a record has no digest key yet, or it has
    the digest key of its user and password. *)
Definition keysConsistent (st : authState) : Prop :=
  forall usr au,
    user st !! usr = Some au ->
    ha1 au = EmptyString \/ ha1 au = digestKey usr (passwd au).

(** The digest with HA2 taken from the request line, as the specification
    words it (section 4.3b): the method and the URI are those of the
    request. Compared with [calcRequestDigest] below. *)
Definition digestFromRequestLine (kv : gmap string string) (ha1 : string)
    (r : Request) : string :=
  md5sum (Join [ ha1; kvGet kv "nonce"; kvGet kv "nc"; kvGet kv "cnonce"; "auth";
                 md5sum (Method r +:+ ":" +:+ URL r) ] ":").

(** A computation that does not return: the process has stopped. *)
Definition stops {A} (m : result A) : Prop :=
  match m with
  | Ret _ => False
  | _ => True
  end.

(** * A running example *)

(** Two users, one of them bound to the port 8080, and two allowed
    clients. *)
Definition exampleConfig : Config :=
  mkConfig "alice:secret" "users.txt" "10.0.0.0/8, 192.168.1.5" 2.

Definition exampleFiles (file : string) : option (list string) :=
  if bool_decide (file = "users.txt") then Some ["bob:hunter2:8080"; ""] else None.

Definition exampleState : authState :=
  match initAuth exampleConfig exampleFiles authZero with
  | Ret st => st
  | _ => authZero
  end.

(** A client outside the allowed networks, connected to the port 3128. *)
Definition exampleConn : clientConn := mkConn "203.0.113.9" 3128 false.

(** The digest authorization of section 8 of the specification, with the
    nonce 5f3759df (the instant 1597463007). *)
Definition exampleDigest : string :=
  "username=alice, nonce=5f3759df, nc=00000001, cnonce=abc123, uri=/, qop=auth, "
  +:+ "response=01540a69725ddc1f776b83f664234f22".

Definition exampleRequest : Request :=
  mkRequest "GET" "/" ("Digest " +:+ exampleDigest).

(** The same authorization with one character of the response changed. *)
Definition mutatedDigest : string :=
  "username=alice, nonce=5f3759df, nc=00000001, cnonce=abc123, uri=/, qop=auth, "
  +:+ "response=01540a69725ddc1f776b83f664234f23".

(** An authorization for the URI /public, sent with a request for
    /private. *)
Definition publicDigest : string :=
  "username=alice, nonce=5f3759df, nc=00000001, cnonce=abc123, uri=/public, "
  +:+ "qop=auth, response=0b8112fc33db51f4f70d306b15c01736".

Definition privateRequest : Request :=
  mkRequest "GET" "/private" ("Digest " +:+ publicDigest).

(** An authorization whose nonce is the largest [int64]. *)
Definition farFutureDigest : string :=
  "username=alice, nonce=7fffffffffffffff, nc=00000001, cnonce=abc123, uri=/, "
  +:+ "qop=auth, response=26b154f767036c10f7e7e7e99fe8893b".

(** Authorizations of the user bob, who may only use the port 8080, and of
    a user that does not exist. *)
Definition bobDigest : string :=
  "username=bob, nonce=5f3759df, nc=00000001, cnonce=abc123, uri=/, qop=auth, "
  +:+ "response=0bee67e936fbc4bccd2ba335afc60ec3".

Definition malloryDigest : string :=
  "username=mallory, nonce=5f3759df, nc=00000001, cnonce=abc123, uri=/, qop=auth, "
  +:+ "response=01540a69725ddc1f776b83f664234f22".

(** Three seconds, and then 61 seconds, after the nonce was issued. *)
Definition soonAfter : Time := Unix 1597463010 0.
Definition tooLate : Time := Unix 1597463068 0.

(** Basic credentials in base64: alice with a wrong password, a user that
    does not exist, and bob with his password. *)
Definition aliceWrongBasic : string := "YWxpY2U6d3JvbmdwYXNz".
Definition malloryBasic : string := "bWFsbG9yeTpzZWNyZXQ=".
Definition bobBasic : string := "Ym9iOmh1bnRlcjI=".

(** The outcome of [Authenticate] with the flag [required] put back to
    [b] in the state it returns. *)
Definition withRequired (b : bool)
    (out : result (option error * authState * list event))
  : result (option error * authState * list event) :=
  match out with
  | Ret (e, s, ev) => Ret (e, setRequired b s, ev)
  | Fatal c => Fatal c
  | Panic msg => Panic msg
  end.

(** A request without credentials. *)
Definition plainRequest : Request := mkRequest "GET" "http://example.com/" "".

(** * Notions used to state further properties *)

(** A stored user as [parseUserPasswd] makes it: the name and the password
    are not empty and hold no colon, the port is a [uint16]. *)
Definition wellFormedUser (usr : string) (au : authUser) : Prop :=
  usr <> EmptyString /\ passwd au <> EmptyString
  /\ containsByte usr ":"%char = false
  /\ containsByte (passwd au) ":"%char = false
  /\ 0 <= port au <= 65535.

Definition wellFormedStore (st : authState) : Prop :=
  forall usr au, user st !! usr = Some au -> wellFormedUser usr au.

(** Two states have the same users, each with the same password and the
    same port; the digest keys may differ. *)
Definition sameCredentials (st st' : authState) : Prop :=
  forall usr,
    match user st !! usr, user st' !! usr with
    | Some a, Some b => passwd a = passwd b /\ port a = port b
    | None, None => True
    | _, _ => False
    end.

(** The credential specs of a configuration, in the order in which
    [initAuth] adds them: the inline spec, then the lines of the file. *)
Definition configuredSpecs (config : Config)
    (open : string -> option (list string)) : list string :=
  UserPasswd config ::
  (if bool_decide (UserPasswdFile config = EmptyString) then []
   else default [] (open (UserPasswdFile config))).

(** A line that is not empty. *)
Definition nonBlank (l : string) : bool := negb (bool_decide (l = EmptyString)).

(** The state once the digest key of the user [usr] has been asked for:
    [au.initHA1(usr)] on the record of the store, if there is one. *)
Definition keyedState (st : authState) (usr : string) : authState :=
  match user st !! usr with
  | Some au => setUser (<[usr := initHA1 au usr]> (user st)) st
  | None => st
  end.

(** The states of a run: the state that [initAuth] returns for a
    configuration, and the states that calls of [Authenticate] return from
    there. *)
Inductive reachable (config : Config) (open : string -> option (list string))
  : authState -> Prop :=
| reach_init st :
    initAuth config open authZero = Ret st -> reachable config open st
| reach_step st conn r now e st' ev :
    reachable config open st ->
    Authenticate conn r now st = Ret (e, st', ev) ->
    reachable config open st'.

(** A space or a tab. *)
Definition isBlank (b : Z) : Prop := b = 32 \/ b = 9.

(** * Properties of the library models *)

Lemma chr_byteZ c : chr (byteZ c) = c.
Proof.
  unfold chr, byteZ. rewrite Nat2Z.id. apply ascii_nat_embedding.
Qed.

Lemma byteZ_chr z : 0 <= z < 256 -> byteZ (chr z) = z.
Proof.
  intros Hz. unfold chr, byteZ. rewrite nat_ascii_embedding; lia.
Qed.

Lemma wrap64_id z : minInt64 <= z <= maxInt64 -> wrap64 z = z.
Proof.
  unfold wrap64, minInt64, maxInt64. intros H.
  rewrite Z.mod_small; lia.
Qed.

Lemma uint16_id z : 0 <= z <= 65535 -> uint16 z = z.
Proof.
  unfold uint16. intros H. apply Z.mod_small. lia.
Qed.

Lemma append_cons (c : ascii) (s t : string) :
  String c s +:+ t = String c (s +:+ t).
Proof. reflexivity. Qed.

(** ** [strings.Split] *)

Lemma Split_nonempty s sep : Split s sep <> [].
Proof.
  destruct s as [|c s]; simpl; [discriminate|].
  destruct (Ascii.eqb c sep); [discriminate|].
  destruct (Split s sep); discriminate.
Qed.

Lemma Split_no_sep s sep : containsByte s sep = false -> Split s sep = [s].
Proof.
  induction s as [|c s IH]; simpl; [reflexivity|].
  intros H. apply orb_false_iff in H as [Hc Hs].
  rewrite Hc, (IH Hs). reflexivity.
Qed.

Lemma Split_app_sep a b sep :
  containsByte a sep = false ->
  Split (a +:+ String sep b) sep = a :: Split b sep.
Proof.
  induction a as [|c a IH]; intros H.
  - cbn [String.append]. simpl. now rewrite Ascii.eqb_refl.
  - simpl in H. apply orb_false_iff in H as [Hc Ha].
    rewrite append_cons. simpl. rewrite Hc, (IH Ha). reflexivity.
Qed.

(** ** Digits: [strconv] and [fmt] agree *)

Section Digits.

Variable base : Z.
Hypothesis base_lo : 2 <= base.
Hypothesis base_hi : base <= 16.

Lemma digitVal_digitChar d :
  0 <= d < 16 -> digitVal (chr (digitChar d)) = Some d.
Proof.
  intros Hd. unfold digitVal, digitChar.
  destruct (Z.ltb_spec d 10).
  - rewrite byteZ_chr by lia.
    replace ((48 <=? 48 + d) && (48 + d <=? 57)) with true
      by (symmetry; apply andb_true_iff; split; apply Z.leb_le; lia).
    f_equal. lia.
  - rewrite byteZ_chr by lia.
    replace ((48 <=? 97 + (d - 10)) && (97 + (d - 10) <=? 57)) with false
      by (symmetry; apply andb_false_iff; right; apply Z.leb_gt; lia).
    replace ((97 <=? 97 + (d - 10)) && (97 + (d - 10) <=? 122)) with true
      by (symmetry; apply andb_true_iff; split; apply Z.leb_le; lia).
    f_equal. lia.
Qed.

Lemma parseDigits_format (l : list Z) (acc : Z) :
  Forall (isDigitOf base) l ->
  parseDigits base (stringOf (map digitChar l)) acc
  = Some (fold_left (fun a d => a * base + d) l acc).
Proof.
  revert acc. induction l as [|d l IH]; intros acc Hl; [reflexivity|].
  inversion Hl as [|? ? Hd Hl']; subst.
  unfold stringOf. simpl. unfold isDigitOf in Hd.
  rewrite digitVal_digitChar by lia.
  replace (d <? base) with true by (symmetry; apply Z.ltb_lt; lia).
  apply IH, Hl'.
Qed.

Lemma digitsRev_spec (fuel : nat) (n : Z) :
  0 <= n < 2 ^ Z.of_nat (S fuel) ->
  Forall (isDigitOf base) (digitsRev (S fuel) base n)
  /\ valueLE base (digitsRev (S fuel) base n) = n
  /\ (0 < n -> List.last (digitsRev (S fuel) base n) 0 <> 0)
  /\ digitsRev (S fuel) base n <> [].
Proof.
  revert n. induction fuel as [|fuel IH]; intros n Hn.
  - assert (Hlt : n < base) by (cbn in Hn; lia).
    cbn [digitsRev]. apply Z.ltb_lt in Hlt as Hb. rewrite Hb.
    repeat split; simpl; try lia; try discriminate.
    constructor; [unfold isDigitOf; lia | constructor].
  - rewrite Nat2Z.inj_succ, Z.pow_succ_r in Hn by lia.
    change (digitsRev (S (S fuel)) base n)
      with (if n <? base then [n]
            else (n mod base) :: digitsRev (S fuel) base (n / base)).
    destruct (Z.ltb_spec n base) as [Hlt|Hge].
    + repeat split; simpl; try lia; try discriminate.
      constructor; [unfold isDigitOf; lia | constructor].
    + assert (Hq : 0 <= n / base < 2 ^ Z.of_nat (S fuel)).
      { split; [apply Z.div_pos; lia|].
        apply Z.div_lt_upper_bound; [lia|].
        assert (0 < 2 ^ Z.of_nat (S fuel)) by (apply Z.pow_pos_nonneg; lia).
        nia. }
      destruct (IH _ Hq) as (Hall & Hval & Hlast & Hne).
      repeat split.
      * constructor; [|exact Hall].
        unfold isDigitOf. apply Z.mod_pos_bound. lia.
      * unfold valueLE; cbn [fold_right].
        fold (valueLE base (digitsRev (S fuel) base (n / base))).
        rewrite Hval. rewrite (Z.div_mod n base) at 3 by lia. lia.
      * intros _.
        destruct (digitsRev (S fuel) base (n / base)) as [|d ds] eqn:E; [congruence|].
        change (List.last (n mod base :: d :: ds) 0) with (List.last (d :: ds) 0).
        apply Hlast.
        assert (1 <= n / base) by (apply Z.div_le_lower_bound; lia). lia.
      * discriminate.
Qed.

Lemma log2_fuel n : 0 <= n -> 0 <= n < 2 ^ Z.of_nat (S (Z.to_nat (Z.log2 n))).
Proof.
  intros Hn. split; [exact Hn|].
  rewrite Nat2Z.inj_succ, Z2Nat.id by apply Z.log2_nonneg.
  destruct (Z.eq_dec n 0) as [->|Hz]; [reflexivity|].
  apply Z.log2_spec. lia.
Qed.

Lemma fold_left_rev_value (ds : list Z) :
  fold_left (fun a d => a * base + d) (rev ds) 0 = valueLE base ds.
Proof.
  unfold valueLE. rewrite <- fold_left_rev_right, rev_involutive. reflexivity.
Qed.

Lemma digitsOf_digits n : 0 <= n -> Forall (isDigitOf base) (digitsOf base n).
Proof.
  intros Hn. unfold digitsOf.
  destruct (digitsRev_spec _ _ (log2_fuel n Hn)) as (Hall & _).
  apply Forall_rev, Hall.
Qed.

Lemma parseDigits_FormatUint n :
  0 <= n -> parseDigits base (FormatUint base n) 0 = Some n.
Proof.
  intros Hn. unfold FormatUint.
  rewrite parseDigits_format by (apply digitsOf_digits, Hn).
  unfold digitsOf. rewrite fold_left_rev_value.
  destruct (digitsRev_spec _ _ (log2_fuel n Hn)) as (_ & Hval & _).
  now rewrite Hval.
Qed.

(** No padding: the first digit is zero only for the number zero. *)
Lemma digitsOf_head n :
  0 <= n ->
  exists d ds, digitsOf base n = d :: ds /\ (0 < n -> d <> 0).
Proof.
  intros Hn. unfold digitsOf.
  destruct (digitsRev_spec _ _ (log2_fuel n Hn)) as (_ & _ & Hlast & Hne).
  remember (digitsRev (S (Z.to_nat (Z.log2 n))) base n) as l eqn:El. clear El.
  destruct (rev l) as [|d ds] eqn:E.
  - apply (f_equal (@rev Z)) in E. rewrite rev_involutive in E. simpl in E. congruence.
  - exists d, ds. split; [reflexivity|]. intros Hpos.
    apply (f_equal (@rev Z)) in E. rewrite rev_involutive in E. subst l.
    specialize (Hlast Hpos). simpl in Hlast.
    rewrite List.last_last in Hlast. exact Hlast.
Qed.

Lemma digitChar_not_sign d c :
  0 <= d < 16 -> byteZ c = 43 \/ byteZ c = 45 ->
  Ascii.eqb (chr (digitChar d)) c = false.
Proof.
  intros Hd Hc. apply Ascii.eqb_neq. intros E.
  apply (f_equal byteZ) in E. unfold digitChar in E.
  destruct (d <? 10); rewrite byteZ_chr in E by lia; lia.
Qed.

Lemma FormatUint_cons n :
  0 <= n ->
  exists d ds, digitsOf base n = d :: ds /\ 0 <= d < 16 /\ (0 < n -> d <> 0)
    /\ FormatUint base n = String (chr (digitChar d)) (stringOf (map digitChar ds)).
Proof.
  intros Hn. destruct (digitsOf_head n Hn) as (d & ds & E & Hd).
  exists d, ds. pose proof (digitsOf_digits n Hn) as Hall.
  rewrite E in Hall. inversion Hall as [|? ? H1 H2]; subst.
  unfold isDigitOf in H1.
  repeat split; try lia; try assumption.
  unfold FormatUint. rewrite E. reflexivity.
Qed.

(** Reading back what was printed. *)
Lemma parseSigned_FormatInt v :
  inInt64 v = true -> parseSigned base (FormatInt base v) = Some v.
Proof.
  intros Hv. unfold FormatInt. destruct (Z.ltb_spec v 0) as [Hneg|Hpos].
  - unfold parseSigned.
    replace (Ascii.eqb "-" "+") with false by reflexivity.
    replace (Ascii.eqb "-" "-") with true by reflexivity.
    destruct (FormatUint_cons (- v)) as (d & ds & _ & _ & _ & E); [lia|].
    pose proof (parseDigits_FormatUint (- v)) as P.
    rewrite E in *. rewrite P by lia.
    replace (- - v) with v by lia. now rewrite Hv.
  - unfold parseSigned.
    destruct (FormatUint_cons v Hpos) as (d & ds & _ & Hd & _ & E).
    pose proof (parseDigits_FormatUint v Hpos) as P.
    rewrite E in *.
    rewrite (digitChar_not_sign d "+") by (try lia; left; reflexivity).
    rewrite (digitChar_not_sign d "-") by (try lia; right; reflexivity).
    rewrite P. now rewrite Hv.
Qed.

End Digits.

Lemma allLowerHex_digits (ds : list Z) :
  Forall (isDigitOf 16) ds -> allLowerHex (stringOf (map digitChar ds)) = true.
Proof.
  induction 1 as [|d ds Hd _ IH]; [reflexivity|].
  unfold stringOf. simpl. fold (stringOf (map digitChar ds)). rewrite IH.
  rewrite andb_true_r. unfold isLowerHex, digitChar, isDigitOf in *.
  destruct (Z.ltb_spec d 10); rewrite byteZ_chr by lia.
  - apply orb_true_iff. left. apply andb_true_iff. split; apply Z.leb_le; lia.
  - apply orb_true_iff. right. apply andb_true_iff. split; apply Z.leb_le; lia.
Qed.

(** The verb %x on a number that is not negative: lower-case hexadecimal
    digits only, the first one not a zero unless the number is zero. *)
Lemma FormatInt16_shape n :
  0 <= n ->
  allLowerHex (FormatInt 16 n) = true
  /\ (0 < n -> firstByte (FormatInt 16 n) <> Some 48)
  /\ FormatInt 16 n <> EmptyString.
Proof.
  intros Hn. unfold FormatInt.
  replace (n <? 0) with false by (symmetry; apply Z.ltb_ge; lia).
  split; [|split].
  - unfold FormatUint. apply allLowerHex_digits. apply digitsOf_digits; lia.
  - intros Hpos.
    destruct (FormatUint_cons 16 ltac:(lia) ltac:(lia) n Hn) as (d & ds & _ & Hd & Hnz & E).
    rewrite E. simpl. unfold digitChar.
    specialize (Hnz Hpos).
    destruct (d <? 10); rewrite byteZ_chr by lia; intros [=]; lia.
  - destruct (FormatUint_cons 16 ltac:(lia) ltac:(lia) n Hn) as (d & ds & _ & _ & _ & E).
    rewrite E. discriminate.
Qed.

Lemma ParseInt16_FormatInt v :
  inInt64 v = true -> ParseInt16 (FormatInt 16 v) = Some v.
Proof. apply parseSigned_FormatInt; lia. Qed.

Lemma Atoi_FormatInt v : inInt64 v = true -> Atoi (FormatInt 10 v) = Some v.
Proof. apply parseSigned_FormatInt; lia. Qed.

Lemma parseSigned_range base s v :
  parseSigned base s = Some v -> minInt64 <= v <= maxInt64.
Proof.
  unfold parseSigned. destruct s as [|c rest]; [discriminate|].
  destruct (if Ascii.eqb c "+" then (false, rest)
            else if Ascii.eqb c "-" then (true, rest) else (false, String c rest))
    as [neg body].
  destruct body; [discriminate|].
  destruct (parseDigits base _ 0) as [un|]; [|discriminate].
  destruct (inInt64 _) eqn:E; [|discriminate].
  intros [= <-]. unfold inInt64 in E.
  apply andb_true_iff in E as [E1 E2].
  apply Z.leb_le in E1, E2. lia.
Qed.

(** ** Time *)

Lemma inInt64_iff z : inInt64 z = true <-> minInt64 <= z <= maxInt64.
Proof.
  unfold inInt64. rewrite andb_true_iff, !Z.leb_le. reflexivity.
Qed.

Lemma Unix_valid u n :
  0 <= n < 10 ^ 9 -> Unix u n = mkTime (wrap64 (u + unixToInternal)) n.
Proof.
  intros Hn. unfold Unix.
  replace ((n <? 0) || (10 ^ 9 <=? n)) with false; [reflexivity|].
  symmetry. apply orb_false_iff. split; [apply Z.ltb_ge | apply Z.leb_gt]; lia.
Qed.

Lemma sat64_gt_Minute x : (Minute <? sat64 x) = (Minute <? x).
Proof.
  unfold sat64, Minute, Second, minInt64, maxInt64.
  destruct (Z.ltb_spec (60 * 10 ^ 9) x);
    [apply Z.ltb_lt | apply Z.ltb_ge]; lia.
Qed.

(** With a valid clock and a nonce that has a time value, the nonce is too
    early exactly when more than a minute has passed since its instant. *)
Lemma nonceTooEarly_spec u n T :
  validClock u n -> minInt64 <= T -> T + unixToInternal <= maxInt64 ->
  nonceTooEarly (Unix u n) T = (Minute <? elapsedSince u n T).
Proof.
  intros (Hn & Hu1 & Hu2) HT1 HT2.
  unfold nonceTooEarly, elapsedSince.
  rewrite (Unix_valid u n Hn), (Unix_valid T 0) by lia.
  unfold Sub. cbn [sec nsec]. rewrite sat64_gt_Minute.
  unfold unixToInternal, minInt64, maxInt64 in *.
  rewrite !wrap64_id by (unfold minInt64, maxInt64; lia).
  f_equal. lia.
Qed.

Lemma kvGet_size (kv : gmap string string) k :
  kvGet kv k <> EmptyString -> (size kv =? 0)%nat = false.
Proof.
  intros H. apply Nat.eqb_neq. intros Hs.
  apply map_size_empty_iff in Hs. subst kv.
  apply H. unfold kvGet. now rewrite lookup_empty.
Qed.

Lemma ParseInt16_some_nonempty s v : ParseInt16 s = Some v -> s <> EmptyString.
Proof. intros H ->. discriminate. Qed.

(** The clock enters [authDigest] through the check of the nonce only. *)
Lemma authDigest_clock conn r keyVal now1 now2 st T :
  ParseInt16 (kvGet (parseKeyValueList keyVal) "nonce") = Some T ->
  nonceTooEarly now1 T = nonceTooEarly now2 T ->
  authDigest conn r keyVal now1 st = authDigest conn r keyVal now2 st.
Proof.
  intros HT Hn. unfold authDigest. rewrite HT, Hn. reflexivity.
Qed.

Lemma authDigest_tooEarly conn r keyVal now st T :
  ParseInt16 (kvGet (parseKeyValueList keyVal) "nonce") = Some T ->
  nonceTooEarly now T = true ->
  authDigest conn r keyVal now st = (Some errAuthRequired, st).
Proof.
  intros HT Hn. unfold authDigest.
  rewrite (kvGet_size _ "nonce") by (eapply ParseInt16_some_nonempty, HT).
  rewrite HT, Hn. reflexivity.
Qed.

(** * The request digest *)

Lemma calcRequestDigest_unfold kv h method :
  calcRequestDigest kv h method
  = md5sum (h +:+ ":" +:+ kvGet kv "nonce" +:+ ":" +:+ kvGet kv "nc" +:+ ":"
            +:+ kvGet kv "cnonce" +:+ ":auth:"
            +:+ md5sum (method +:+ ":" +:+ kvGet kv "uri")).
Proof. reflexivity. Qed.

Lemma initHA1_key au usr :
  ha1 au = EmptyString \/ ha1 au = md5sum (usr +:+ ":cow proxy:" +:+ passwd au) ->
  initHA1 au usr
  = mkAuthUser (passwd au) (md5sum (usr +:+ ":cow proxy:" +:+ passwd au)) (port au).
Proof.
  intros H. unfold initHA1. case_bool_decide as E; [reflexivity|].
  destruct H as [H|H]; [contradiction|].
  destruct au as [p h q]. simpl in *. now rewrite H.
Qed.

(** What [authDigest] does once the nonce is fresh, the user known and the
    port allowed, with [qop=auth] and a response. *)
Lemma authDigest_compare conn r keyVal now st T au response :
  let kv := parseKeyValueList keyVal in
  ParseInt16 (kvGet kv "nonce") = Some T ->
  nonceTooEarly now T = false ->
  user st !! kvGet kv "username" = Some au ->
  authPort conn (kvGet kv "username") au = None ->
  kvGet kv "qop" = "auth" ->
  kv !! "response" = Some response ->
  authDigest conn r keyVal now st
  = let au1 := initHA1 au (kvGet kv "username") in
    let st1 := setUser (<[kvGet kv "username" := au1]> (user st)) st in
    (if bool_decide (response = calcRequestDigest kv (ha1 au1) (Method r))
     then None else Some errAuthRequired, st1).
Proof.
  intros kv HT Hfresh Hu Hport Hqop Hresp. unfold authDigest. fold kv.
  rewrite (kvGet_size kv "nonce") by (eapply ParseInt16_some_nonempty, HT).
  rewrite HT, Hfresh, Hu, Hport, Hqop, Hresp.
  rewrite bool_decide_eq_true_2 by reflexivity. cbn [negb].
  cbv zeta. case_bool_decide; reflexivity.
Qed.

(** ** The invariant of the digest keys *)

Lemma parseUserPasswd_ha1 val usr au e :
  parseUserPasswd val = (usr, Some au, e) -> ha1 au = EmptyString.
Proof.
  unfold parseUserPasswd.
  destruct (_ || _); [discriminate|].
  destruct (_ || _); [discriminate|].
  destruct (_ && _).
  - destruct (Atoi _); [|discriminate].
    destruct (_ || _); [discriminate|]. intros [= _ <- _]. reflexivity.
  - intros [= _ <- _]. reflexivity.
Qed.

Lemma addUserPasswd_consistent val st st' :
  keysConsistent st -> addUserPasswd val st = Ret st' -> keysConsistent st'.
Proof.
  intros Hk. unfold addUserPasswd. case_bool_decide; [intros [= <-]; exact Hk|].
  destruct (parseUserPasswd val) as [[usr [au|]] e] eqn:Ep; [|discriminate].
  destruct e; [discriminate|].
  destruct (user st !! usr) eqn:Eu; [discriminate|]. intros [= <-].
  intros u a. cbn [setUser user]. rewrite lookup_insert.
  case_decide as Ed.
  - intros [= <-]. left. eapply parseUserPasswd_ha1, Ep.
  - apply Hk.
Qed.

Lemma addUserPasswds_consistent lines st st' :
  keysConsistent st -> addUserPasswds lines st = Ret st' -> keysConsistent st'.
Proof.
  revert st. induction lines as [|l lines IH]; intros st Hk.
  - intros [= <-]. exact Hk.
  - cbn [addUserPasswds]. destruct (addUserPasswd l st) as [st1| |] eqn:E;
      cbn [bind]; try discriminate.
    apply IH. eapply addUserPasswd_consistent; eassumption.
Qed.

(** [initAuth] builds a store without digest keys. *)
Lemma initAuth_consistent config open st :
  initAuth config open authZero = Ret st -> keysConsistent st.
Proof.
  assert (H0 : forall s, keysConsistent (setUser ∅ s)).
  { intros s u a. cbn [setUser user]. rewrite lookup_empty. discriminate. }
  unfold initAuth. destruct (negb _ || negb _ || negb _).
  - destruct (addUserPasswd _ _) as [st1| |] eqn:E1; cbn [bind]; try discriminate.
    apply addUserPasswd_consistent in E1; [|apply H0].
    unfold loadUserPasswdFile. case_bool_decide.
    + cbn [bind]. unfold parseAllowedClient.
      case_bool_decide; cbn [bind].
      * destruct (Template.Parse rawTemplate); [|discriminate].
        intros [= <-]. exact E1.
      * destruct (parseAllowedEntries _); cbn [bind]; try discriminate.
        destruct (Template.Parse rawTemplate); [|discriminate].
        intros [= <-]. exact E1.
    + destruct (open _) as [lines|]; cbn [bind]; [|discriminate].
      destruct (addUserPasswds lines st1) as [st2| |] eqn:E2; cbn [bind];
        try discriminate.
      apply addUserPasswds_consistent in E2; [|exact E1].
      unfold parseAllowedClient.
      case_bool_decide; cbn [bind].
      * destruct (Template.Parse rawTemplate); [|discriminate].
        intros [= <-]. exact E2.
      * destruct (parseAllowedEntries _); cbn [bind]; try discriminate.
        destruct (Template.Parse rawTemplate); [|discriminate].
        intros [= <-]. exact E2.
  - intros [= <-]. intros u a. cbn. rewrite lookup_empty. discriminate.
Qed.

(** [authDigest] keeps the invariant: the only write is the digest key. *)
Lemma authDigest_consistent conn r keyVal now st :
  keysConsistent st -> keysConsistent (snd (authDigest conn r keyVal now st)).
Proof.
  intros Hk. unfold authDigest.
  destruct (size (parseKeyValueList keyVal) =? 0)%nat; [exact Hk|].
  destruct (ParseInt16 _); [|exact Hk].
  destruct (nonceTooEarly now z); [exact Hk|].
  destruct (user st !! _) as [au|] eqn:Eu; [|exact Hk].
  destruct (authPort conn _ au); [exact Hk|].
  destruct (negb (bool_decide (kvGet _ "qop" = "auth"))); [exact Hk|].
  destruct (parseKeyValueList keyVal !! "response"); [|exact Hk].
  assert (Hk1 : keysConsistent
                  (setUser (<[kvGet (parseKeyValueList keyVal) "username"
                              := initHA1 au (kvGet (parseKeyValueList keyVal) "username")]>
                              (user st)) st)).
  { intros u a. cbn [setUser user]. rewrite lookup_insert. case_decide as Ed.
    - intros [= <-]. right. subst u.
      rewrite (initHA1_key au _ (Hk _ _ Eu)). reflexivity.
    - apply Hk. }
  destruct (negb (bool_decide _)); exact Hk1.
Qed.

(** [Authenticate] keeps the invariant. *)
Lemma Authenticate_consistent conn r now st e st' ev :
  keysConsistent st -> Authenticate conn r now st = Ret (e, st', ev) ->
  keysConsistent st'.
Proof.
  intros Hk.
  assert (Hch : forall s e1 s1 ev1,
             keysConsistent s -> challenge conn now s = Ret (e1, s1, ev1) ->
             keysConsistent s1).
  { intros s e1 s1 ev1 Hs. unfold challenge.
    destruct (template s); [|discriminate].
    destruct (Template.Execute _ _); [|intros [= _ <- _]; exact Hs].
    destruct (writeFails conn); intros [= _ <- _]; exact Hs. }
  assert (Hup : forall e1 s1 ev1,
             authUserPasswd conn r now st = Ret (e1, s1, ev1) -> keysConsistent s1).
  { intros e1 s1 ev1. unfold authUserPasswd.
    destruct (negb (bool_decide (ProxyAuthorization r = EmptyString)));
      [|apply Hch, Hk].
    assert (Hc : keysConsistent (snd (checkProxyAuthorization conn r now st))).
    { unfold checkProxyAuthorization.
      destruct (SplitN2 _ _) as [|scheme [|blob [|? ?]]]; try exact Hk.
      case_bool_decide; [apply authDigest_consistent, Hk|].
      case_bool_decide; exact Hk. }
    destruct (checkProxyAuthorization conn r now st) as [[err|] s2]; cbn [snd] in Hc.
    - destruct (negb (bool_decide (err = errAuthRequired)));
        [intros [= _ <- _]; exact Hc | apply Hch, Hc].
    - intros [= _ <- _]. exact Hc. }
  unfold Authenticate. destruct (authed st) as [ts|]; [|discriminate].
  destruct (has ts (remoteHost conn) now); [intros [= _ <- _]; exact Hk|].
  destruct (authIP (remoteHost conn) st) as [[|]| |]; cbn [bind]; try discriminate.
  - intros [= _ <- _]. exact Hk.
  - destruct (authUserPasswd conn r now st) as [[[e1 s1] ev1]| |] eqn:E;
      cbn [bind]; try discriminate.
    specialize (Hup _ _ _ eq_refl).
    destruct e1; intros [= _ <- _]; exact Hup.
Qed.

(** The checks that a [nil] of [authDigest] has passed. *)
Lemma authDigest_accepted conn r keyVal now st :
  let kv := parseKeyValueList keyVal in
  let usr := kvGet kv "username" in
  fst (authDigest conn r keyVal now st) = None ->
  exists T au,
    ParseInt16 (kvGet kv "nonce") = Some T
    /\ nonceTooEarly now T = false
    /\ user st !! usr = Some au
    /\ authPort conn usr au = None
    /\ kvGet kv "qop" = "auth"
    /\ kv !! "response"
       = Some (calcRequestDigest kv (ha1 (initHA1 au usr)) (Method r)).
Proof.
  intros kv usr. unfold authDigest. fold kv. fold usr.
  destruct (size kv =? 0)%nat; [discriminate|].
  destruct (ParseInt16 (kvGet kv "nonce")) as [T|]; [|discriminate].
  destruct (nonceTooEarly now T) eqn:Efresh; [discriminate|].
  destruct (user st !! usr) as [au|] eqn:Eu; [|discriminate].
  destruct (authPort conn usr au) eqn:Eport; [discriminate|].
  case_bool_decide as Eq; cbn [negb]; [|discriminate].
  destruct (kv !! "response") as [response|] eqn:Er; [|discriminate].
  case_bool_decide as Ed; cbn [negb]; [|discriminate].
  intros _. exists T, au. rewrite Ed. auto 10.
Qed.

(** C1 (as amended). The digest that [authDigest] expects takes the method
    from the request line and the URI from the [uri] field of the
    authorization header. With the digest keys of the store as [initHA1]
    computes them, [authDigest] accepts exactly when its other checks pass
    and the response of the header is
    MD5(HA1:nonce:nc:cnonce:auth:MD5(method of the request:uri of the
    header)), HA1 being MD5(user:realm:password). The URI of the request
    line is never read: two requests with the same method and the same
    authorization header get the same verdict, from [authDigest] and from
    [Authenticate]. *)
Theorem digest_method_of_request_uri_of_header conn r keyVal now st :
  let kv := parseKeyValueList keyVal in
  let usr := kvGet kv "username" in
  keysConsistent st ->
  (fst (authDigest conn r keyVal now st) = None
   <-> exists T au,
         ParseInt16 (kvGet kv "nonce") = Some T
         /\ nonceTooEarly now T = false
         /\ user st !! usr = Some au
         /\ authPort conn usr au = None
         /\ kvGet kv "qop" = "auth"
         /\ kv !! "response"
            = Some (md5sum (md5sum (usr +:+ ":cow proxy:" +:+ passwd au)
                            +:+ ":" +:+ kvGet kv "nonce"
                            +:+ ":" +:+ kvGet kv "nc"
                            +:+ ":" +:+ kvGet kv "cnonce" +:+ ":auth:"
                            +:+ md5sum (Method r +:+ ":" +:+ kvGet kv "uri"))))
  /\ (forall r',
        Method r' = Method r ->
        authDigest conn r' keyVal now st = authDigest conn r keyVal now st)
  /\ (forall r',
        Method r' = Method r -> ProxyAuthorization r' = ProxyAuthorization r ->
        Authenticate conn r' now st = Authenticate conn r now st).
Proof.
  intros kv usr Hk. split; [|split].
  - split.
    + intros H.
      destruct (authDigest_accepted conn r keyVal now st H)
        as (T & au & HT & Hfresh & Hu & Hport & Hq & Hr).
      fold kv in HT, Hq, Hr. fold usr in Hu, Hport, Hr.
      exists T, au. repeat (split; [assumption|]).
      rewrite Hr, (initHA1_key au usr (Hk _ _ Hu)). cbn [ha1].
      now rewrite calcRequestDigest_unfold.
    + intros (T & au & HT & Hfresh & Hu & Hport & Hq & Hr).
      rewrite (authDigest_compare conn r keyVal now st T au _ HT Hfresh Hu
                 Hport Hq Hr).
      fold kv. fold usr. rewrite (initHA1_key au usr (Hk _ _ Hu)).
      cbn [ha1 fst]. rewrite calcRequestDigest_unfold.
      now rewrite bool_decide_eq_true_2.
  - intros r' Hm. unfold authDigest. now rewrite Hm.
  - intros r' Hm Hp. destruct r as [m u p], r' as [m' u' p'].
    cbn [Method ProxyAuthorization] in Hm, Hp. subst m' p'. reflexivity.
Qed.

(** The authorization of section 8 of the specification: it is accepted,
    so its response is the digest of GET and of the uri of the header, and
    the same header is accepted on a request for another URI. *)
Lemma digest_method_of_request_uri_of_header_witness :
  (let kv := parseKeyValueList exampleDigest in
   exists T au,
     ParseInt16 (kvGet kv "nonce") = Some T
     /\ nonceTooEarly soonAfter T = false
     /\ user exampleState !! kvGet kv "username" = Some au
     /\ authPort exampleConn (kvGet kv "username") au = None
     /\ kvGet kv "qop" = "auth"
     /\ kv !! "response"
        = Some (md5sum (md5sum (kvGet kv "username" +:+ ":cow proxy:" +:+ passwd au)
                        +:+ ":" +:+ kvGet kv "nonce"
                        +:+ ":" +:+ kvGet kv "nc"
                        +:+ ":" +:+ kvGet kv "cnonce" +:+ ":auth:"
                        +:+ md5sum ("GET" +:+ ":" +:+ kvGet kv "uri"))))
  /\ Authenticate exampleConn
       (mkRequest "GET" "/elsewhere" ("Digest " +:+ exampleDigest))
       soonAfter exampleState
     = Authenticate exampleConn exampleRequest soonAfter exampleState.
Proof.
  pose proof (digest_method_of_request_uri_of_header exampleConn exampleRequest
                exampleDigest soonAfter exampleState
                (initAuth_consistent exampleConfig exampleFiles exampleState
                   eq_refl)) as (Hiff & _ & Hsame).
  split.
  - apply Hiff. vm_compute. reflexivity.
  - apply Hsame; reflexivity.
Defined.

(** C1, counterexample. The request asks for /private, the header says
    /public and carries the response for /public: the digest that the code
    expects is not the one computed from the request line, and the request
    is accepted. *)
Lemma digest_not_from_request_line :
  let kv := parseKeyValueList publicDigest in
  let h := md5sum "alice:cow proxy:secret" in
  calcRequestDigest kv h (Method privateRequest)
    <> digestFromRequestLine kv h privateRequest
  /\ URL privateRequest <> kvGet kv "uri"
  /\ fst (authDigest exampleConn privateRequest publicDigest soonAfter exampleState)
     = None.
Proof.
  cbv zeta. split; [|split].
  - intros E. apply (f_equal (fun s => bool_decide (s = "0b8112fc33db51f4f70d306b15c01736"))) in E.
    vm_compute in E. discriminate E.
  - vm_compute. discriminate.
  - vm_compute. reflexivity.
Qed.

(** C4. The digest key of a user is the MD5 of user, realm and password,
    the expected response is the MD5 of RFC 2617 over that key, and
    [authDigest] accepts this response and no other; the key is then kept
    in the user's record. *)
Theorem authDigest_accepts_exactly_expected
    conn r keyVal now st T usr au response :
  let kv := parseKeyValueList keyVal in
  let key := md5sum (usr +:+ ":cow proxy:" +:+ passwd au) in
  let expected :=
    md5sum (key +:+ ":" +:+ kvGet kv "nonce" +:+ ":" +:+ kvGet kv "nc" +:+ ":"
            +:+ kvGet kv "cnonce" +:+ ":auth:"
            +:+ md5sum (Method r +:+ ":" +:+ kvGet kv "uri")) in
  ParseInt16 (kvGet kv "nonce") = Some T ->
  nonceTooEarly now T = false ->
  kvGet kv "username" = usr ->
  user st !! usr = Some au ->
  keysConsistent st ->
  authPort conn usr au = None ->
  kvGet kv "qop" = "auth" ->
  kv !! "response" = Some response ->
  ha1 (initHA1 au usr) = key
  /\ calcRequestDigest kv key (Method r) = expected
  /\ (response = expected ->
      fst (authDigest conn r keyVal now st) = None)
  /\ (response <> expected ->
      fst (authDigest conn r keyVal now st) = Some errAuthRequired)
  /\ user (snd (authDigest conn r keyVal now st)) !! usr
     = Some (mkAuthUser (passwd au) key (port au)).
Proof.
  intros kv key expected HT Hfresh Husr Hu Hk Hport Hqop Hresp.
  pose proof (Hk _ _ Hu) as Hha1. subst usr.
  rewrite (authDigest_compare conn r keyVal now st T au response)
    by assumption.
  fold kv. rewrite (initHA1_key au _ Hha1). cbn [ha1 fst snd]. fold key.
  rewrite calcRequestDigest_unfold. fold expected.
  repeat split.
  - intros ->. now rewrite bool_decide_eq_true_2.
  - intros Hne. now rewrite bool_decide_eq_false_2.
  - cbn [setUser user]. apply lookup_insert_eq.
Qed.

(** The authorization of section 8 of the specification is accepted, the
    same with one character of the response changed is not. *)
Lemma authDigest_accepts_exactly_expected_witness :
  fst (authDigest exampleConn exampleRequest exampleDigest soonAfter exampleState)
  = None
  /\ fst (authDigest exampleConn exampleRequest mutatedDigest soonAfter exampleState)
     = Some errAuthRequired
  /\ md5sum "alice:cow proxy:secret" = "a800e5adfb20f5bea44fd0b4f2c0507c".
Proof.
  split; [|split].
  - apply (authDigest_accepts_exactly_expected exampleConn exampleRequest
             exampleDigest soonAfter exampleState 1597463007 "alice"
             (mkAuthUser "secret" "" 0) "01540a69725ddc1f776b83f664234f22");
      try (apply (initAuth_consistent exampleConfig exampleFiles));
      vm_compute; reflexivity.
  - apply (authDigest_accepts_exactly_expected exampleConn exampleRequest
             mutatedDigest soonAfter exampleState 1597463007 "alice"
             (mkAuthUser "secret" "" 0) "01540a69725ddc1f776b83f664234f23");
      try (apply (initAuth_consistent exampleConfig exampleFiles));
      vm_compute; try reflexivity.
    discriminate.
  - vm_compute. reflexivity.
Defined.

(** * The freshness of the nonce *)

(** C5. A nonce whose instant lies more than 60 seconds before the clock
    reading is answered with the authentication-required error, whatever
    the user, the port, the qop and the response are, and the store is left
    as it was. *)
Theorem authDigest_stale_nonce_rejected conn r keyVal u n st T :
  validClock u n ->
  ParseInt16 (kvGet (parseKeyValueList keyVal) "nonce") = Some T ->
  60 * 10 ^ 9 < elapsedSince u n T ->
  authDigest conn r keyVal (Unix u n) st = (Some errAuthRequired, st).
Proof.
  intros Hclock HT Hstale.
  apply (authDigest_tooEarly conn r keyVal _ st T HT).
  pose proof (parseSigned_range _ _ _ HT) as [HT1 HT2].
  assert (HT3 : T + unixToInternal <= maxInt64).
  { destruct Hclock as (Hn & _ & Hu). unfold elapsedSince in Hstale. lia. }
  rewrite (nonceTooEarly_spec u n T Hclock HT1 HT3).
  apply Z.ltb_lt. exact Hstale.
Qed.

(** The same authorization 61 seconds after the nonce, and 3 seconds
    after it. *)
Lemma authDigest_stale_nonce_rejected_witness :
  authDigest exampleConn exampleRequest exampleDigest tooLate exampleState
  = (Some errAuthRequired, exampleState)
  /\ fst (authDigest exampleConn exampleRequest exampleDigest soonAfter exampleState)
     = None.
Proof.
  split.
  - apply (authDigest_stale_nonce_rejected exampleConn exampleRequest exampleDigest
             1597463068 0 exampleState 1597463007).
    + vm_compute. repeat split; discriminate.
    + vm_compute. reflexivity.
    + vm_compute. reflexivity.
  - vm_compute. reflexivity.
Defined.

(** C6 (as amended). For a nonce whose instant has a time value, that is
    below 2^63 - 62135596800 seconds, the check is one-sided: the nonce is
    found too early exactly when more than 60 seconds have passed since its
    instant, so never when its instant is the clock reading or later; a
    nonce found too early is answered with the authentication-required
    error, and otherwise the clock plays no part in the verdict. *)
Theorem nonce_freshness_one_sided conn r keyVal u n st T :
  validClock u n ->
  ParseInt16 (kvGet (parseKeyValueList keyVal) "nonce") = Some T ->
  T + unixToInternal <= maxInt64 ->
  (nonceTooEarly (Unix u n) T = true <-> 60 * 10 ^ 9 < elapsedSince u n T)
  /\ (u <= T -> nonceTooEarly (Unix u n) T = false)
  /\ (nonceTooEarly (Unix u n) T = true ->
      authDigest conn r keyVal (Unix u n) st = (Some errAuthRequired, st))
  /\ (nonceTooEarly (Unix u n) T = false ->
      authDigest conn r keyVal (Unix u n) st
      = authDigest conn r keyVal (Unix T 0) st).
Proof.
  intros Hclock HT HT3.
  pose proof (parseSigned_range _ _ _ HT) as [HT1 HT2].
  pose proof (nonceTooEarly_spec u n T Hclock HT1 HT3) as Hspec.
  assert (Hiff : nonceTooEarly (Unix u n) T = true
                 <-> 60 * 10 ^ 9 < elapsedSince u n T).
  { rewrite Hspec. apply Z.ltb_lt. }
  split; [exact Hiff|]. split; [|split].
  - intros Hle. apply not_true_is_false. intros E.
    apply Hiff in E. destruct Hclock as (Hn & _). unfold elapsedSince in E. nia.
  - apply authDigest_tooEarly, HT.
  - intros Hfresh. apply (authDigest_clock _ _ _ _ _ _ T HT).
    rewrite Hfresh. symmetry.
    assert (Hc : validClock T 0).
    { unfold validClock. repeat split; try lia. }
    rewrite (nonceTooEarly_spec T 0 T Hc HT1 HT3).
    apply Z.ltb_ge. unfold elapsedSince, Minute, Second. lia.
Qed.

(** The nonce 5f3759df 3 seconds after its instant, 7 seconds before it,
    and 61 seconds after it. *)
Lemma nonce_freshness_one_sided_witness :
  nonceTooEarly soonAfter 1597463007 = false
  /\ nonceTooEarly (Unix 1597463000 0) 1597463007 = false
  /\ (nonceTooEarly tooLate 1597463007 = true <->
      60 * 10 ^ 9 < elapsedSince 1597463068 0 1597463007).
Proof.
  assert (Hc : forall u, 0 <= u <= 2 ^ 40 -> validClock u 0).
  { intros u Hu. unfold validClock, minInt64, maxInt64, unixToInternal. lia. }
  split; [|split].
  - destruct (nonce_freshness_one_sided exampleConn exampleRequest exampleDigest
                1597463010 0 exampleState 1597463007) as (H & _).
    + apply Hc. lia.
    + vm_compute. reflexivity.
    + vm_compute. discriminate.
    + apply not_true_is_false. intros E.
      apply H in E. vm_compute in E. discriminate E.
  - apply (nonce_freshness_one_sided exampleConn exampleRequest exampleDigest
             1597463000 0 exampleState 1597463007).
    + apply Hc. lia.
    + vm_compute. reflexivity.
    + vm_compute. discriminate.
    + lia.
  - apply (nonce_freshness_one_sided exampleConn exampleRequest exampleDigest
             1597463068 0 exampleState 1597463007).
    + apply Hc. lia.
    + vm_compute. reflexivity.
    + vm_compute. discriminate.
Defined.

(** C6, counterexample. The nonce 7fffffffffffffff is the largest [int64],
    far later than the clock reading, and everything else in the
    authorization is right; [time.Unix] wraps around on it, the nonce is
    found too early and the request is refused. *)
Lemma far_future_nonce_rejected :
  ParseInt16 (kvGet (parseKeyValueList farFutureDigest) "nonce") = Some maxInt64
  /\ validClock 1597463010 0
  /\ 1597463010 <= maxInt64
  /\ ~ 60 * 10 ^ 9 < elapsedSince 1597463010 0 maxInt64
  /\ nonceTooEarly (Unix 1597463010 0) maxInt64 = true
  /\ authDigest exampleConn exampleRequest farFutureDigest (Unix 1597463010 0)
       exampleState = (Some errAuthRequired, exampleState).
Proof.
  assert (HT : ParseInt16 (kvGet (parseKeyValueList farFutureDigest) "nonce")
               = Some maxInt64) by (vm_compute; reflexivity).
  assert (Hearly : nonceTooEarly (Unix 1597463010 0) maxInt64 = true)
    by (vm_compute; reflexivity).
  split; [exact HT|]. split; [|split; [|split; [|split]]].
  - vm_compute. repeat split; discriminate.
  - vm_compute. discriminate.
  - vm_compute. intros H. discriminate H.
  - exact Hearly.
  - apply (authDigest_tooEarly _ _ _ _ _ _ HT Hearly).
Qed.

(** * One outcome for every failed authentication *)

Lemma authPort_mismatch conn usr au :
  port au <> 0 -> uint16 (localPort conn) <> port au ->
  authPort conn usr au = Some errAuthRequired.
Proof.
  intros H0 Hne. unfold authPort.
  rewrite (proj2 (Z.eqb_neq _ _) H0), (proj2 (Z.eqb_neq _ _) Hne). reflexivity.
Qed.

(** C3. A wrong password or an unknown user in Basic, an unknown user, a
    response that does not match or a nonce that is too early in Digest,
    and a local port that is not the user's in either, all give the one
    value [errAuthRequired]. *)
Theorem auth_failures_give_errAuthRequired conn r now st :
  (forall blob b64 usr pw,
      Base64.DecodeString blob = Some b64 -> Split b64 ":" = [usr; pw] ->
      (user st !! usr = None -> authBasic conn blob st = Some errAuthRequired)
      /\ (forall au, user st !! usr = Some au -> passwd au <> pw ->
                     authBasic conn blob st = Some errAuthRequired)
      /\ (forall au, user st !! usr = Some au -> passwd au = pw ->
                     port au <> 0 -> uint16 (localPort conn) <> port au ->
                     authBasic conn blob st = Some errAuthRequired))
  /\ (forall keyVal T,
      let kv := parseKeyValueList keyVal in
      let usr := kvGet kv "username" in
      ParseInt16 (kvGet kv "nonce") = Some T ->
      (nonceTooEarly now T = true ->
       authDigest conn r keyVal now st = (Some errAuthRequired, st))
      /\ (nonceTooEarly now T = false -> user st !! usr = None ->
          authDigest conn r keyVal now st = (Some errAuthRequired, st))
      /\ (forall au, nonceTooEarly now T = false -> user st !! usr = Some au ->
                     port au <> 0 -> uint16 (localPort conn) <> port au ->
                     authDigest conn r keyVal now st = (Some errAuthRequired, st))
      /\ (forall au response,
             nonceTooEarly now T = false -> user st !! usr = Some au ->
             authPort conn usr au = None -> kvGet kv "qop" = "auth" ->
             kv !! "response" = Some response ->
             response <> calcRequestDigest kv (ha1 (initHA1 au usr)) (Method r) ->
             fst (authDigest conn r keyVal now st) = Some errAuthRequired)).
Proof.
  split.
  - intros blob b64 usr pw Hdec Hsplit. unfold authBasic. rewrite Hdec, Hsplit.
    split; [|split].
    + intros ->. reflexivity.
    + intros au -> Hpw. now rewrite bool_decide_eq_false_2.
    + intros au -> Hpw H0 Hne. rewrite bool_decide_eq_true_2 by assumption.
      apply authPort_mismatch; assumption.
  - intros keyVal T kv usr HT.
    assert (Hsize : (size kv =? 0)%nat = false)
      by (apply (kvGet_size kv "nonce"); eapply ParseInt16_some_nonempty, HT).
    split; [|split; [|split]].
    + apply authDigest_tooEarly, HT.
    + intros Hfresh Hu. unfold authDigest. fold kv. fold usr.
      rewrite Hsize, HT, Hfresh, Hu. reflexivity.
    + intros au Hfresh Hu H0 Hne. unfold authDigest. fold kv. fold usr.
      rewrite Hsize, HT, Hfresh, Hu, (authPort_mismatch conn usr au H0 Hne).
      reflexivity.
    + intros au response Hfresh Hu Hport Hqop Hresp Hne.
      rewrite (authDigest_compare conn r keyVal now st T au response)
        by assumption.
      fold kv. fold usr. cbn [fst]. now rewrite bool_decide_eq_false_2.
Qed.

(** Each of the seven failures on the running example. *)
Lemma auth_failures_give_errAuthRequired_witness :
  authBasic exampleConn malloryBasic exampleState = Some errAuthRequired
  /\ authBasic exampleConn aliceWrongBasic exampleState = Some errAuthRequired
  /\ authBasic exampleConn bobBasic exampleState = Some errAuthRequired
  /\ authDigest exampleConn exampleRequest exampleDigest tooLate exampleState
     = (Some errAuthRequired, exampleState)
  /\ authDigest exampleConn exampleRequest malloryDigest soonAfter exampleState
     = (Some errAuthRequired, exampleState)
  /\ authDigest exampleConn exampleRequest bobDigest soonAfter exampleState
     = (Some errAuthRequired, exampleState)
  /\ fst (authDigest exampleConn exampleRequest mutatedDigest soonAfter exampleState)
     = Some errAuthRequired.
Proof.
  pose proof (auth_failures_give_errAuthRequired exampleConn exampleRequest
                tooLate exampleState) as [_ Hlate].
  pose proof (auth_failures_give_errAuthRequired exampleConn exampleRequest
                soonAfter exampleState) as [Hbasic Hdigest].
  destruct (Hbasic malloryBasic "mallory:secret" "mallory" "secret"
              ltac:(vm_compute; reflexivity) ltac:(vm_compute; reflexivity))
    as (B1 & _ & _).
  destruct (Hbasic aliceWrongBasic "alice:wrongpass" "alice" "wrongpass"
              ltac:(vm_compute; reflexivity) ltac:(vm_compute; reflexivity))
    as (_ & B2 & _).
  destruct (Hbasic bobBasic "bob:hunter2" "bob" "hunter2"
              ltac:(vm_compute; reflexivity) ltac:(vm_compute; reflexivity))
    as (_ & _ & B3).
  destruct (Hlate exampleDigest 1597463007 ltac:(vm_compute; reflexivity))
    as (D1 & _).
  destruct (Hdigest malloryDigest 1597463007 ltac:(vm_compute; reflexivity))
    as (_ & D2 & _).
  destruct (Hdigest bobDigest 1597463007 ltac:(vm_compute; reflexivity))
    as (_ & _ & D3 & _).
  destruct (Hdigest mutatedDigest 1597463007 ltac:(vm_compute; reflexivity))
    as (_ & _ & _ & D4).
  repeat apply conj.
  - apply B1. vm_compute. reflexivity.
  - apply (B2 (mkAuthUser "secret" "" 0)).
    + vm_compute. reflexivity.
    + vm_compute. discriminate.
  - apply (B3 (mkAuthUser "hunter2" "" 8080)).
    + vm_compute. reflexivity.
    + vm_compute. reflexivity.
    + vm_compute. discriminate.
    + vm_compute. discriminate.
  - apply D1. vm_compute. reflexivity.
  - apply D2; vm_compute; reflexivity.
  - apply (D3 (mkAuthUser "hunter2" "" 8080)).
    + vm_compute. reflexivity.
    + vm_compute. reflexivity.
    + vm_compute. discriminate.
    + vm_compute. discriminate.
  - apply (D4 (mkAuthUser "secret" "" 0) "01540a69725ddc1f776b83f664234f23");
      try (vm_compute; reflexivity).
    vm_compute. discriminate.
Defined.

(** * The orchestrator and the flag [required] *)

Lemma authDigest_setRequired b conn r keyVal now st :
  authDigest conn r keyVal now (setRequired b st)
  = (fst (authDigest conn r keyVal now st),
     setRequired b (snd (authDigest conn r keyVal now st))).
Proof.
  unfold authDigest. cbn [setRequired user].
  destruct (size (parseKeyValueList keyVal) =? 0)%nat; [reflexivity|].
  destruct (ParseInt16 _); [|reflexivity].
  destruct (nonceTooEarly now z); [reflexivity|].
  destruct (user st !! _) as [au|]; [|reflexivity].
  destruct (authPort conn _ au); [reflexivity|].
  destruct (negb (bool_decide (kvGet _ "qop" = "auth"))); [reflexivity|].
  destruct (parseKeyValueList keyVal !! "response"); [|reflexivity].
  destruct (negb (bool_decide _)); reflexivity.
Qed.

Lemma checkProxyAuthorization_setRequired b conn r now st :
  checkProxyAuthorization conn r now (setRequired b st)
  = (fst (checkProxyAuthorization conn r now st),
     setRequired b (snd (checkProxyAuthorization conn r now st))).
Proof.
  unfold checkProxyAuthorization.
  destruct (SplitN2 (ProxyAuthorization r) " ") as [|scheme [|blob [|? ?]]];
    try reflexivity.
  case_bool_decide; [apply authDigest_setRequired|].
  case_bool_decide; reflexivity.
Qed.

Lemma challenge_setRequired b conn now st :
  challenge conn now (setRequired b st) = withRequired b (challenge conn now st).
Proof.
  unfold challenge. cbn [setRequired template].
  destruct (template st) as [t|]; [|reflexivity].
  destruct (Template.Execute t _); [|reflexivity].
  destruct (writeFails conn); reflexivity.
Qed.

Lemma authUserPasswd_setRequired b conn r now st :
  authUserPasswd conn r now (setRequired b st)
  = withRequired b (authUserPasswd conn r now st).
Proof.
  unfold authUserPasswd.
  destruct (negb (bool_decide (ProxyAuthorization r = EmptyString)));
    [|apply challenge_setRequired].
  rewrite checkProxyAuthorization_setRequired.
  destruct (checkProxyAuthorization conn r now st) as [[e|] st1]; cbn [fst snd];
    [|reflexivity].
  destruct (negb (bool_decide (e = errAuthRequired))); [reflexivity|].
  apply challenge_setRequired.
Qed.

(** C2 (as amended). [Authenticate] does not read the flag [required]: its
    outcome is the same whatever the flag is (the caller has to test it).
    It succeeds at once, with nothing written, when the cache has the
    client address, or else when an allowed client matches; otherwise the
    outcome is that of [authUserPasswd], and a success enters the address in
    the cache. *)
Theorem Authenticate_does_not_read_required conn r now st b ts :
  authed st = Some ts ->
  Authenticate conn r now (setRequired b st)
  = withRequired b (Authenticate conn r now st)
  /\ (has ts (remoteHost conn) now = true ->
      Authenticate conn r now st = Ret (None, st, []))
  /\ (has ts (remoteHost conn) now = false ->
      authIP (remoteHost conn) st = Ret true ->
      Authenticate conn r now st = Ret (None, st, []))
  /\ (has ts (remoteHost conn) now = false ->
      authIP (remoteHost conn) st = Ret false ->
      Authenticate conn r now st
      = match authUserPasswd conn r now st with
        | Ret (None, st1, ev) =>
            Ret (None, setAuthed (Some (add ts (remoteHost conn) now)) st1, ev)
        | other => other
        end).
Proof.
  intros Hts. split; [|split; [|split]].
  - unfold Authenticate. cbn [setRequired authed]. rewrite Hts.
    destruct (has ts (remoteHost conn) now); [reflexivity|].
    unfold authIP. cbn [setRequired allowedClient].
    destruct (isNil (ParseIP (remoteHost conn))); [reflexivity|].
    cbn [bind]. destruct (existsb _ (allowedClient st)); [reflexivity|].
    rewrite authUserPasswd_setRequired.
    destruct (authUserPasswd conn r now st) as [[[e st1] ev]| |]; try reflexivity.
    cbn [withRequired bind]. destruct e; reflexivity.
  - intros Hhas. unfold Authenticate. now rewrite Hts, Hhas.
  - intros Hhas Hip. unfold Authenticate. now rewrite Hts, Hhas, Hip.
  - intros Hhas Hip. unfold Authenticate. rewrite Hts, Hhas, Hip. cbn [bind].
    destruct (authUserPasswd conn r now st) as [[[e st1] ev]| |]; reflexivity.
Qed.

(** A client without credentials with the flag off, and a client of the
    allowed network 10.0.0.0/8. *)
Lemma Authenticate_does_not_read_required_witness :
  Authenticate exampleConn plainRequest soonAfter (setRequired false exampleState)
  = withRequired false (Authenticate exampleConn plainRequest soonAfter exampleState)
  /\ Authenticate (mkConn "10.1.2.3" 3128 false) plainRequest soonAfter exampleState
     = Ret (None, exampleState, []).
Proof.
  split.
  - apply (Authenticate_does_not_read_required exampleConn plainRequest soonAfter
             exampleState false (NewTimeoutSet 7200000000000)).
    vm_compute. reflexivity.
  - apply (Authenticate_does_not_read_required (mkConn "10.1.2.3" 3128 false)
             plainRequest soonAfter exampleState true
             (NewTimeoutSet 7200000000000));
      vm_compute; reflexivity.
Defined.

(** C2, counterexample. With the flag [required] off, a client that is
    neither cached nor allowed and sends no credentials is not let through:
    the cache and the allowed clients are consulted, a challenge is written
    and the authentication-required error comes back. In the state that
    [initAuth] leaves when nothing is configured, the call does not return
    at all. *)
Lemma Authenticate_unrequired_not_noop :
  required (setRequired false exampleState) = false
  /\ (exists bytes,
        Authenticate exampleConn plainRequest soonAfter
          (setRequired false exampleState)
        = Ret (Some errAuthRequired, setRequired false exampleState, [Written bytes]))
  /\ initAuth (mkConfig "" "" "" 2) exampleFiles authZero = Ret authZero
  /\ required authZero = false
  /\ Authenticate exampleConn plainRequest soonAfter authZero = Panic nilDeref.
Proof.
  split; [reflexivity|]. split; [|repeat split].
  eexists. vm_compute. reflexivity.
Qed.

(** * The credential store *)

Lemma parseDigits_no_colon base s acc v :
  parseDigits base s acc = Some v -> containsByte s ":" = false.
Proof.
  revert acc. induction s as [|c s IH]; intros acc; [reflexivity|].
  simpl. destruct (digitVal c) as [d|] eqn:Ed; [|discriminate].
  destruct (d <? base); [|discriminate]. intros H.
  rewrite (IH _ H), orb_false_r.
  apply Ascii.eqb_neq. intros ->. vm_compute in Ed. discriminate Ed.
Qed.

Lemma parseSigned_no_colon base s v :
  parseSigned base s = Some v -> containsByte s ":" = false.
Proof.
  unfold parseSigned. destruct s as [|c rest]; [discriminate|].
  destruct (Ascii.eqb c "+") eqn:Ep.
  - destruct rest as [|c' rest']; [discriminate|].
    destruct (parseDigits base _ 0) eqn:E; [|discriminate]. intros _.
    apply Ascii.eqb_eq in Ep. subst c.
    apply parseDigits_no_colon in E. simpl in *. exact E.
  - destruct (Ascii.eqb c "-") eqn:Em.
    + destruct rest as [|c' rest']; [discriminate|].
      destruct (parseDigits base _ 0) eqn:E; [|discriminate]. intros _.
      apply Ascii.eqb_eq in Em. subst c.
      apply parseDigits_no_colon in E. simpl in *. exact E.
    + destruct (parseDigits base _ 0) eqn:E; [|discriminate]. intros _.
      apply parseDigits_no_colon in E. exact E.
Qed.

Lemma Split_two usr pw :
  containsByte usr ":" = false -> containsByte pw ":" = false ->
  Split (usr +:+ ":" +:+ pw) ":" = [usr; pw].
Proof.
  intros Hu Hp. change (":" +:+ pw) with (String ":" pw).
  now rewrite (Split_app_sep usr pw ":" Hu), (Split_no_sep pw ":" Hp).
Qed.

Lemma Split_three usr pw ps :
  containsByte usr ":" = false -> containsByte pw ":" = false ->
  containsByte ps ":" = false ->
  Split (usr +:+ ":" +:+ pw +:+ ":" +:+ ps) ":" = [usr; pw; ps].
Proof.
  intros Hu Hp Hs.
  change (":" +:+ pw +:+ ":" +:+ ps) with (String ":" (pw +:+ String ":" ps)).
  now rewrite (Split_app_sep usr _ ":" Hu), (Split_app_sep pw _ ":" Hp),
    (Split_no_sep ps ":" Hs).
Qed.

(** What [addUserPasswd] does with a spec that parses. *)
Lemma addUserPasswd_parsed val usr au st :
  parseUserPasswd val = (usr, Some au, None) ->
  addUserPasswd val st
  = match user st !! usr with
    | Some _ => Fatal (FatalDuplicateUser usr)
    | None => Ret (setUser (<[usr := au]> (user st)) st)
    end.
Proof.
  intros Hp. unfold addUserPasswd. case_bool_decide as E.
  - subst val. vm_compute in Hp. discriminate Hp.
  - now rewrite Hp.
Qed.

(** C9. A spec user:pass, with or without a third field that is empty or
    a number from 1 to 65535, parses into the record with exactly that
    password and that port, 0 when there is none; once the spec is added,
    the user name leads to this record and the other users are as before. *)
Theorem valid_spec_is_parsed_and_stored usr pw st :
  usr <> EmptyString -> pw <> EmptyString ->
  containsByte usr ":" = false -> containsByte pw ":" = false ->
  parseUserPasswd (usr +:+ ":" +:+ pw) = (usr, Some (mkAuthUser pw EmptyString 0), None)
  /\ parseUserPasswd (usr +:+ ":" +:+ pw +:+ ":")
     = (usr, Some (mkAuthUser pw EmptyString 0), None)
  /\ (forall ps p,
        Atoi ps = Some p -> 1 <= p <= 65535 ->
        parseUserPasswd (usr +:+ ":" +:+ pw +:+ ":" +:+ ps)
        = (usr, Some (mkAuthUser pw EmptyString p), None))
  /\ (forall p, 1 <= p <= 65535 ->
        parseUserPasswd (usr +:+ ":" +:+ pw +:+ ":" +:+ FormatInt 10 p)
        = (usr, Some (mkAuthUser pw EmptyString p), None))
  /\ (forall val au,
        parseUserPasswd val = (usr, Some au, None) ->
        user st !! usr = None ->
        exists st',
          addUserPasswd val st = Ret st'
          /\ user st' !! usr = Some au
          /\ forall other, other <> usr -> user st' !! other = user st !! other).
Proof.
  intros Hu Hp Hcu Hcp.
  assert (Hnum : forall ps p,
             Atoi ps = Some p -> 1 <= p <= 65535 ->
             parseUserPasswd (usr +:+ ":" +:+ pw +:+ ":" +:+ ps)
             = (usr, Some (mkAuthUser pw EmptyString p), None)).
  { intros ps p Ha Hr. unfold parseUserPasswd.
    rewrite (Split_three usr pw ps Hcu Hcp (parseSigned_no_colon _ _ _ Ha)).
    cbn [length Nat.eqb Nat.ltb Nat.leb orb nth andb].
    rewrite !bool_decide_eq_false_2 by assumption. cbn [orb].
    rewrite bool_decide_eq_false_2
      by (intros ->; discriminate Ha).
    cbn [negb]. rewrite Ha.
    replace (p <=? 0) with false by (symmetry; apply Z.leb_gt; lia).
    replace (0xffff <? p) with false by (symmetry; apply Z.ltb_ge; lia).
    cbn [orb]. now rewrite uint16_id by lia. }
  split; [|split; [|split; [|split]]].
  - unfold parseUserPasswd. rewrite (Split_two usr pw Hcu Hcp).
    cbn [length Nat.eqb Nat.ltb Nat.leb orb nth andb].
    now rewrite !bool_decide_eq_false_2 by assumption.
  - unfold parseUserPasswd.
    change (usr +:+ ":" +:+ pw +:+ ":") with (usr +:+ ":" +:+ pw +:+ ":" +:+ "").
    rewrite (Split_three usr pw "" Hcu Hcp eq_refl).
    cbn [length Nat.eqb Nat.ltb Nat.leb orb nth andb].
    rewrite !bool_decide_eq_false_2 by assumption. cbn [orb].
    now rewrite bool_decide_eq_true_2 by reflexivity.
  - exact Hnum.
  - intros p Hr. apply Hnum; [|exact Hr].
    apply Atoi_FormatInt. apply inInt64_iff. unfold minInt64, maxInt64. lia.
  - intros val au Hparse Hfree.
    rewrite (addUserPasswd_parsed val usr au st Hparse), Hfree.
    eexists. split; [reflexivity|]. cbn [setUser user]. split.
    + apply lookup_insert_eq.
    + intros other Hne. apply lookup_insert_ne. congruence.
Qed.

(** The user carol, without a port, with an empty port and with the port
    3128, added to the running example. *)
Lemma valid_spec_is_parsed_and_stored_witness :
  parseUserPasswd "carol:pa55" = ("carol", Some (mkAuthUser "pa55" "" 0), None)
  /\ parseUserPasswd "carol:pa55:" = ("carol", Some (mkAuthUser "pa55" "" 0), None)
  /\ parseUserPasswd "carol:pa55:3128"
     = ("carol", Some (mkAuthUser "pa55" "" 3128), None)
  /\ exists st',
       addUserPasswd "carol:pa55:3128" exampleState = Ret st'
       /\ user st' !! "carol" = Some (mkAuthUser "pa55" "" 3128)
       /\ user st' !! "alice" = user exampleState !! "alice".
Proof.
  destruct (valid_spec_is_parsed_and_stored "carol" "pa55" exampleState)
    as (H1 & H2 & H3 & _ & H4); try reflexivity; try discriminate.
  split; [exact H1|]. split; [exact H2|].
  split; [apply (H3 "3128" 3128); [reflexivity | lia]|].
  destruct (H4 "carol:pa55:3128" (mkAuthUser "pa55" "" 3128))
    as (st' & Ha & Hl & Ho); [vm_compute; reflexivity | vm_compute; reflexivity |].
  exists st'. split; [exact Ha|]. split; [exact Hl|]. apply Ho. discriminate.
Defined.

Lemma parseUserPasswd_malformed val :
  malformedSpec val ->
  exists msg, parseUserPasswd val = (EmptyString, None, Some (errorsNew msg)).
Proof.
  unfold malformedSpec, parseUserPasswd.
  set (arr := Split val ":"). set (n := length arr).
  intros H.
  destruct ((n =? 1)%nat || (3 <? n)%nat) eqn:En; [eexists; reflexivity|].
  apply orb_false_iff in En as [E1 E3].
  apply Nat.eqb_neq in E1. apply Nat.ltb_ge in E3.
  assert (Hn0 : n <> 0%nat).
  { unfold n. destruct arr eqn:Ea; [|discriminate].
    now apply Split_nonempty in Ea. }
  destruct (bool_decide (nth 0 arr EmptyString = EmptyString)
            || bool_decide (nth 1 arr EmptyString = EmptyString)) eqn:Ee;
    [eexists; reflexivity|].
  apply orb_false_iff in Ee as [Eu Ep].
  apply bool_decide_eq_false in Eu, Ep.
  destruct H as [[H2 H3]|[H|[H|(H3 & Hne & Hport)]]]; try lia; try contradiction.
  rewrite H3. cbn [Nat.eqb andb].
  rewrite bool_decide_eq_false_2 by assumption. cbn [negb].
  destruct (Atoi (nth 2 arr EmptyString)) as [p|] eqn:Ea; [|eexists; reflexivity].
  destruct ((p <=? 0) || (0xffff <? p)) eqn:Er; [eexists; reflexivity|].
  apply orb_false_iff in Er as [Er1 Er2].
  apply Z.leb_gt in Er1. apply Z.ltb_ge in Er2.
  exfalso. apply (Hport p eq_refl). lia.
Qed.

(** The error path of [addUserPasswd] is not reached: the [nil] record is
    read first. *)
Lemma addUserPasswd_malformed_panics val st :
  malformedSpec val -> val <> EmptyString ->
  addUserPasswd val st = Panic nilDeref.
Proof.
  intros Hm Hne. destruct (parseUserPasswd_malformed val Hm) as [msg Hp].
  unfold addUserPasswd. rewrite bool_decide_eq_false_2 by assumption.
  now rewrite Hp.
Qed.

(** C8 (as amended). For a malformed spec [parseUserPasswd] returns an
    error and no record, and [addUserPasswd] never returns with a changed
    store: the empty spec is skipped without an error, and with any other
    malformed spec the process stops before the store is written. *)
Theorem malformed_spec_leaves_store val st :
  malformedSpec val ->
  (exists msg, parseUserPasswd val = (EmptyString, None, Some (errorsNew msg)))
  /\ (val = EmptyString -> addUserPasswd val st = Ret st)
  /\ (val <> EmptyString -> stops (addUserPasswd val st))
  /\ (forall st', addUserPasswd val st = Ret st' -> st' = st).
Proof.
  intros Hm. split; [apply parseUserPasswd_malformed, Hm|].
  split; [|split].
  - intros ->. reflexivity.
  - intros Hne. rewrite (addUserPasswd_malformed_panics val st Hm Hne). exact I.
  - intros st'. destruct (decide (val = EmptyString)) as [->|Hne].
    + intros [= <-]. reflexivity.
    + rewrite (addUserPasswd_malformed_panics val st Hm Hne). discriminate.
Qed.

(** One field, a port out of range, an empty user name, and the empty
    spec. *)
Lemma malformed_spec_leaves_store_witness :
  stops (addUserPasswd "dave" exampleState)
  /\ stops (addUserPasswd "dave:pw:99999" exampleState)
  /\ stops (addUserPasswd ":pw" exampleState)
  /\ addUserPasswd "" exampleState = Ret exampleState.
Proof.
  split; [|split; [|split]].
  - apply (malformed_spec_leaves_store "dave" exampleState);
      [left; vm_compute; split; discriminate | discriminate].
  - apply (malformed_spec_leaves_store "dave:pw:99999" exampleState);
      [|discriminate].
    right; right; right. vm_compute. split; [reflexivity|].
    split; [discriminate|]. intros p [= <-] [_ H]. apply H. reflexivity.
  - apply (malformed_spec_leaves_store ":pw" exampleState);
      [right; left; reflexivity | discriminate].
  - apply (malformed_spec_leaves_store "" exampleState);
      [left; vm_compute; split; discriminate | reflexivity].
Defined.

(** C8, counterexample. The empty spec is malformed (its split has one
    field, and the user name is empty), yet adding it does not fail: the
    call returns, without an error. *)
Lemma empty_spec_is_skipped :
  malformedSpec ""
  /\ addUserPasswd "" exampleState = Ret exampleState
  /\ ~ stops (addUserPasswd "" exampleState).
Proof.
  split; [left; vm_compute; split; discriminate|].
  split; [reflexivity|]. intros H. exact H.
Qed.

(** * The 407 challenge *)

Lemma wrap64_range z : minInt64 <= wrap64 z <= maxInt64.
Proof.
  unfold wrap64, minInt64, maxInt64.
  pose proof (Z.mod_pos_bound (z + 2 ^ 63) (2 ^ 64) ltac:(lia)). lia.
Qed.

Lemma initAuth_template config open st :
  initAuth config open authZero = Ret st -> required st = true ->
  template st = Template.Parse rawTemplate.
Proof.
  unfold initAuth.
  destruct (negb _ || negb _ || negb _).
  - destruct (addUserPasswd _ _) as [st1| |]; cbn [bind]; try discriminate.
    destruct (loadUserPasswdFile _ _ _) as [st2| |]; cbn [bind]; try discriminate.
    destruct (parseAllowedClient _ _) as [st3| |]; cbn [bind]; try discriminate.
    destruct (Template.Parse rawTemplate) as [t|]; [|discriminate].
    intros [= <-] _. reflexivity.
  - intros [= <-]. discriminate.
Qed.

Lemma Execute_rawTemplate nonce :
  match Template.Parse rawTemplate with
  | Some t => Template.Execute t [("Nonce", nonce)]
  | None => None
  end = Some (challengeBytes nonce).
Proof. vm_compute. reflexivity. Qed.

Lemma digitVal_nonneg c d : digitVal c = Some d -> 0 <= d.
Proof.
  unfold digitVal.
  destruct ((48 <=? byteZ c) && (byteZ c <=? 57)) eqn:E1.
  { apply andb_true_iff in E1 as [H _]. apply Z.leb_le in H. intros [= <-]. lia. }
  destruct ((97 <=? byteZ c) && (byteZ c <=? 122)) eqn:E2.
  { apply andb_true_iff in E2 as [H _]. apply Z.leb_le in H. intros [= <-]. lia. }
  destruct ((65 <=? byteZ c) && (byteZ c <=? 90)) eqn:E3; [|discriminate].
  apply andb_true_iff in E3 as [H _]. apply Z.leb_le in H. intros [= <-]. lia.
Qed.

Lemma parseDigits_bounds base s acc v :
  2 <= base -> 0 <= acc -> parseDigits base s acc = Some v ->
  acc * base ^ Z.of_nat (String.length s) <= v
  < (acc + 1) * base ^ Z.of_nat (String.length s).
Proof.
  intros Hb. revert acc. induction s as [|c s IH]; intros acc Hacc.
  - simpl. intros [= <-]. lia.
  - simpl parseDigits. destruct (digitVal c) as [d|] eqn:Ed; [|discriminate].
    destruct (Z.ltb_spec d base) as [Hd|]; [|discriminate].
    intros H. apply digitVal_nonneg in Ed.
    apply IH in H; [|nia].
    cbn [String.length]. rewrite Nat2Z.inj_succ, Z.pow_succ_r by lia.
    assert (0 < base ^ Z.of_nat (String.length s)) by (apply Z.pow_pos_nonneg; lia).
    nia.
Qed.

Lemma parseIPv4Field_range f v : parseIPv4Field f = Some v -> isByte v.
Proof.
  unfold parseIPv4Field. destruct f as [|c rest]; [discriminate|].
  destruct (Ascii.eqb c "0" && negb (eqb_string rest "")); [discriminate|].
  destruct (parseDigits 10 (String c rest) 0) as [w|] eqn:E; [|discriminate].
  destruct (Z.leb_spec w 255); [|discriminate]. intros [= <-].
  apply parseDigits_bounds in E; try lia. unfold isByte.
  assert (0 < 10 ^ Z.of_nat (String.length (String c rest)))
    by (apply Z.pow_pos_nonneg; lia).
  lia.
Qed.

Lemma parseIPv4_cases s :
  parseIPv4 s = []
  \/ exists a b c d, parseIPv4 s = IPv4 a b c d
                     /\ isByte a /\ isByte b /\ isByte c /\ isByte d.
Proof.
  unfold parseIPv4.
  assert (Hall : Forall (fun o => forall v, o = Some v -> isByte v)
                   (map parseIPv4Field (Split s "."))).
  { apply Forall_map, Forall_forall. intros f _ v. apply parseIPv4Field_range. }
  destruct (map parseIPv4Field (Split s "."))
    as [|[a|] [|[b|] [|[c|] [|[d|] [|? ?]]]]]; try (left; reflexivity).
  right. exists a, b, c, d. split; [reflexivity|].
  inversion Hall as [|? ? Ha Hall1]; subst.
  inversion Hall1 as [|? ? Hb Hall2]; subst.
  inversion Hall2 as [|? ? Hc Hall3]; subst.
  inversion Hall3 as [|? ? Hd _]; subst.
  auto.
Qed.

(** Every element of an explicit list is a byte. *)
Ltac forall_bytes :=
  repeat (apply Forall_cons_2; [first [assumption | unfold isByte; lia]|]);
  apply Forall_nil_2.

Lemma IPv4_wf a b c d :
  isByte a -> isByte b -> isByte c -> isByte d -> wfIP (IPv4 a b c d).
Proof.
  intros Ha Hb Hc Hd. split; [reflexivity|].
  unfold IPv4, v4InV6Prefix. cbn [app]. forall_bytes.
Qed.

Lemma parseHex16_bytes f bs :
  parseHex16 f = Some bs -> length bs = 2%nat /\ Forall isByte bs.
Proof.
  unfold parseHex16. destruct f as [|c rest]; [discriminate|].
  destruct (Nat.ltb_spec 4 (String.length (String c rest))); [discriminate|].
  destruct (parseDigits 16 (String c rest) 0) as [v|] eqn:E; [|discriminate].
  intros [= <-]. split; [reflexivity|].
  apply parseDigits_bounds in E; try lia.
  assert (16 ^ Z.of_nat (String.length (String c rest)) <= 16 ^ 4)
    by (apply Z.pow_le_mono_r; lia).
  assert (0 < 16 ^ Z.of_nat (String.length (String c rest)))
    by (apply Z.pow_pos_nonneg; lia).
  assert (Hv : 0 <= v < 65536) by lia.
  apply Forall_cons_2; [|apply Forall_cons_2; [|apply Forall_nil_2]]; unfold isByte.
  - split; [apply Z.div_pos; lia | apply Z.div_lt_upper_bound; lia].
  - apply Z.mod_pos_bound; lia.
Qed.

Lemma parseGroups_bytes v4 fs bs :
  parseGroups v4 fs = Some bs -> Forall isByte bs.
Proof.
  revert bs. induction fs as [|f fs IH]; intros bs.
  - intros [= <-]. constructor.
  - destruct fs as [|g fs'].
    + cbn [parseGroups]. destruct (v4 && containsByte f ".").
      * destruct (parseIPv4_cases f) as [->|(a & b & c & d & -> & Ha & Hb & Hc & Hd)];
          [discriminate|].
        intros [= <-]. cbn. forall_bytes.
      * intros H. apply parseHex16_bytes in H. apply H.
    + change (parseGroups v4 (f :: g :: fs'))
        with (match parseHex16 f, parseGroups v4 (g :: fs') with
              | Some b, Some more => Some (b ++ more)
              | _, _ => None
              end).
      destruct (parseHex16 f) as [b|] eqn:Eb; [|discriminate].
      destruct (parseGroups v4 (g :: fs')) as [more|] eqn:Em; [|discriminate].
      intros [= <-]. apply Forall_app. split.
      * apply parseHex16_bytes in Eb. apply Eb.
      * apply IH. reflexivity.
Qed.

Lemma parseIPv6_cases s : parseIPv6 s = [] \/ wfIP (parseIPv6 s).
Proof.
  unfold parseIPv6. destruct (cutAt "::" s) as [[l r]|].
  - cbv zeta.
    assert (Hside : forall v4 (x : string) bs,
               match x with
               | EmptyString => Some []
               | String _ _ => parseGroups v4 (Split x ":")
               end = Some bs -> Forall isByte bs).
    { intros v4 x bs. destruct x.
      - intros [= <-]. constructor.
      - apply parseGroups_bytes. }
    destruct (match l with
              | EmptyString => Some []
              | String _ _ => parseGroups false (Split l ":")
              end) as [lb|] eqn:El; [|left; reflexivity].
    destruct (match r with
              | EmptyString => Some []
              | String _ _ => parseGroups true (Split r ":")
              end) as [rb|] eqn:Er; [|left; reflexivity].
    destruct (Nat.leb_spec (length lb + length rb) 14); [|left; reflexivity].
    right. split.
    + rewrite !length_app, repeat_length. unfold IPv6len. lia.
    + apply Forall_app. split; [eapply Hside, El|].
      apply Forall_app. split; [|eapply Hside, Er].
      apply Forall_forall. intros x Hx. apply list_elem_of_In, repeat_spec in Hx.
      subst x. unfold isByte. lia.
  - destruct (parseGroups true (Split s ":")) as [bs|] eqn:E; [|left; reflexivity].
    destruct (Nat.eqb_spec (length bs) IPv6len) as [Hl|]; [|left; reflexivity].
    right. split; [exact Hl|]. eapply parseGroups_bytes, E.
Qed.

(** [net.ParseIP] returns [nil] or 16 bytes. *)
Lemma ParseIP_cases s : ParseIP s = [] \/ wfIP (ParseIP s).
Proof.
  unfold ParseIP.
  destruct (parseIPv4_cases s) as [->|(a & b & c & d & -> & Ha & Hb & Hc & Hd)].
  - apply parseIPv6_cases.
  - right. apply IPv4_wf; assumption.
Qed.

Lemma land_255 x : isByte x -> Z.land x 255 = x.
Proof.
  intros Hx. change 255 with (Z.ones 8). rewrite Z.land_ones by lia.
  apply Z.mod_small. exact Hx.
Qed.

Lemma wfIP_explicit a :
  wfIP a ->
  exists x0 x1 x2 x3 x4 x5 x6 x7 x8 x9 x10 x11 x12 x13 x14 x15,
    a = [x0; x1; x2; x3; x4; x5; x6; x7; x8; x9; x10; x11; x12; x13; x14; x15]
    /\ isByte x12 /\ isByte x13 /\ isByte x14 /\ isByte x15.
Proof.
  intros [Hlen Hall].
  do 16 (destruct a as [|? a]; [discriminate Hlen|]).
  destruct a; [|discriminate Hlen].
  do 12 (apply Forall_cons in Hall as [_ Hall]).
  apply Forall_cons in Hall as [H12 Hall].
  apply Forall_cons in Hall as [H13 Hall].
  apply Forall_cons in Hall as [H14 Hall].
  apply Forall_cons in Hall as [H15 _].
  do 16 eexists. split; [reflexivity|]. auto.
Qed.

(** The rule of a single IPv4 host matches that host and no other
    address. *)
Lemma single_host_rule a b c d client :
  isByte a -> isByte b -> isByte c -> isByte d -> wfIP client ->
  Equal (Mask client [255; 255; 255; 255]) [a; b; c; d] = true
  <-> client = IPv4 a b c d.
Proof.
  intros Ha Hb Hc Hd Hw.
  destruct (wfIP_explicit client Hw)
    as (x0 & x1 & x2 & x3 & x4 & x5 & x6 & x7 & x8 & x9 & x10 & x11
        & x12 & x13 & x14 & x15 & -> & H12 & H13 & H14 & H15).
  unfold Mask.
  cbn [length Nat.eqb IPv6len IPv4len andb firstn skipn allFF].
  unfold bytesEqual.
  destruct (decide ([x0; x1; x2; x3; x4; x5; x6; x7; x8; x9; x10; x11] = v4InV6Prefix))
    as [Ep|Ep].
  - rewrite !(bool_decide_eq_true_2 _ Ep).
    injection Ep as -> -> -> -> -> -> -> -> -> -> -> ->.
    cbn [length Nat.eqb andBytes]. rewrite !land_255 by assumption.
    unfold Equal. cbn [length Nat.eqb]. unfold bytesEqual, IPv4, v4InV6Prefix.
    cbn [app]. rewrite bool_decide_eq_true.
    split; intros E; injection E as -> -> -> ->; reflexivity.
  - rewrite !(bool_decide_eq_false_2 _ Ep).
    cbn [length Nat.eqb]. unfold Equal. cbn [length Nat.eqb andb].
    split; [discriminate|]. intros E. exfalso. apply Ep.
    unfold IPv4, v4InV6Prefix in E. cbn [app] in E.
    injection E as -> -> -> -> -> -> -> -> -> -> -> -> _ _ _ _. reflexivity.
Qed.

Lemma Mask_IPv4_host a b c d :
  isByte a -> isByte b -> isByte c -> isByte d ->
  Mask (IPv4 a b c d) [255; 255; 255; 255] = [a; b; c; d].
Proof.
  intros Ha Hb Hc Hd. unfold Mask, IPv4, v4InV6Prefix.
  cbn [app length Nat.eqb IPv6len IPv4len andb firstn skipn allFF].
  unfold bytesEqual. rewrite bool_decide_eq_true_2 by reflexivity.
  cbn [length Nat.eqb andBytes]. now rewrite !land_255 by assumption.
Qed.

Lemma authIP_parsed clientIP st :
  ParseIP clientIP <> [] ->
  authIP clientIP st
  = Ret (existsb (fun na => Equal (Mask (ParseIP clientIP) (mask na)) (ip na))
           (allowedClient st)).
Proof.
  intros Hne. unfold authIP. destruct (ParseIP clientIP); [contradiction|].
  reflexivity.
Qed.

Lemma parseAllowedEntry_host v :
  containsByte (TrimSpace v) "/" = false -> ParseIP (TrimSpace v) <> [] ->
  parseAllowedEntry v
  = Ret (mkNetAddr (Mask (ParseIP (TrimSpace v)) [255; 255; 255; 255])
           [255; 255; 255; 255]).
Proof.
  intros Hs Hne. unfold parseAllowedEntry.
  rewrite (Split_no_sep _ _ Hs). cbn [length Nat.ltb Nat.leb nth Nat.eqb].
  destruct (ParseIP (TrimSpace v)); [contradiction|]. reflexivity.
Qed.

(** The IPv4 side of the allowed clients. [authIP] answers true exactly
    when some rule has (client address and mask) equal to its base
    address. An entry without a prefix length gives the rule that the same
    entry with /32 gives; when its address is an IPv4 address, this rule
    matches that address and no other. *)
Theorem allowlist_match st clientIP :
  ParseIP clientIP <> [] ->
  (exists b,
      authIP clientIP st = Ret b
      /\ (b = true <->
          exists na, In na (allowedClient st)
                     /\ Equal (Mask (ParseIP clientIP) (mask na)) (ip na) = true))
  /\ (forall s,
        TrimSpace s = s -> TrimSpace (s +:+ "/32") = s +:+ "/32" ->
        containsByte s "/" = false -> ParseIP s <> [] ->
        parseAllowedEntry s = parseAllowedEntry (s +:+ "/32"))
  /\ (forall v a b c d,
        containsByte (TrimSpace v) "/" = false ->
        ParseIP (TrimSpace v) = IPv4 a b c d ->
        parseAllowedEntry v = Ret (mkNetAddr [a; b; c; d] [255; 255; 255; 255])
        /\ (authIP clientIP
              (setAllowedClient [mkNetAddr [a; b; c; d] [255; 255; 255; 255]] st)
            = Ret true
            <-> ParseIP clientIP = IPv4 a b c d)).
Proof.
  intros Hne. split; [|split].
  - eexists. split; [apply authIP_parsed, Hne|].
    rewrite existsb_exists. reflexivity.
  - intros s Ht Ht32 Hs Hip. unfold parseAllowedEntry. rewrite Ht, Ht32.
    change (s +:+ "/32") with (s +:+ String "/" "32").
    rewrite (Split_app_sep s "32" "/" Hs), (Split_no_sep s "/" Hs).
    change (Split "32" "/") with ["32"].
    cbn [length Nat.ltb Nat.leb nth Nat.eqb].
    destruct (ParseIP s); [contradiction|]. reflexivity.
  - intros v a b c d Hs Hip.
    assert (Hw : wfIP (IPv4 a b c d)).
    { destruct (ParseIP_cases (TrimSpace v)) as [E|Hw];
        rewrite Hip in *; [discriminate E | exact Hw]. }
    destruct Hw as [_ Hall]. unfold IPv4, v4InV6Prefix in Hall. cbn [app] in Hall.
    do 12 (apply Forall_cons in Hall as [_ Hall]).
    apply Forall_cons in Hall as [Ha Hall].
    apply Forall_cons in Hall as [Hb Hall].
    apply Forall_cons in Hall as [Hc Hall].
    apply Forall_cons in Hall as [Hd _].
    split.
    + rewrite (parseAllowedEntry_host v Hs) by (rewrite Hip; discriminate).
      rewrite Hip, Mask_IPv4_host by assumption. reflexivity.
    + rewrite (authIP_parsed clientIP _ Hne).
      cbn [setAllowedClient allowedClient existsb mask ip]. rewrite orb_false_r.
      assert (Hc' : wfIP (ParseIP clientIP)).
      { destruct (ParseIP_cases clientIP) as [E|Hw]; [contradiction | exact Hw]. }
      rewrite <- (single_host_rule a b c d (ParseIP clientIP) Ha Hb Hc Hd Hc').
      split; [intros [= ->]; reflexivity | intros ->; reflexivity].
Qed.

(** The allowed clients 10.0.0.0/8 and 192.168.1.5 of the running
    example. *)
Lemma allowlist_match_witness :
  authIP "10.1.2.3" exampleState = Ret true
  /\ authIP "11.0.0.0" exampleState = Ret false
  /\ parseAllowedEntry "192.168.1.5" = parseAllowedEntry "192.168.1.5/32"
  /\ (authIP "192.168.1.6"
        (setAllowedClient [mkNetAddr [192; 168; 1; 5] [255; 255; 255; 255]]
           exampleState) = Ret true
      <-> ParseIP "192.168.1.6" = IPv4 192 168 1 5).
Proof.
  destruct (allowlist_match exampleState "192.168.1.6")
    as (_ & H32 & Hhost); [vm_compute; discriminate|].
  split; [reflexivity|]. split; [reflexivity|]. split.
  - apply (H32 "192.168.1.5"); try reflexivity. vm_compute. discriminate.
  - apply (Hhost "192.168.1.5" 192 168 1 5); reflexivity.
Defined.

(** C7, the defect. An entry without a prefix length is to match its own
    address only, and for an IPv4 entry that is what the rule does. The
    entry ::1 is an IPv6 address: [NewNbitIPv4Mask(32)] is a mask of 4
    bytes, [ip.Mask] returns [nil] for it, and the rule is stored with the
    base address [nil]. The masked address of every other IPv6 client is
    [nil] too and [Equal] takes the two for equal: with ::1 as the only
    allowed client, [authIP] says yes to ::2 and to 2001:db8::99, and
    [Authenticate] lets 2001:db8::99 in without credentials and with
    nothing written. An IPv4 client is still asked to authenticate, and
    the IPv4 entry 192.168.1.5 turns 192.168.1.6 away. *)
Lemma ipv6_entry_matches_other_hosts :
  exists st,
    initAuth (mkConfig "" "" "::1" 2) (fun _ => None) authZero = Ret st
    /\ allowedClient st = [mkNetAddr [] [255; 255; 255; 255]]
    /\ ParseIP "::2" <> ParseIP "::1"
    /\ ParseIP "2001:db8::99" <> ParseIP "::1"
    /\ Mask (ParseIP "2001:db8::99") [255; 255; 255; 255] = []
    /\ authIP "::1" st = Ret true
    /\ authIP "::2" st = Ret true
    /\ authIP "2001:db8::99" st = Ret true
    /\ Authenticate (mkConn "2001:db8::99" 3128 false)
         (mkRequest "GET" "http://example.com/" "") soonAfter st
       = Ret (None, st, [])
    /\ authIP "203.0.113.9" st = Ret false
    /\ authIP "192.168.1.6"
         (setAllowedClient [mkNetAddr [192; 168; 1; 5] [255; 255; 255; 255]] st)
       = Ret false.
Proof.
  eexists. split; [vm_compute; reflexivity|].
  split; [reflexivity|].
  split; [vm_compute; discriminate|].
  split; [vm_compute; discriminate|].
  repeat split; vm_compute; reflexivity.
Qed.

(** * Two more properties of section 8 of the specification *)

(** After a successful authentication the client address is in the cache,
    and the next request passes without any authorization header. *)
Example cache_hit_after_success :
  exists st1,
    Authenticate exampleConn exampleRequest soonAfter exampleState
    = Ret (None, st1, [])
    /\ Authenticate exampleConn plainRequest soonAfter st1 = Ret (None, st1, [])
    /\ Authenticate exampleConn plainRequest (Unix (1597463010 + 2 * 3600 + 1) 0) st1
       <> Ret (None, st1, []).
Proof.
  eexists. split; [vm_compute; reflexivity|].
  split; [vm_compute; reflexivity|]. vm_compute. discriminate.
Qed.

(** A second spec for a user that exists stops the startup and does not
    replace the record. *)
Example duplicate_user_is_fatal :
  addUserPasswd "alice:other" exampleState = Fatal (FatalDuplicateUser "alice").
Proof. vm_compute. reflexivity. Qed.

(** * More on the credential specs *)

Lemma Split_pieces s sep :
  Forall (fun p => containsByte p sep = false) (Split s sep).
Proof.
  induction s as [|c s IH]; cbn [Split].
  - apply Forall_cons_2; [reflexivity | apply Forall_nil_2].
  - destruct (Ascii.eqb c sep) eqn:E.
    + apply Forall_cons_2; [reflexivity | exact IH].
    + destruct (Split s sep) as [|x xs].
      * apply Forall_cons_2; [|apply Forall_nil_2]. cbn. now rewrite E.
      * apply Forall_cons in IH as [Hx Hxs].
        apply Forall_cons_2; [|exact Hxs]. cbn. now rewrite E, Hx.
Qed.

(** Joining the pieces with the separator gives the string back. *)
Lemma Join_Split s sep : Join (Split s sep) (String sep EmptyString) = s.
Proof.
  induction s as [|c s IH]; [reflexivity|]. cbn [Split].
  destruct (Ascii.eqb_spec c sep) as [->|Hne].
  - pose proof (Split_nonempty s sep) as Hn.
    destruct (Split s sep) as [|x xs]; [contradiction|].
    change (Join (EmptyString :: x :: xs) (String sep EmptyString))
      with (String sep (Join (x :: xs) (String sep EmptyString))).
    now rewrite IH.
  - pose proof (Split_nonempty s sep) as Hn.
    destruct (Split s sep) as [|x [|y ys]]; [contradiction| |].
    + cbn in IH |- *. now rewrite IH.
    + change (Join (String c x :: y :: ys) (String sep EmptyString))
        with (String c (Join (x :: y :: ys) (String sep EmptyString))).
      now rewrite IH.
Qed.

(** The two outcomes of [parseUserPasswd]. *)
Lemma parseUserPasswd_dichotomy val :
  match parseUserPasswd val with
  | (usr, Some au, e) =>
      e = None /\ ~ malformedSpec val
      /\ usr <> EmptyString /\ passwd au <> EmptyString
      /\ containsByte usr ":" = false /\ containsByte (passwd au) ":" = false
      /\ 0 <= port au <= 65535 /\ ha1 au = EmptyString
      /\ (val = usr +:+ ":" +:+ passwd au /\ port au = 0
          \/ exists ps,
               val = usr +:+ ":" +:+ passwd au +:+ ":" +:+ ps
               /\ (ps = EmptyString /\ port au = 0
                   \/ Atoi ps = Some (port au) /\ 1 <= port au))
  | (usr, None, e) =>
      usr = EmptyString /\ malformedSpec val
      /\ exists msg, e = Some (errorsNew msg)
  end.
Proof.
  assert (Hmal : forall usr au e,
             parseUserPasswd val = (usr, Some au, e) -> ~ malformedSpec val).
  { intros usr au e Hp Hm. apply parseUserPasswd_malformed in Hm as [msg Hm].
    congruence. }
  destruct (parseUserPasswd val) as [[usr [au|]] e] eqn:Hp.
  - specialize (Hmal _ _ _ eq_refl). revert Hp.
    unfold parseUserPasswd.
    pose proof (Split_pieces val ":") as Hpieces.
    pose proof (Join_Split val ":") as Hjoin.
    destruct (Split val ":") as [|a [|b [|c [|d rest]]]];
      cbn [length Nat.eqb Nat.ltb Nat.leb orb nth andb]; try discriminate.
    + apply Forall_cons in Hpieces as [Ha Hpieces].
      apply Forall_cons in Hpieces as [Hb _].
      case_bool_decide; [discriminate|]. case_bool_decide; [discriminate|].
      cbn [orb]. intros [= <- <- <-]. cbn [passwd port ha1].
      change (uint16 0) with 0.
      repeat split; try assumption; try lia. left. split; [|reflexivity].
      symmetry. exact Hjoin.
    + apply Forall_cons in Hpieces as [Ha Hpieces].
      apply Forall_cons in Hpieces as [Hb _].
      case_bool_decide; [discriminate|]. case_bool_decide; [discriminate|].
      cbn [orb]. case_bool_decide as Hc; cbn [negb].
      * intros [= <- <- <-]. cbn [passwd port ha1]. change (uint16 0) with 0.
        repeat split; try assumption; try lia. right. exists c.
        split; [symmetry; exact Hjoin|]. left. split; [exact Hc | reflexivity].
      * destruct (Atoi c) as [p|] eqn:Ea; [|discriminate].
        destruct (Z.leb_spec p 0); [discriminate|].
        destruct (Z.ltb_spec 0xffff p); [discriminate|].
        cbn [orb]. intros [= <- <- <-]. cbn [passwd port ha1].
        rewrite uint16_id by lia.
        repeat split; try assumption; try lia. right. exists c.
        split; [symmetry; exact Hjoin|]. right. split; [exact Ea | lia].
  - revert Hp. unfold parseUserPasswd, malformedSpec.
    pose proof (Split_nonempty val ":") as Hne.
    destruct (Split val ":") as [|a [|b [|c [|d rest]]]];
      cbn [length Nat.eqb Nat.ltb Nat.leb orb nth andb]; [contradiction| | | |].
    + intros [= <- <-]. split; [reflexivity|]. split; [|eexists; reflexivity].
      left. split; discriminate.
    + case_bool_decide as Ha; cbn [orb].
      { intros [= <- <-]. split; [reflexivity|]. split; [|eexists; reflexivity].
        right. left. exact Ha. }
      case_bool_decide as Hb; [|discriminate].
      intros [= <- <-]. split; [reflexivity|]. split; [|eexists; reflexivity].
      right. right. left. exact Hb.
    + case_bool_decide as Ha; cbn [orb].
      { intros [= <- <-]. split; [reflexivity|]. split; [|eexists; reflexivity].
        right. left. exact Ha. }
      case_bool_decide as Hb.
      { intros [= <- <-]. split; [reflexivity|]. split; [|eexists; reflexivity].
        right. right. left. exact Hb. }
      case_bool_decide as Hc; cbn [negb]; [discriminate|].
      assert (Hport : (forall p, Atoi c = Some p -> ~ 1 <= p <= 65535) ->
                 (3 <> 2 /\ 3 <> 3)%nat \/ a = EmptyString \/ b = EmptyString
                 \/ (3 = 3)%nat /\ c <> EmptyString
                    /\ (forall p, Atoi c = Some p -> ~ 1 <= p <= 65535))
        by (intros H; right; right; right; auto).
      destruct (Atoi c) as [p|] eqn:Ea.
      * destruct (Z.leb_spec p 0) as [Hp0|Hp0]; cbn [orb].
        { intros [= <- <-]. split; [reflexivity|]. split; [|eexists; reflexivity].
          apply Hport. intros q [= <-]. lia. }
        destruct (Z.ltb_spec 0xffff p) as [Hp1|Hp1]; [|discriminate].
        intros [= <- <-]. split; [reflexivity|]. split; [|eexists; reflexivity].
        apply Hport. intros q [= <-]. lia.
      * intros [= <- <-]. split; [reflexivity|]. split; [|eexists; reflexivity].
        apply Hport. intros q [=].
    + intros [= <- <-]. split; [reflexivity|]. split; [|eexists; reflexivity].
      left. cbn. split; lia.
Qed.

(** X1. [parseUserPasswd] has two outcomes. Either it returns a record and
    no error: the spec is then user:pass, user:pass: or user:pass:port, the
    name and the password are not empty and hold no colon, the port is 0
    or the number of the third field, from 1 to 65535, and the record has
    no digest key yet. Or it returns no record, an empty name and an error
    of its own. The second outcome is that of the malformed specs. *)
Theorem parseUserPasswd_outcomes val :
  match parseUserPasswd val with
  | (usr, Some au, e) =>
      e = None /\ ~ malformedSpec val
      /\ usr <> EmptyString /\ passwd au <> EmptyString
      /\ containsByte usr ":" = false /\ containsByte (passwd au) ":" = false
      /\ 0 <= port au <= 65535 /\ ha1 au = EmptyString
      /\ (val = usr +:+ ":" +:+ passwd au /\ port au = 0
          \/ exists ps,
               val = usr +:+ ":" +:+ passwd au +:+ ":" +:+ ps
               /\ (ps = EmptyString /\ port au = 0
                   \/ Atoi ps = Some (port au) /\ 1 <= port au))
  | (usr, None, e) =>
      usr = EmptyString /\ malformedSpec val
      /\ exists msg, e = Some (errorsNew msg)
  end.
Proof. exact (parseUserPasswd_dichotomy val). Qed.

(** * More on the credential store *)

Lemma addUserPasswd_cases val st :
  (val = EmptyString /\ addUserPasswd val st = Ret st)
  \/ (val <> EmptyString /\ malformedSpec val /\ addUserPasswd val st = Panic nilDeref)
  \/ (exists usr au,
        val <> EmptyString /\ parseUserPasswd val = (usr, Some au, None)
        /\ addUserPasswd val st
           = match user st !! usr with
             | Some _ => Fatal (FatalDuplicateUser usr)
             | None => Ret (setUser (<[usr := au]> (user st)) st)
             end).
Proof.
  destruct (decide (val = EmptyString)) as [->|Hne]; [left; split; reflexivity|].
  right. pose proof (parseUserPasswd_dichotomy val) as H.
  destruct (parseUserPasswd val) as [[usr [au|]] e] eqn:Hp.
  - right. destruct H as (-> & _). exists usr, au.
    split; [exact Hne|]. split; [reflexivity|].
    apply addUserPasswd_parsed, Hp.
  - left. destruct H as (_ & Hm & _). split; [exact Hne|]. split; [exact Hm|].
    apply addUserPasswd_malformed_panics; assumption.
Qed.

(** X2. [addUserPasswd] never overwrites: when it returns, every user that
    was in the store is there with the same record, nothing but the store
    has changed, and a spec that is not empty has added exactly its own
    user, who was not there before. A spec for a user that is there
    already stops the startup. *)
Theorem addUserPasswd_never_overwrites val st :
  (forall st',
      addUserPasswd val st = Ret st' ->
      (forall u au, user st !! u = Some au -> user st' !! u = Some au)
      /\ st' = setUser (user st') st
      /\ (val = EmptyString -> st' = st)
      /\ (val <> EmptyString ->
          exists usr au,
            parseUserPasswd val = (usr, Some au, None)
            /\ user st !! usr = None
            /\ user st' = <[usr := au]> (user st)))
  /\ (forall usr au old,
        parseUserPasswd val = (usr, Some au, None) ->
        user st !! usr = Some old ->
        addUserPasswd val st = Fatal (FatalDuplicateUser usr)).
Proof.
  split.
  - intros st' Hadd.
    destruct (addUserPasswd_cases val st)
      as [[-> H]|[(Hne & _ & H)|(usr & au & Hne & Hp & H)]];
      rewrite H in Hadd; try discriminate.
    + injection Hadd as <-. repeat split; try tauto. now destruct st.
    + destruct (user st !! usr) eqn:Eu; [discriminate|]. injection Hadd as <-.
      cbn [setUser user]. repeat split.
      * intros u a Hu. rewrite lookup_insert_ne; [exact Hu | congruence].
      * contradiction.
      * intros _. exists usr, au. auto.
  - intros usr au old Hp Hu.
    rewrite (addUserPasswd_parsed val usr au st Hp), Hu. reflexivity.
Qed.

(** A new user next to alice, and a second spec for alice. *)
Lemma addUserPasswd_never_overwrites_witness :
  (exists st',
      addUserPasswd "carol:pa55" exampleState = Ret st'
      /\ user st' !! "alice" = Some (mkAuthUser "secret" "" 0))
  /\ addUserPasswd "alice:other" exampleState = Fatal (FatalDuplicateUser "alice").
Proof.
  destruct (addUserPasswd_never_overwrites "carol:pa55" exampleState) as [H _].
  destruct (addUserPasswd_never_overwrites "alice:other" exampleState) as [_ D].
  split.
  - eexists. split; [vm_compute; reflexivity|].
    eapply H; vm_compute; reflexivity.
  - apply (D "alice" (mkAuthUser "other" "" 0) (mkAuthUser "secret" "" 0));
      vm_compute; reflexivity.
Defined.

Lemma addUserPasswds_filter lines st :
  addUserPasswds (List.filter nonBlank lines) st = addUserPasswds lines st.
Proof.
  revert st. induction lines as [|l lines IH]; intros st; [reflexivity|].
  cbn [List.filter]. unfold nonBlank at 1. case_bool_decide as E; cbn [negb].
  - subst l. cbn [addUserPasswds]. rewrite IH. reflexivity.
  - cbn [addUserPasswds]. destruct (addUserPasswd l st); cbn [bind];
      [apply IH | reflexivity | reflexivity].
Qed.

(** The store after a list of specs: the users that were there and the
    users of the specs. *)
Lemma addUserPasswds_lookup lines st st' :
  addUserPasswds lines st = Ret st' ->
  st' = setUser (user st') st
  /\ forall usr au,
       user st' !! usr = Some au
       <-> user st !! usr = Some au
           \/ exists val, In val lines /\ parseUserPasswd val = (usr, Some au, None).
Proof.
  revert st. induction lines as [|l lines IH]; intros st.
  - intros [= <-]. split; [now destruct st|]. intros usr au. split; [tauto|].
    intros [H|(val & [] & _)]. exact H.
  - cbn [addUserPasswds].
    destruct (addUserPasswd l st) as [st1| |] eqn:E1; cbn [bind]; try discriminate.
    intros E2. destruct (IH _ E2) as [Hst Hlk]. clear IH.
    destruct (addUserPasswd_cases l st)
      as [[-> H]|[(Hne & _ & H)|(usr0 & au0 & Hne & Hp & H)]];
      rewrite H in E1; try discriminate.
    + injection E1 as <-. split; [exact Hst|]. intros usr au.
      rewrite Hlk. split.
      * intros [Hu|(val & Hin & Hv)]; [left; exact Hu|].
        right. exists val. split; [right; exact Hin | exact Hv].
      * intros [Hu|(val & [<-|Hin] & Hv)]; [left; exact Hu| |].
        -- vm_compute in Hv. discriminate Hv.
        -- right. exists val. auto.
    + destruct (user st !! usr0) eqn:Eu; [discriminate|]. injection E1 as <-.
      split; [rewrite Hst; now destruct st|]. intros usr au.
      rewrite Hlk. cbn [setUser user]. rewrite lookup_insert. split.
      * intros [Hu|(val & Hin & Hv)].
        -- case_decide as Ed.
           ++ injection Hu as <-. subst usr0. right. exists l. split; [left; reflexivity | exact Hp].
           ++ left. exact Hu.
        -- right. exists val. split; [right; exact Hin | exact Hv].
      * intros [Hu|(val & [<-|Hin] & Hv)].
        -- left. case_decide as Ed; [congruence | exact Hu].
        -- left. rewrite Hp in Hv. injection Hv as <- <-.
           now rewrite decide_True.
        -- right. exists val. auto.
Qed.

(** X3. The lines of the password file are added in their order, and the
    empty lines play no part; when the file is loaded, the store holds the
    users that it held, with their records, and the users of the lines,
    and nothing else has changed. *)
Theorem loadUserPasswdFile_adds_the_lines open file lines st :
  file <> EmptyString ->
  open file = Some lines ->
  loadUserPasswdFile open file st = addUserPasswds (List.filter nonBlank lines) st
  /\ forall st',
       loadUserPasswdFile open file st = Ret st' ->
       st' = setUser (user st') st
       /\ forall usr au,
            user st' !! usr = Some au
            <-> user st !! usr = Some au
                \/ exists val,
                     In val lines /\ parseUserPasswd val = (usr, Some au, None).
Proof.
  intros Hf Ho. unfold loadUserPasswdFile.
  rewrite bool_decide_eq_false_2 by assumption. rewrite Ho.
  split; [symmetry; apply addUserPasswds_filter|].
  intros st'. apply addUserPasswds_lookup.
Qed.

(** The file of the running example, with its empty line. *)
Lemma loadUserPasswdFile_adds_the_lines_witness :
  loadUserPasswdFile exampleFiles "users.txt" authZero
  = addUserPasswds ["bob:hunter2:8080"] authZero.
Proof.
  apply (loadUserPasswdFile_adds_the_lines exampleFiles "users.txt"
           ["bob:hunter2:8080"; ""] authZero);
    [discriminate | reflexivity].
Defined.

Lemma parseUserPasswd_wellFormed val usr au :
  parseUserPasswd val = (usr, Some au, None) ->
  wellFormedUser usr au /\ ha1 au = EmptyString.
Proof.
  intros Hp. pose proof (parseUserPasswd_dichotomy val) as H. rewrite Hp in H.
  unfold wellFormedUser. tauto.
Qed.

(** What [initAuth] has added to the empty store when it returns. *)
Lemma initAuth_specs config open st :
  initAuth config open authZero = Ret st ->
  exists st2,
    addUserPasswds (configuredSpecs config open) (setUser ∅ authZero) = Ret st2
    /\ user st = user st2.
Proof.
  unfold initAuth, configuredSpecs.
  destruct (negb (bool_decide (UserPasswd config = EmptyString)) || _ || _) eqn:Ec.
  - destruct (addUserPasswd (UserPasswd config) _) as [st1| |] eqn:E1;
      cbn [bind]; try discriminate.
    destruct (loadUserPasswdFile _ _ st1) as [st2| |] eqn:E2; cbn [bind];
      try discriminate.
    destruct (parseAllowedClient _ st2) as [st3| |] eqn:E3; cbn [bind];
      try discriminate.
    destruct (Template.Parse rawTemplate); [|discriminate]. intros [= <-].
    assert (H3 : user st3 = user st2).
    { revert E3. unfold parseAllowedClient.
      destruct (bool_decide (AllowedClient config = EmptyString));
        [intros [= <-]; reflexivity|].
      destruct (parseAllowedEntries _); cbn [bind]; try discriminate.
      intros [= <-]. reflexivity. }
    assert (H1 : exists s1, addUserPasswd (UserPasswd config) (setUser ∅ authZero)
                            = Ret s1 /\ user s1 = user st1).
    { destruct (addUserPasswd_cases (UserPasswd config)
                  (setUser ∅ (setRequired true authZero)))
        as [[Hv H]|[(Hne & _ & H)|(usr0 & au0 & Hne & Hp & H)]];
        rewrite H in E1; try discriminate.
      - rewrite Hv. eexists. split; [reflexivity|]. now injection E1 as <-.
      - rewrite (addUserPasswd_parsed _ _ _ _ Hp). cbn in *.
        rewrite lookup_empty in *. eexists. split; [reflexivity|].
        now injection E1 as <-. }
    destruct H1 as (s1 & Hs1 & Hu1).
    assert (Hlines : forall lines,
               addUserPasswds lines st1 = Ret st2 ->
               exists s2, addUserPasswds lines s1 = Ret s2 /\ user s2 = user st2).
    { clear -Hu1. intros lines. revert s1 st1 Hu1.
      induction lines as [|l lines IH]; intros s1 st1 Hu1.
      - intros [= <-]. eexists. split; [reflexivity | exact Hu1].
      - cbn [addUserPasswds].
        destruct (addUserPasswd_cases l st1)
          as [[-> H]|[(Hne & Hm & H)|(usr0 & au0 & Hne & Hp & H)]]; rewrite H.
        + cbn [bind addUserPasswd]. apply IH, Hu1.
        + discriminate.
        + rewrite (addUserPasswd_parsed _ _ _ s1 Hp).
          replace (user s1 !! usr0) with (user st1 !! usr0) by now rewrite Hu1.
          destruct (user st1 !! usr0); cbn [bind]; [discriminate|].
          apply IH. cbn [setUser user]. now rewrite Hu1. }
    cbn [setTemplate setAuthed user]. rewrite H3.
    cbn [addUserPasswds]. rewrite Hs1. cbn [bind].
    revert E2. unfold loadUserPasswdFile.
    destruct (bool_decide (UserPasswdFile config = EmptyString)).
    + intros [= <-]. exists s1. split; [reflexivity | symmetry; exact Hu1].
    + destruct (open _) as [lines|]; [|discriminate]. cbn [default].
      intros E2. destruct (Hlines _ E2) as (s2 & A & B).
      exists s2. split; [exact A | symmetry; exact B].
  - intros [= <-].
    apply orb_false_iff in Ec as [Ec _]. apply orb_false_iff in Ec as [Eu Ef].
    apply negb_false_iff, bool_decide_eq_true in Eu, Ef.
    rewrite Eu, Ef. rewrite bool_decide_eq_true_2 by reflexivity.
    eexists. split; reflexivity.
Qed.

Lemma initAuth_lookup config open st :
  initAuth config open authZero = Ret st ->
  forall usr au,
    user st !! usr = Some au
    <-> exists val,
          In val (configuredSpecs config open)
          /\ parseUserPasswd val = (usr, Some au, None).
Proof.
  intros Hinit. destruct (initAuth_specs config open st Hinit) as (st2 & Hadd & Hu).
  destruct (addUserPasswds_lookup _ _ _ Hadd) as [_ Hlk].
  intros usr au. rewrite Hu, Hlk. cbn [setUser user]. rewrite lookup_empty.
  split; [intros [H|H]; [discriminate | exact H] | intros H; right; exact H].
Qed.

(** The store that [initAuth] builds is well formed. *)
Lemma initAuth_wellFormed config open st :
  initAuth config open authZero = Ret st -> wellFormedStore st.
Proof.
  intros Hinit usr au H.
  apply (initAuth_lookup config open st Hinit) in H as (val & _ & Hp).
  eapply parseUserPasswd_wellFormed, Hp.
Qed.

(** X4. When [initAuth] returns, the store holds exactly the users of the
    configured specs, the inline one and the lines of the file, each with
    the record that [parseUserPasswd] makes of its spec: a name and a
    password that are not empty and hold no colon, a port up to 65535, no
    digest key yet. No user has the empty name. *)
Theorem initAuth_store_is_the_configuration config open st :
  initAuth config open authZero = Ret st ->
  (forall usr au,
      user st !! usr = Some au
      <-> exists val,
            In val (configuredSpecs config open)
            /\ parseUserPasswd val = (usr, Some au, None))
  /\ wellFormedStore st
  /\ (forall usr au, user st !! usr = Some au -> ha1 au = EmptyString)
  /\ user st !! EmptyString = None.
Proof.
  intros Hinit. pose proof (initAuth_lookup config open st Hinit) as Hiff.
  assert (Hwf : forall usr au, user st !! usr = Some au ->
                               wellFormedUser usr au /\ ha1 au = EmptyString).
  { intros usr au H. apply Hiff in H as (val & _ & Hp).
    eapply parseUserPasswd_wellFormed, Hp. }
  split; [exact Hiff|]. split; [|split].
  - intros usr au H. apply (Hwf usr au H).
  - intros usr au H. apply (Hwf usr au H).
  - destruct (user st !! EmptyString) as [au|] eqn:E; [|reflexivity].
    apply Hwf in E as [(Hne & _) _]. contradiction.
Qed.

(** The two users of the running example. *)
Lemma initAuth_store_is_the_configuration_witness :
  (user exampleState !! "bob" = Some (mkAuthUser "hunter2" "" 8080)
   <-> exists val,
         In val (configuredSpecs exampleConfig exampleFiles)
         /\ parseUserPasswd val = ("bob", Some (mkAuthUser "hunter2" "" 8080), None))
  /\ user exampleState !! "" = None.
Proof.
  destruct (initAuth_store_is_the_configuration exampleConfig exampleFiles
              exampleState) as (H & _ & _ & He); [vm_compute; reflexivity|].
  split; [apply H | exact He].
Defined.

(** * What a request changes *)

Lemma initHA1_fields au usr :
  passwd (initHA1 au usr) = passwd au /\ port (initHA1 au usr) = port au
  /\ (ha1 (initHA1 au usr) = ha1 au
      \/ ha1 au = EmptyString /\ ha1 (initHA1 au usr) = digestKey usr (passwd au)).
Proof.
  unfold initHA1. case_bool_decide as E; cbn; [|tauto].
  split; [reflexivity|]. split; [reflexivity|]. right. split; [exact E | reflexivity].
Qed.

Lemma keyedState_fields st usr :
  required (keyedState st usr) = required st
  /\ allowedClient (keyedState st usr) = allowedClient st
  /\ authed (keyedState st usr) = authed st
  /\ template (keyedState st usr) = template st.
Proof. unfold keyedState. destruct (user st !! usr); repeat split. Qed.

Lemma keyedState_lookup st usr u :
  user (keyedState st usr) !! u
  = if decide (usr = u) then (fun au => initHA1 au usr) <$> user st !! u
    else user st !! u.
Proof.
  unfold keyedState. destruct (user st !! usr) as [au|] eqn:E.
  - cbn [setUser user]. rewrite lookup_insert. case_decide as Ed; [|reflexivity].
    subst u. now rewrite E.
  - case_decide as Ed; [|reflexivity]. subst u. now rewrite E.
Qed.

(** The only write of [authDigest]: the digest key of the user it names. *)
Lemma authDigest_state conn r keyVal now st :
  snd (authDigest conn r keyVal now st) = st
  \/ snd (authDigest conn r keyVal now st)
     = keyedState st (kvGet (parseKeyValueList keyVal) "username").
Proof.
  unfold authDigest, keyedState.
  destruct (size (parseKeyValueList keyVal) =? 0)%nat; [left; reflexivity|].
  destruct (ParseInt16 _); [|left; reflexivity].
  destruct (nonceTooEarly now z); [left; reflexivity|].
  destruct (user st !! _) as [au|] eqn:Eu; [|left; reflexivity].
  destruct (authPort conn _ au); [left; reflexivity|].
  destruct (negb (bool_decide (kvGet _ "qop" = "auth"))); [left; reflexivity|].
  destruct (parseKeyValueList keyVal !! "response"); [|left; reflexivity].
  right. destruct (negb (bool_decide _)); reflexivity.
Qed.

Lemma checkProxyAuthorization_state conn r now st :
  snd (checkProxyAuthorization conn r now st) = st
  \/ exists usr, snd (checkProxyAuthorization conn r now st) = keyedState st usr.
Proof.
  unfold checkProxyAuthorization.
  destruct (SplitN2 (ProxyAuthorization r) " ") as [|scheme [|blob [|? ?]]];
    try (left; reflexivity).
  case_bool_decide as Hd.
  - destruct (authDigest_state conn r blob now st) as [H|H]; [left; exact H|].
    right. eexists. exact H.
  - case_bool_decide; left; reflexivity.
Qed.

(** The errors of the check of the header: the authentication-required
    error, or an error about the header itself. *)
Lemma checkProxyAuthorization_errors conn r now st e :
  fst (checkProxyAuthorization conn r now st) = Some e ->
  e = errAuthRequired \/ (exists msg, e = errorsNew msg)
  \/ e = errorWrap "auth:" CorruptInput \/ e = errorWrap "auth: nonce " NumError.
Proof.
  unfold checkProxyAuthorization.
  destruct (SplitN2 (ProxyAuthorization r) " ") as [|scheme [|blob [|? ?]]];
    cbn [fst]; try (intros [= <-]; right; left; eexists; reflexivity).
  case_bool_decide.
  - unfold authDigest.
    destruct (size (parseKeyValueList blob) =? 0)%nat;
      [intros [= <-]; right; left; eexists; reflexivity|].
    destruct (ParseInt16 _); [|intros [= <-]; tauto].
    destruct (nonceTooEarly now z); [intros [= <-]; tauto|].
    destruct (user st !! _) as [au|]; [|intros [= <-]; tauto].
    destruct (authPort conn _ au) as [e'|] eqn:Ep.
    { unfold authPort in Ep. destruct (port au =? 0); [discriminate|].
      destruct (negb _); [|discriminate]. injection Ep as <-.
      intros [= <-]. tauto. }
    destruct (negb (bool_decide (kvGet _ "qop" = "auth")));
      [intros [= <-]; right; left; eexists; reflexivity|].
    destruct (parseKeyValueList blob !! "response");
      [|intros [= <-]; right; left; eexists; reflexivity].
    destruct (negb (bool_decide _)); [intros [= <-]; tauto | discriminate].
  - case_bool_decide; cbn [fst];
      [|intros [= <-]; right; left; eexists; reflexivity].
    unfold authBasic. destruct (Base64.DecodeString blob); [|intros [= <-]; tauto].
    destruct (Split s ":") as [|usr [|pw [|? ?]]];
      try (intros [= <-]; right; left; eexists; reflexivity).
    destruct (user st !! usr) as [au|]; [|intros [= <-]; tauto].
    destruct (negb _); [intros [= <-]; tauto|].
    unfold authPort. destruct (port au =? 0); [discriminate|].
    destruct (negb _); [intros [= <-]; tauto | discriminate].
Qed.

(** The outcomes of the challenge. *)
Lemma challenge_cases conn now st :
  (template st = None /\ challenge conn now st = Panic nilDeref)
  \/ (exists t, template st = Some t
      /\ ((Template.Execute t [("Nonce", genNonce now)] = None
           /\ challenge conn now st
              = Ret (Some (errorWrap "error generating auth response: " ExecError),
                     st, []))
          \/ (exists bytes,
                Template.Execute t [("Nonce", genNonce now)] = Some bytes
                /\ ((writeFails conn = true
                     /\ challenge conn now st
                        = Ret (Some (errorWrap "send auth response error: " WriteError),
                               st, []))
                    \/ (writeFails conn = false
                        /\ challenge conn now st
                           = Ret (Some errAuthRequired, st, [Written bytes])))))).
Proof.
  unfold challenge. destruct (template st) as [t|]; [|left; split; reflexivity].
  right. exists t. split; [reflexivity|].
  destruct (Template.Execute t _) as [bytes|]; [|left; split; reflexivity].
  right. exists bytes. split; [reflexivity|].
  destruct (writeFails conn); [left | right]; split; reflexivity.
Qed.

Lemma authUserPasswd_cases conn r now st e st1 ev :
  authUserPasswd conn r now st = Ret (e, st1, ev) ->
  (st1 = st \/ exists usr, st1 = keyedState st usr)
  /\ ((e = None /\ ev = [] /\ ProxyAuthorization r <> EmptyString
       /\ checkProxyAuthorization conn r now st = (None, st1))
      \/ (exists e', e = Some e' /\ e' <> errAuthRequired
                     /\ ev = [ErrorPage statusBadReq "Bad authorization request" e']
                     /\ ProxyAuthorization r <> EmptyString
                     /\ checkProxyAuthorization conn r now st = (Some e', st1))
      \/ challenge conn now st1 = Ret (e, st1, ev)).
Proof.
  assert (Hch : forall s e1 s1 ev1,
             challenge conn now s = Ret (e1, s1, ev1) -> s1 = s).
  { intros s e1 s1 ev1. unfold challenge. destruct (template s); [|discriminate].
    destruct (Template.Execute _ _); [|intros [= _ <- _]; reflexivity].
    destruct (writeFails conn); intros [= _ <- _]; reflexivity. }
  unfold authUserPasswd. case_bool_decide as Hh; cbn [negb].
  - intros Hc. pose proof (Hch _ _ _ _ Hc) as ->.
    split; [left; reflexivity|]. right. right. exact Hc.
  - pose proof (checkProxyAuthorization_state conn r now st) as Hs.
    destruct (checkProxyAuthorization conn r now st) as [[e'|] s2]; cbn [snd] in Hs.
    + case_bool_decide as He; cbn [negb].
      * intros Hc. pose proof (Hch _ _ _ _ Hc) as ->.
        split; [exact Hs|]. right. right. exact Hc.
      * intros [= <- <- <-]. split; [exact Hs|]. right. left.
        exists e'. repeat split; assumption.
    + intros [= <- <- <-]. split; [exact Hs|]. left. repeat split; assumption.
Qed.

(** The four ways in which [Authenticate] returns. *)
Lemma Authenticate_cases conn r now st e st' ev :
  Authenticate conn r now st = Ret (e, st', ev) ->
  exists ts,
    authed st = Some ts
    /\ ((has ts (remoteHost conn) now = true /\ e = None /\ st' = st /\ ev = [])
        \/ (has ts (remoteHost conn) now = false
            /\ authIP (remoteHost conn) st = Ret true
            /\ e = None /\ st' = st /\ ev = [])
        \/ (has ts (remoteHost conn) now = false
            /\ authIP (remoteHost conn) st = Ret false
            /\ exists st1,
                 authUserPasswd conn r now st = Ret (e, st1, ev)
                 /\ st' = match e with
                          | None => setAuthed (Some (add ts (remoteHost conn) now)) st1
                          | Some _ => st1
                          end)).
Proof.
  unfold Authenticate. destruct (authed st) as [ts|]; [|discriminate].
  intros H. exists ts. split; [reflexivity|].
  destruct (has ts (remoteHost conn) now).
  - injection H as <- <- <-. left. repeat split.
  - right. destruct (authIP (remoteHost conn) st) as [[|]| |]; cbn [bind] in H;
      try discriminate.
    + injection H as <- <- <-. left. repeat split.
    + right. split; [reflexivity|]. split; [reflexivity|].
      destruct (authUserPasswd conn r now st) as [[[e1 s1] ev1]| |];
        cbn [bind] in H; try discriminate.
      exists s1. destruct e1; injection H as <- <- <-; split; reflexivity.
Qed.

Lemma sameCredentials_keyed st usr : sameCredentials st (keyedState st usr).
Proof.
  intros u. rewrite keyedState_lookup. case_decide as Ed.
  - destruct (user st !! u) as [au|]; cbn; [|exact I].
    destruct (initHA1_fields au usr) as (Hp & Hq & _). now rewrite Hp, Hq.
  - destruct (user st !! u); [split; reflexivity | exact I].
Qed.

Lemma sameCredentials_refl st : sameCredentials st st.
Proof. intros u. destruct (user st !! u); [split; reflexivity | exact I]. Qed.

(** X5. [Authenticate] leaves the configuration alone. When it returns,
    the flag, the allowed clients and the template are as before, the
    store has the same users with the same passwords and ports, and the
    digest key of a user is as before or, if there was none, the key of
    this user and password. The cache is as before when an error is
    returned; on success it is as before or it has got the client
    address. *)
Theorem Authenticate_keeps_configuration conn r now st e st' ev :
  Authenticate conn r now st = Ret (e, st', ev) ->
  required st' = required st
  /\ allowedClient st' = allowedClient st
  /\ template st' = template st
  /\ sameCredentials st st'
  /\ (forall usr a b,
        user st !! usr = Some a -> user st' !! usr = Some b ->
        ha1 b = ha1 a
        \/ ha1 a = EmptyString /\ ha1 b = digestKey usr (passwd a))
  /\ match e with
     | Some _ => authed st' = authed st
     | None =>
         authed st' = authed st
         \/ exists ts,
              authed st = Some ts
              /\ has ts (remoteHost conn) now = false
              /\ authed st' = Some (add ts (remoteHost conn) now)
     end.
Proof.
  intros H.
  assert (Hbase : forall s,
             s = st \/ (exists usr, s = keyedState st usr) ->
             required s = required st /\ allowedClient s = allowedClient st
             /\ template s = template st /\ authed s = authed st
             /\ sameCredentials st s
             /\ (forall usr a b,
                   user st !! usr = Some a -> user s !! usr = Some b ->
                   ha1 b = ha1 a
                   \/ ha1 a = EmptyString /\ ha1 b = digestKey usr (passwd a))).
  { intros s [->|[usr ->]].
    - repeat split; try apply sameCredentials_refl. intros u a b Ha Hb.
      left. congruence.
    - destruct (keyedState_fields st usr) as (H1 & H2 & H3 & H4).
      repeat split; try assumption; try apply sameCredentials_keyed.
      intros u a b Ha Hb. rewrite keyedState_lookup, Ha in Hb.
      case_decide as Ed; cbn in Hb; injection Hb as <-; [|left; reflexivity].
      subst u. apply initHA1_fields. }
  destruct (Authenticate_cases _ _ _ _ _ _ _ H)
    as (ts & Hts & [(Hhas & -> & -> & ->)|[(Hhas & Hip & -> & -> & ->)
                   |(Hhas & Hip & st1 & Hup & ->)]]).
  - destruct (Hbase st (or_introl eq_refl)) as (? & ? & ? & ? & ? & ?).
    repeat split; try assumption. left. reflexivity.
  - destruct (Hbase st (or_introl eq_refl)) as (? & ? & ? & ? & ? & ?).
    repeat split; try assumption. left. reflexivity.
  - destruct (authUserPasswd_cases _ _ _ _ _ _ _ Hup) as [Hs _].
    destruct (Hbase st1 Hs) as (H1 & H2 & H3 & H4 & H5 & H6).
    destruct e as [e|].
    + repeat split; assumption.
    + cbn [setAuthed required allowedClient template user authed].
      repeat split; try assumption.
      right. exists ts. repeat split; assumption.
Qed.

(** A successful digest authentication on the running example: the users
    keep their passwords and the client address enters the cache. *)
Lemma Authenticate_keeps_configuration_witness :
  exists st',
    Authenticate exampleConn exampleRequest soonAfter exampleState
    = Ret (None, st', [])
    /\ allowedClient st' = allowedClient exampleState
    /\ sameCredentials exampleState st'.
Proof.
  eexists. split; [vm_compute; reflexivity|].
  match goal with
  | |- allowedClient ?s = _ /\ _ =>
      destruct (Authenticate_keeps_configuration exampleConn exampleRequest
                  soonAfter exampleState None s [])
        as (_ & H2 & _ & H4 & _); [vm_compute; reflexivity|]
  end.
  split; [exact H2 | exact H4].
Defined.

(** X6. What [Authenticate] leaves on the connection goes with what it
    returns. A success writes nothing. The authentication-required error
    comes with one write, the template with the nonce of the clock. An
    error of the write or of the template comes with nothing written. Any
    other error is an error of the authorization header, which was there,
    and comes with one error page of status 400 that carries it. *)
Theorem Authenticate_writes_by_outcome conn r now st e st' ev :
  Authenticate conn r now st = Ret (e, st', ev) ->
  match e with
  | None => ev = []
  | Some errAuthRequired =>
      writeFails conn = false
      /\ exists t bytes,
           template st = Some t
           /\ Template.Execute t [("Nonce", genNonce now)] = Some bytes
           /\ ev = [Written bytes]
  | Some (errorWrap _ WriteError) => ev = [] /\ writeFails conn = true
  | Some (errorWrap _ ExecError) => ev = []
  | Some e' =>
      ev = [ErrorPage statusBadReq "Bad authorization request" e']
      /\ ProxyAuthorization r <> EmptyString
  end.
Proof.
  intros H.
  destruct (Authenticate_cases _ _ _ _ _ _ _ H)
    as (ts & Hts & [(Hhas & -> & -> & ->)|[(Hhas & Hip & -> & -> & ->)
                   |(Hhas & Hip & st1 & Hup & ->)]]); try reflexivity.
  destruct (authUserPasswd_cases _ _ _ _ _ _ _ Hup) as [Hs Hc].
  assert (Ht : template st1 = template st).
  { destruct Hs as [->|[usr ->]]; [reflexivity | apply keyedState_fields]. }
  destruct Hc as [(-> & -> & _)|[(e' & -> & Hne & -> & Hh & Hchk)|Hch]].
  - reflexivity.
  - pose proof (checkProxyAuthorization_errors conn r now st e') as He.
    rewrite Hchk in He. specialize (He eq_refl).
    destruct He as [->|[[msg ->]|[->| ->]]]; [contradiction| | |];
      split; [reflexivity | exact Hh | reflexivity | exact Hh
              | reflexivity | exact Hh].
  - destruct (challenge_cases conn now st1)
      as [[_ Hp]|(t & Et & [[_ Hx]|(bytes & Eb & [[Hw Hx]|[Hw Hx]])])];
      rewrite Hch in *; try discriminate; injection Hx as -> ->.
    + reflexivity.
    + split; [reflexivity | exact Hw].
    + split; [exact Hw|]. exists t, bytes. rewrite <- Ht. auto.
Qed.

(** The challenge of the running example, and the error page for a header
    without a space. *)
Lemma Authenticate_writes_by_outcome_witness :
  (exists st' ev,
      Authenticate exampleConn plainRequest soonAfter exampleState
      = Ret (Some errAuthRequired, st', ev)
      /\ exists t bytes, template exampleState = Some t /\ ev = [Written bytes])
  /\ exists st' e' ev,
       Authenticate exampleConn (mkRequest "GET" "/" "Digest") soonAfter exampleState
       = Ret (Some e', st', ev)
       /\ ev = [ErrorPage 400 "Bad authorization request" e'].
Proof.
  split.
  - eexists. eexists. split; [vm_compute; reflexivity|].
    match goal with
    | |- exists t bytes, _ /\ ?ev = _ =>
        destruct (Authenticate_writes_by_outcome exampleConn plainRequest soonAfter
                    exampleState (Some errAuthRequired) exampleState ev)
          as (_ & t & bytes & Ht & _ & Hev); [vm_compute; reflexivity|]
    end.
    exists t, bytes. split; [exact Ht | exact Hev].
  - eexists. eexists. eexists. split; [vm_compute; reflexivity|].
    match goal with
    | |- ?ev = [ErrorPage _ _ ?e] =>
        apply (Authenticate_writes_by_outcome exampleConn
                 (mkRequest "GET" "/" "Digest") soonAfter exampleState
                 (Some e) exampleState ev)
    end.
    vm_compute. reflexivity.
Defined.

(** * When the credentials are accepted *)

Lemma authPort_None conn usr au :
  authPort conn usr au = None
  <-> port au = 0 \/ uint16 (localPort conn) = port au.
Proof.
  unfold authPort. destruct (Z.eqb_spec (port au) 0) as [E0|E0]; [tauto|].
  destruct (Z.eqb_spec (uint16 (localPort conn)) (port au)) as [E|E]; cbn [negb].
  - tauto.
  - split; [discriminate | intros [?|?]; contradiction].
Qed.

(** X7. [authBasic] accepts exactly when the blob decodes, the decoded
    text has exactly one colon, the text before it is a user of the store,
    the text after it is the password of this user, and the port of the
    user is 0 or the local port of the connection. *)
Theorem authBasic_accepts_iff conn blob st :
  authBasic conn blob st = None
  <-> exists b64 usr pw au,
        Base64.DecodeString blob = Some b64
        /\ Split b64 ":" = [usr; pw]
        /\ user st !! usr = Some au
        /\ passwd au = pw
        /\ (port au = 0 \/ uint16 (localPort conn) = port au).
Proof.
  unfold authBasic. split.
  - destruct (Base64.DecodeString blob) as [b64|]; [|discriminate].
    destruct (Split b64 ":") as [|usr [|pw [|? ?]]] eqn:Es; try discriminate.
    destruct (user st !! usr) as [au|] eqn:Eu; [|discriminate].
    case_bool_decide as Ep; cbn [negb]; [|discriminate].
    intros Hport. apply authPort_None in Hport.
    exists b64, usr, pw, au. auto 10.
  - intros (b64 & usr & pw & au & -> & -> & -> & Hp & Hport).
    rewrite bool_decide_eq_true_2 by assumption. cbn [negb].
    apply authPort_None, Hport.
Qed.

(** X8. [authDigest] accepts exactly when the nonce is a hexadecimal
    [int64] that is not too early, the user name is in the store, the port
    of the user is 0 or the local port, the qop is auth, and the response
    is there and is the request digest under the digest key of the user.
    Nothing else gets [nil]. *)
Theorem authDigest_accepts_iff conn r keyVal now st :
  let kv := parseKeyValueList keyVal in
  let usr := kvGet kv "username" in
  fst (authDigest conn r keyVal now st) = None
  <-> exists T au response,
        ParseInt16 (kvGet kv "nonce") = Some T
        /\ nonceTooEarly now T = false
        /\ user st !! usr = Some au
        /\ (port au = 0 \/ uint16 (localPort conn) = port au)
        /\ kvGet kv "qop" = "auth"
        /\ kv !! "response" = Some response
        /\ response = calcRequestDigest kv (ha1 (initHA1 au usr)) (Method r).
Proof.
  intros kv usr. split.
  - unfold authDigest. fold kv. fold usr.
    destruct (size kv =? 0)%nat; [discriminate|].
    destruct (ParseInt16 (kvGet kv "nonce")) as [T|]; [|discriminate].
    destruct (nonceTooEarly now T) eqn:Efresh; [discriminate|].
    destruct (user st !! usr) as [au|] eqn:Eu; [|discriminate].
    destruct (authPort conn usr au) eqn:Eport; [discriminate|].
    case_bool_decide as Eq; cbn [negb]; [|discriminate].
    destruct (kv !! "response") as [response|] eqn:Er; [|discriminate].
    case_bool_decide as Ed; cbn [negb]; [|discriminate].
    intros _. exists T, au, response. apply authPort_None in Eport. auto 10.
  - intros (T & au & response & HT & Hfresh & Hu & Hport & Hq & Hr & Hd).
    pose proof (proj2 (authPort_None conn usr au) Hport) as Hport'.
    rewrite (authDigest_compare conn r keyVal now st T au response)
      by assumption.
    cbn [fst]. fold kv. fold usr. now rewrite bool_decide_eq_true_2.
Qed.

(** X9. In a store as [initAuth] builds it, every user can authenticate
    with Basic: for the base64 of the name, a colon and the password,
    [authBasic] answers as [authPort] does, that is [nil] on a port the
    user may use. *)
Theorem authBasic_stored_user conn blob st usr au :
  wellFormedStore st ->
  user st !! usr = Some au ->
  Base64.DecodeString blob = Some (usr +:+ ":" +:+ passwd au) ->
  authBasic conn blob st = authPort conn usr au.
Proof.
  intros Hwf Hu Hdec. destruct (Hwf usr au Hu) as (_ & _ & Hcu & Hcp & _).
  unfold authBasic. rewrite Hdec, (Split_two usr (passwd au) Hcu Hcp), Hu.
  now rewrite bool_decide_eq_true_2.
Qed.

(** alice, on any port, and bob, who is bound to the port 8080, on the
    port 3128. *)
Lemma authBasic_stored_user_witness :
  authBasic exampleConn "YWxpY2U6c2VjcmV0" exampleState = None
  /\ authBasic exampleConn bobBasic exampleState = Some errAuthRequired.
Proof.
  assert (Hwf : wellFormedStore exampleState)
    by (apply (initAuth_wellFormed exampleConfig exampleFiles);
        vm_compute; reflexivity).
  split.
  - rewrite (authBasic_stored_user exampleConn "YWxpY2U6c2VjcmV0" exampleState
               "alice" (mkAuthUser "secret" "" 0) Hwf);
      vm_compute; reflexivity.
  - rewrite (authBasic_stored_user exampleConn bobBasic exampleState
               "bob" (mkAuthUser "hunter2" "" 8080) Hwf);
      vm_compute; reflexivity.
Defined.

(** X10. After [initAuth], [Authenticate] does not stop the process for a
    client whose address is an IP address: with the cache and the template
    set, it returns, whatever the request carries. It never ends in
    [Fatal]. *)
Theorem Authenticate_returns conn r now st ts t :
  authed st = Some ts ->
  template st = Some t ->
  ParseIP (remoteHost conn) <> [] ->
  (exists e st' ev, Authenticate conn r now st = Ret (e, st', ev))
  /\ forall st0 c, Authenticate conn r now st0 <> Fatal c.
Proof.
  assert (Hch : forall s, template s = template st -> template st = Some t ->
                          exists e ev, challenge conn now s = Ret (e, s, ev)).
  { intros s Hs Ht. unfold challenge. rewrite Hs, Ht.
    destruct (Template.Execute t _); [|eauto].
    destruct (writeFails conn); eauto. }
  intros Hts Ht Hip. split.
  - unfold Authenticate. rewrite Hts.
    destruct (has ts (remoteHost conn) now); [eauto|].
    rewrite (authIP_parsed _ _ Hip). cbn [bind].
    destruct (existsb _ _); [eauto|].
    assert (Hup : exists e st1 ev, authUserPasswd conn r now st = Ret (e, st1, ev)).
    { unfold authUserPasswd. case_bool_decide; cbn [negb].
      - destruct (Hch st eq_refl Ht) as (e & ev & H1). eauto.
      - pose proof (checkProxyAuthorization_state conn r now st) as Hs.
        destruct (checkProxyAuthorization conn r now st) as [[e'|] s2];
          cbn [snd] in Hs; [|eauto].
        case_bool_decide; cbn [negb]; [|eauto].
        assert (Hts2 : template s2 = template st).
        { destruct Hs as [->|[usr ->]]; [reflexivity | apply keyedState_fields]. }
        destruct (Hch s2 Hts2 Ht) as (e & ev & H1). eauto. }
    destruct Hup as (e & st1 & ev & ->). cbn [bind]. destruct e; eauto.
  - intros st0 c. unfold Authenticate. destruct (authed st0); [|discriminate].
    destruct (has _ _ now); [discriminate|].
    unfold authIP. destruct (isNil _); [discriminate|]. cbn [bind].
    destruct (existsb _ _); [discriminate|].
    assert (Hc : forall s, challenge conn now s <> Fatal c).
    { intros s. unfold challenge. destruct (template s); [|discriminate].
      destruct (Template.Execute _ _); [|discriminate].
      destruct (writeFails conn); discriminate. }
    unfold authUserPasswd. case_bool_decide; cbn [negb].
    + pose proof (Hc st0). destruct (challenge conn now st0) as [[[? ?] ?]| |];
        cbn [bind]; [destruct o; discriminate | congruence | discriminate].
    + destruct (checkProxyAuthorization conn r now st0) as [[e'|] s2].
      * case_bool_decide; cbn [negb bind]; [|discriminate].
        pose proof (Hc s2). destruct (challenge conn now s2) as [[[? ?] ?]| |];
          cbn [bind]; [destruct o; discriminate | congruence | discriminate].
      * cbn [bind]. discriminate.
Qed.

(** A request with a header that is not an authorization at all. *)
Lemma Authenticate_returns_witness :
  exists e st' ev,
    Authenticate exampleConn (mkRequest "GET" "/" "Bearer abc") soonAfter exampleState
    = Ret (e, st', ev).
Proof.
  eapply (Authenticate_returns exampleConn (mkRequest "GET" "/" "Bearer abc")
            soonAfter exampleState);
    [vm_compute; reflexivity | vm_compute; reflexivity | vm_compute; discriminate].
Defined.

(** * From the challenge to the response *)

Lemma toUnix_Unix u n : validClock u n -> toUnix (Unix u n) = u.
Proof.
  intros (Hn & Hu1 & Hu2). rewrite (Unix_valid u n Hn). unfold toUnix. cbn [sec].
  unfold unixToInternal, minInt64, maxInt64 in *.
  rewrite (wrap64_id (u + 62135596800)) by (unfold minInt64, maxInt64; lia).
  rewrite wrap64_id by (unfold minInt64, maxInt64; lia). lia.
Qed.

Lemma genNonce_parsed u n : validClock u n -> ParseInt16 (genNonce (Unix u n)) = Some u.
Proof.
  intros Hc. unfold genNonce. rewrite (toUnix_Unix u n Hc).
  apply ParseInt16_FormatInt, inInt64_iff.
  destruct Hc as (_ & H1 & H2). unfold unixToInternal in H2. lia.
Qed.

Lemma nonce_checked u n u' n' :
  validClock u n -> validClock u' n' ->
  nonceTooEarly (Unix u' n') u = (Minute <? elapsedSince u' n' u).
Proof.
  intros (_ & H1 & H2) Hc'. apply nonceTooEarly_spec; assumption.
Qed.

(** X11. The nonce that [genNonce] issues when the clock shows the second
    [u] is read back by [authDigest] as [u], and it is found too early
    exactly when the clock has gone more than 60 seconds beyond [u]: it
    serves for the minute after it was issued and no longer. *)
Theorem issued_nonce_serves_one_minute u n u' n' :
  validClock u n -> validClock u' n' ->
  ParseInt16 (genNonce (Unix u n)) = Some u
  /\ (nonceTooEarly (Unix u' n') u = true <-> 60 * 10 ^ 9 < elapsedSince u' n' u)
  /\ (u' - u < 60 -> nonceTooEarly (Unix u' n') u = false)
  /\ (60 < u' - u -> nonceTooEarly (Unix u' n') u = true).
Proof.
  intros Hc Hc'. split; [apply genNonce_parsed, Hc|].
  rewrite (nonce_checked u n u' n' Hc Hc').
  destruct Hc' as (Hn' & _). unfold elapsedSince, Minute, Second.
  split; [apply Z.ltb_lt|]. split; intros H; [apply Z.ltb_ge | apply Z.ltb_lt]; lia.
Qed.

(** The nonce 5f3759df, issued at 1597463007, three seconds and 61 seconds
    later. *)
Lemma issued_nonce_serves_one_minute_witness :
  genNonce (Unix 1597463007 0) = "5f3759df"
  /\ nonceTooEarly soonAfter 1597463007 = false
  /\ nonceTooEarly tooLate 1597463007 = true.
Proof.
  assert (Hc : forall u, 0 <= u <= 2 ^ 40 -> validClock u 0).
  { intros u Hu. unfold validClock, minInt64, maxInt64, unixToInternal. lia. }
  split; [vm_compute; reflexivity|]. split.
  - apply (issued_nonce_serves_one_minute 1597463007 0 1597463010 0);
      [apply Hc; lia | apply Hc; lia | lia].
  - apply (issued_nonce_serves_one_minute 1597463007 0 1597463068 0);
      [apply Hc; lia | apply Hc; lia | lia].
Defined.

(** X12. A client that is neither cached nor allowed, and that answers
    the challenge within the minute, is let in: when its header is Digest
    with the issued nonce, a user of the store on a port the user may use,
    qop=auth and the request digest as response, [Authenticate] returns
    [nil], writes nothing, keeps the digest key of the user and enters the
    client address in the cache. *)
Theorem Authenticate_digest_response conn r keyVal u n u' n' st ts au :
  let kv := parseKeyValueList keyVal in
  let usr := kvGet kv "username" in
  let now' := Unix u' n' in
  validClock u n -> validClock u' n' ->
  authed st = Some ts ->
  has ts (remoteHost conn) now' = false ->
  authIP (remoteHost conn) st = Ret false ->
  ProxyAuthorization r = "Digest " +:+ keyVal ->
  kvGet kv "nonce" = genNonce (Unix u n) ->
  elapsedSince u' n' u <= 60 * 10 ^ 9 ->
  user st !! usr = Some au ->
  port au = 0 \/ uint16 (localPort conn) = port au ->
  kvGet kv "qop" = "auth" ->
  kv !! "response" = Some (calcRequestDigest kv (ha1 (initHA1 au usr)) (Method r)) ->
  Authenticate conn r now' st
  = Ret (None,
         setAuthed (Some (add ts (remoteHost conn) now')) (keyedState st usr),
         []).
Proof.
  intros kv usr now' Hc Hc' Hts Hhas Hip Hh Hnonce Hel Hu Hport Hq Hr.
  assert (HT : ParseInt16 (kvGet kv "nonce") = Some u)
    by (rewrite Hnonce; apply genNonce_parsed, Hc).
  assert (Hfresh : nonceTooEarly now' u = false).
  { unfold now'. rewrite (nonce_checked u n u' n' Hc Hc').
    apply Z.ltb_ge. unfold Minute, Second. lia. }
  pose proof (proj2 (authPort_None conn usr au) Hport) as Hport'.
  pose proof (authDigest_compare conn r keyVal now' st u au _ HT Hfresh Hu Hport' Hq Hr)
    as Hd.
  fold kv in Hd. fold usr in Hd. cbv zeta in Hd.
  rewrite bool_decide_eq_true_2 in Hd by reflexivity.
  unfold Authenticate. rewrite Hts, Hhas, Hip. cbn [bind].
  unfold authUserPasswd. rewrite Hh.
  rewrite bool_decide_eq_false_2 by discriminate. cbn [negb].
  unfold checkProxyAuthorization. rewrite Hh.
  change (SplitN2 ("Digest " +:+ keyVal) " ") with ["Digest"; keyVal].
  cbv beta iota.
  change (ToLower (TrimSpace "Digest")) with "digest".
  rewrite bool_decide_eq_true_2 by reflexivity.
  rewrite Hd. cbn [bind]. unfold keyedState. rewrite Hu. reflexivity.
Qed.

(** The request of the running example, three seconds after its nonce. *)
Lemma Authenticate_digest_response_witness :
  exists st',
    Authenticate exampleConn exampleRequest soonAfter exampleState
    = Ret (None, st', [])
    /\ authed st'
       = Some (add (NewTimeoutSet 7200000000000) "203.0.113.9" soonAfter).
Proof.
  eexists. split.
  - apply (Authenticate_digest_response exampleConn exampleRequest exampleDigest
             1597463007 0 1597463010 0 exampleState
             (NewTimeoutSet 7200000000000) (mkAuthUser "secret" "" 0));
      try (vm_compute; reflexivity).
    + unfold validClock, minInt64, maxInt64, unixToInternal. lia.
    + unfold validClock, minInt64, maxInt64, unixToInternal. lia.
    + vm_compute. discriminate.
    + left. reflexivity.
  - reflexivity.
Defined.

(** * More on the allowed clients *)

Lemma andBytes_length a b : length (andBytes a b) = Nat.min (length a) (length b).
Proof.
  revert b. induction a as [|x a IH]; intros [|y b]; cbn; try reflexivity.
  now rewrite IH.
Qed.

Lemma andBytes_idem a b : andBytes (andBytes a b) b = andBytes a b.
Proof.
  revert b. induction a as [|x a IH]; intros [|y b]; cbn; try reflexivity.
  rewrite IH. f_equal. rewrite <- Z.land_assoc, Z.land_diag. reflexivity.
Qed.

Lemma Mask_same x m : length x = length m -> Mask x m = andBytes x m.
Proof.
  intros Hl. unfold Mask, IPv4len, IPv6len. rewrite Hl.
  assert (A : ((length m =? 16) && (length m =? 4))%nat = false).
  { destruct (Nat.eqb_spec (length m) 16) as [E|E]; [|reflexivity].
    rewrite E. reflexivity. }
  assert (B : ((length m =? 4) && (length m =? 16))%nat = false)
    by (rewrite andb_comm; exact A).
  rewrite A. cbn [andb]. rewrite B. cbn [andb].
  rewrite Hl, Nat.eqb_refl. reflexivity.
Qed.

Lemma Mask_nil m : Mask [] m = [].
Proof.
  unfold Mask, IPv4len, IPv6len. cbn [length Nat.eqb andb].
  rewrite !andb_false_r. cbn [andb].
  destruct m; reflexivity.
Qed.

(** The four ways in which [ip.Mask] computes. *)
Lemma Mask_cases x m :
  (length m = 16%nat /\ length x = 4%nat /\ allFF (firstn 12 m) = true
   /\ Mask x m = andBytes x (skipn 12 m))
  \/ (length m = 4%nat /\ length x = 16%nat
      /\ Mask x m = andBytes (skipn 12 x) m)
  \/ (length x = length m /\ Mask x m = andBytes x m)
  \/ Mask x m = [].
Proof.
  unfold Mask, IPv4len, IPv6len.
  destruct ((length m =? 16)%nat && (length x =? 4)%nat && allFF (firstn 12 m))
    eqn:E1.
  - apply andb_true_iff in E1 as [E1 Ef]. apply andb_true_iff in E1 as [E16 E4].
    apply Nat.eqb_eq in E16, E4.
    destruct ((length (skipn 12 m) =? 4)%nat && (length x =? 16)%nat
              && bytesEqual (firstn 12 x) v4InV6Prefix) eqn:E2.
    + apply andb_true_iff in E2 as [E2 _]. apply andb_true_iff in E2 as [_ E6].
      apply Nat.eqb_eq in E6. lia.
    + destruct (length x =? length (skipn 12 m))%nat; [|tauto].
      left. auto.
  - destruct ((length m =? 4)%nat && (length x =? 16)%nat
              && bytesEqual (firstn 12 x) v4InV6Prefix) eqn:E2.
    + apply andb_true_iff in E2 as [E2 _]. apply andb_true_iff in E2 as [E4 E6].
      apply Nat.eqb_eq in E4, E6.
      destruct (length (skipn 12 x) =? length m)%nat; [|tauto].
      right. left. auto.
    + destruct (Nat.eqb_spec (length x) (length m)) as [El|El]; [|tauto].
      right. right. left. auto.
Qed.

Lemma Mask_v6mask x m :
  length m = 16%nat -> length x = 4%nat -> allFF (firstn 12 m) = true ->
  Mask x m = andBytes x (skipn 12 m).
Proof.
  intros E16 E4 Ef. unfold Mask, IPv4len, IPv6len.
  rewrite E16, E4, Ef. cbn [Nat.eqb andb].
  rewrite length_skipn, E16. cbn [Nat.sub Nat.eqb andb]. rewrite E4. reflexivity.
Qed.

(** Masking twice is masking once. *)
Lemma Mask_idempotent x m : Mask (Mask x m) m = Mask x m.
Proof.
  destruct (Mask_cases x m)
    as [(E16 & E4 & Ef & ->)|[(E4 & E16 & ->)|[(El & ->)| ->]]].
  - rewrite Mask_v6mask; [apply andBytes_idem | exact E16 | | exact Ef].
    rewrite andBytes_length, length_skipn, E16, E4. reflexivity.
  - rewrite Mask_same; [apply andBytes_idem|].
    rewrite andBytes_length, length_skipn, E16, E4. reflexivity.
  - rewrite Mask_same; [apply andBytes_idem|].
    rewrite andBytes_length, El. apply Nat.min_id.
  - apply Mask_nil.
Qed.

Lemma Equal_refl x : Equal x x = true.
Proof.
  unfold Equal. rewrite Nat.eqb_refl. unfold bytesEqual.
  now rewrite bool_decide_eq_true_2.
Qed.

(** The rule that an entry gives. *)
Lemma parseAllowedEntry_rule v na :
  parseAllowedEntry v = Ret na ->
  exists m,
    na = mkNetAddr
           (Mask (ParseIP (nth 0 (Split (TrimSpace v) "/") EmptyString)) m) m
    /\ ParseIP (nth 0 (Split (TrimSpace v) "/") EmptyString) <> [].
Proof.
  unfold parseAllowedEntry.
  destruct (2 <? length (Split (TrimSpace v) "/"))%nat; [discriminate|].
  destruct (ParseIP (nth 0 (Split (TrimSpace v) "/") EmptyString)) as [|b bs] eqn:E;
    [discriminate|]. cbn [isNil].
  destruct (length (Split (TrimSpace v) "/") =? 2)%nat.
  - destruct (Atoi _) as [nbit|]; [|discriminate].
    destruct (32 <? nbit); [discriminate|].
    intros [= <-]. eexists. split; [reflexivity | discriminate].
  - intros [= <-]. eexists. split; [reflexivity | discriminate].
Qed.

(** X13. The rule of an allowed-client entry keeps its base address
    masked: the base is its own image under the mask of the rule. The
    address that the entry names is itself allowed by any list that holds
    the rule. *)
Theorem allowed_entry_rule v na :
  parseAllowedEntry v = Ret na ->
  Mask (ip na) (mask na) = ip na
  /\ forall st clientIP,
       In na (allowedClient st) ->
       ParseIP clientIP = ParseIP (nth 0 (Split (TrimSpace v) "/") EmptyString) ->
       authIP clientIP st = Ret true.
Proof.
  intros Hp. destruct (parseAllowedEntry_rule v na Hp) as (m & -> & Hne).
  cbn [ip mask]. split; [apply Mask_idempotent|].
  intros st clientIP Hin Hc. rewrite authIP_parsed by (rewrite Hc; exact Hne).
  f_equal. apply existsb_exists. eexists. split; [exact Hin|].
  cbn [ip mask]. rewrite Hc. apply Equal_refl.
Qed.

(** The entry 10.0.0.0/8 of the running example and the client
    10.0.0.0. *)
Lemma allowed_entry_rule_witness :
  Mask [10; 0; 0; 0] [255; 0; 0; 0] = [10; 0; 0; 0]
  /\ authIP "10.0.0.0" exampleState = Ret true.
Proof.
  destruct (allowed_entry_rule "10.0.0.0/8"
              (mkNetAddr [10; 0; 0; 0] [255; 0; 0; 0])) as [H1 H2];
    [vm_compute; reflexivity|].
  split; [exact H1|]. apply H2; [|reflexivity]. vm_compute. left. reflexivity.
Defined.

Lemma parseAllowedEntries_rules arr l :
  parseAllowedEntries arr = Ret l ->
  Forall2 (fun v na => parseAllowedEntry v = Ret na) arr l.
Proof.
  revert l. induction arr as [|v arr IH]; intros l.
  - intros [= <-]. constructor.
  - cbn [parseAllowedEntries].
    destruct (parseAllowedEntry v) as [na| |] eqn:E; cbn [bind]; try discriminate.
    destruct (parseAllowedEntries arr) as [more| |]; cbn [bind]; try discriminate.
    intros [= <-]. constructor; [exact E | apply IH; reflexivity].
Qed.

Lemma parseAllowedEntry_no_panic v msg : parseAllowedEntry v <> Panic msg.
Proof.
  unfold parseAllowedEntry.
  destruct (2 <? _)%nat; [discriminate|]. destruct (isNil _); [discriminate|].
  destruct (_ =? 2)%nat; [|discriminate].
  destruct (Atoi _); [|discriminate]. destruct (32 <? _); discriminate.
Qed.

Lemma parseAllowedEntries_stops arr :
  match parseAllowedEntries arr with
  | Ret _ => True
  | Fatal c => exists v, In v arr /\ parseAllowedEntry v = Fatal c
  | Panic _ => False
  end.
Proof.
  induction arr as [|v arr IH]; [exact I|]. cbn [parseAllowedEntries].
  destruct (parseAllowedEntry v) as [na|c|msg] eqn:E; cbn [bind].
  - destruct (parseAllowedEntries arr) as [more|c|msg]; cbn [bind]; [exact I| |exact IH].
    destruct IH as (w & Hin & Hw). exists w. split; [right; exact Hin | exact Hw].
  - exists v. split; [left; reflexivity | exact E].
  - exact (parseAllowedEntry_no_panic v msg E).
Qed.

(** X14. [parseAllowedClient] replaces the allowed clients: the empty
    value changes nothing; for another value that it accepts, the list is
    made anew of one rule for each entry between commas, in their order,
    each with its base address masked, and nothing else is changed. When
    it stops, it is with the [Fatal] of one of the entries, never a
    panic. *)
Theorem parseAllowedClient_rules val st :
  (val = EmptyString -> parseAllowedClient val st = Ret st)
  /\ (forall st',
        val <> EmptyString -> parseAllowedClient val st = Ret st' ->
        st' = setAllowedClient (allowedClient st') st
        /\ Forall2 (fun v na => parseAllowedEntry v = Ret na)
             (Split val ",") (allowedClient st')
        /\ Forall (fun na => Mask (ip na) (mask na) = ip na) (allowedClient st'))
  /\ (forall c,
        parseAllowedClient val st = Fatal c ->
        exists v, In v (Split val ",") /\ parseAllowedEntry v = Fatal c)
  /\ (forall msg, parseAllowedClient val st <> Panic msg).
Proof.
  unfold parseAllowedClient. split; [|split; [|split]].
  - intros ->. reflexivity.
  - intros st' Hne. rewrite bool_decide_eq_false_2 by assumption.
    destruct (parseAllowedEntries (Split val ",")) as [l| |] eqn:E; cbn [bind];
      try discriminate.
    intros [= <-]. cbn [setAllowedClient allowedClient].
    pose proof (parseAllowedEntries_rules _ _ E) as Hr.
    split; [reflexivity|]. split; [exact Hr|].
    clear E. induction Hr as [|v na arr l Hv _ IH]; [apply Forall_nil_2|].
    apply Forall_cons_2; [|exact IH].
    destruct (parseAllowedEntry_rule v na Hv) as (m & -> & _).
    apply Mask_idempotent.
  - intros c. case_bool_decide; [discriminate|].
    pose proof (parseAllowedEntries_stops (Split val ",")) as Hs.
    destruct (parseAllowedEntries (Split val ",")); cbn [bind]; try discriminate.
    intros [= <-]. exact Hs.
  - intros msg. case_bool_decide; [discriminate|].
    pose proof (parseAllowedEntries_stops (Split val ",")) as Hs.
    destruct (parseAllowedEntries (Split val ",")); cbn [bind];
      [discriminate | discriminate | contradiction].
Qed.

(** The two entries of the running example, and a prefix length that is
    too long. *)
Lemma parseAllowedClient_rules_witness :
  (exists st',
      parseAllowedClient "10.0.0.0/8, 192.168.1.5" authZero = Ret st'
      /\ allowedClient st'
         = [mkNetAddr [10; 0; 0; 0] [255; 0; 0; 0];
            mkNetAddr [192; 168; 1; 5] [255; 255; 255; 255]]
      /\ Forall (fun na => Mask (ip na) (mask na) = ip na) (allowedClient st'))
  /\ exists v,
       In v (Split "10.0.0.0/8,10.0.0.0/33" ",")
       /\ parseAllowedEntry v = Fatal FatalClientMask.
Proof.
  destruct (parseAllowedClient_rules "10.0.0.0/8, 192.168.1.5" authZero)
    as (_ & H & _).
  destruct (parseAllowedClient_rules "10.0.0.0/8,10.0.0.0/33" authZero)
    as (_ & _ & F & _).
  split.
  - eexists. split; [vm_compute; reflexivity|]. split; [reflexivity|].
    eapply H; [discriminate | vm_compute; reflexivity].
  - apply F. vm_compute. reflexivity.
Defined.

Lemma existsb_Permutation {A} (f : A -> bool) l l' :
  Permutation l l' -> existsb f l = existsb f l'.
Proof.
  induction 1 as [|x l l' _ IH|x y l|l l' l'' _ IH1 _ IH2]; cbn.
  - reflexivity.
  - now rewrite IH.
  - destruct (f x), (f y); reflexivity.
  - now rewrite IH1.
Qed.

(** X15. The order of the allowed clients does not matter, and a longer
    list allows what its parts allow: [authIP] gives the same answer for
    two lists that are permutations of each other, and for a list made of
    two parts it says yes exactly when it does for one of the parts. *)
Theorem authIP_order_irrelevant clientIP st l l' l1 l2 :
  Permutation l l' ->
  authIP clientIP (setAllowedClient l st) = authIP clientIP (setAllowedClient l' st)
  /\ (authIP clientIP (setAllowedClient (l1 ++ l2) st) = Ret true
      <-> authIP clientIP (setAllowedClient l1 st) = Ret true
          \/ authIP clientIP (setAllowedClient l2 st) = Ret true).
Proof.
  intros Hp. unfold authIP. cbn [setAllowedClient allowedClient]. split.
  - destruct (isNil (ParseIP clientIP)); [reflexivity|].
    f_equal. apply existsb_Permutation, Hp.
  - destruct (isNil (ParseIP clientIP)).
    + split; [discriminate | intros [?|?]; discriminate].
    + rewrite existsb_app. split.
      * intros [= H]. apply orb_true_iff in H as [H|H]; rewrite H; auto.
      * intros [[= ->]|[= ->]]; [reflexivity | now rewrite orb_true_r].
Qed.

(** The two rules of the running example, in the other order. *)
Lemma authIP_order_irrelevant_witness :
  authIP "10.1.2.3"
    (setAllowedClient [mkNetAddr [192; 168; 1; 5] [255; 255; 255; 255];
                       mkNetAddr [10; 0; 0; 0] [255; 0; 0; 0]] exampleState)
  = authIP "10.1.2.3" exampleState.
Proof.
  apply (authIP_order_irrelevant "10.1.2.3" exampleState
           [mkNetAddr [192; 168; 1; 5] [255; 255; 255; 255];
            mkNetAddr [10; 0; 0; 0] [255; 0; 0; 0]]
           [mkNetAddr [10; 0; 0; 0] [255; 0; 0; 0];
            mkNetAddr [192; 168; 1; 5] [255; 255; 255; 255]] [] []).
  apply perm_swap.
Defined.

Lemma addUserPasswd_frame val st st' :
  addUserPasswd val st = Ret st' -> st' = setUser (user st') st.
Proof.
  intros Hadd.
  destruct (addUserPasswd_cases val st)
    as [[_ H]|[(_ & _ & H)|(usr & au & _ & _ & H)]];
    rewrite H in Hadd; try discriminate.
  - injection Hadd as <-. now destruct st.
  - destruct (user st !! usr); [discriminate|]. injection Hadd as <-. reflexivity.
Qed.

Lemma loadUserPasswdFile_frame open file st st' :
  loadUserPasswdFile open file st = Ret st' -> st' = setUser (user st') st.
Proof.
  unfold loadUserPasswdFile. destruct (bool_decide (file = EmptyString)).
  - intros [= <-]. now destruct st.
  - destruct (open file); [|discriminate].
    intros H. apply addUserPasswds_lookup in H. apply H.
Qed.

Lemma parseAllowedClient_frame val st st' :
  parseAllowedClient val st = Ret st' ->
  st' = setAllowedClient (allowedClient st') st
  /\ (val = EmptyString -> st' = st).
Proof.
  unfold parseAllowedClient. case_bool_decide as E.
  - intros [= <-]. split; [now destruct st | reflexivity].
  - destruct (parseAllowedEntries _); cbn [bind]; try discriminate.
    intros [= <-]. split; [reflexivity | contradiction].
Qed.

(** X16. [initAuth] requires authentication exactly when a user spec, a
    password file or an allowed client is configured. With none of them it
    returns the state as it was, not required, the cache and the template
    not set. Otherwise, when it returns, the flag is set, the cache is new
    and empty with the configured window in hours, the template is the
    parsed 407 response, and without allowed clients in the configuration
    the list of rules is empty. *)
Theorem initAuth_requires_when_configured config open st :
  initAuth config open authZero = Ret st ->
  (required st = true
   <-> UserPasswd config <> EmptyString \/ UserPasswdFile config <> EmptyString
       \/ AllowedClient config <> EmptyString)
  /\ (required st = false -> st = authZero)
  /\ (required st = true ->
      authed st = Some (NewTimeoutSet (wrap64 (AuthTimeout config * Hour)))
      /\ template st = Template.Parse rawTemplate
      /\ template st <> None
      /\ (AllowedClient config = EmptyString -> allowedClient st = [])).
Proof.
  assert (Hcond : negb (bool_decide (UserPasswd config = EmptyString))
                  || negb (bool_decide (UserPasswdFile config = EmptyString))
                  || negb (bool_decide (AllowedClient config = EmptyString)) = true
                  <-> UserPasswd config <> EmptyString
                      \/ UserPasswdFile config <> EmptyString
                      \/ AllowedClient config <> EmptyString).
  { rewrite !orb_true_iff, !negb_true_iff, !bool_decide_eq_false. tauto. }
  unfold initAuth.
  destruct (negb (bool_decide (UserPasswd config = EmptyString)) || _ || _).
  - destruct (addUserPasswd _ _) as [st1| |] eqn:E1; cbn [bind]; try discriminate.
    destruct (loadUserPasswdFile _ _ st1) as [st2| |] eqn:E2; cbn [bind];
      try discriminate.
    destruct (parseAllowedClient _ st2) as [st3| |] eqn:E3; cbn [bind];
      try discriminate.
    destruct (Template.Parse rawTemplate) as [t|]; [|discriminate]. intros [= <-].
    apply addUserPasswd_frame in E1. apply loadUserPasswdFile_frame in E2.
    apply parseAllowedClient_frame in E3 as [E3 E3'].
    assert (Hreq : required st3 = true) by (rewrite E3, E2, E1; reflexivity).
    cbn [setTemplate setAuthed required authed template allowedClient].
    split; [rewrite Hreq; tauto|]. split; [rewrite Hreq; discriminate|].
    intros _. split; [reflexivity|]. split; [reflexivity|].
    split; [discriminate|].
    intros Ha. rewrite (E3' Ha), E2, E1. reflexivity.
  - intros [= <-]. cbn. split; [|split]; [|reflexivity|discriminate].
    split; [discriminate|]. intros H. apply Hcond in H. discriminate H.
Qed.

(** The running example, and the empty configuration. *)
Lemma initAuth_requires_when_configured_witness :
  required exampleState = true
  /\ authed exampleState = Some (NewTimeoutSet (2 * Hour))
  /\ initAuth (mkConfig "" "" "" 2) exampleFiles authZero = Ret authZero.
Proof.
  destruct (initAuth_requires_when_configured exampleConfig exampleFiles
              exampleState) as (H1 & _ & H3); [vm_compute; reflexivity|].
  assert (Hr : required exampleState = true)
    by (apply H1; left; discriminate).
  split; [exact Hr|]. split; [apply (H3 Hr)|]. reflexivity.
Defined.

(** * The digest keys over a run *)

Lemma stringOf_length l : String.length (stringOf l) = length l.
Proof.
  unfold stringOf. induction l as [|x l IH]; [reflexivity|].
  cbn. now rewrite IH.
Qed.

Lemma hexBytes_length l : length (flat_map MD5.hexByte l) = (2 * length l)%nat.
Proof.
  induction l as [|x l IH]; [reflexivity|]. cbn [flat_map].
  rewrite length_app, IH. cbn. lia.
Qed.

Lemma MD5_sum_length msg : length (MD5.sum msg) = 16%nat.
Proof.
  unfold MD5.sum. destruct (MD5.blocks _ _ _) as [a b c d].
  rewrite !length_app. unfold MD5.bytesLE.
  rewrite !List.length_map, !List.length_seq. reflexivity.
Qed.

(** The digest has 32 characters. *)
Lemma md5sum_length s : String.length (md5sum s) = 32%nat.
Proof.
  unfold md5sum. now rewrite stringOf_length, hexBytes_length, MD5_sum_length.
Qed.

Lemma initHA1_nonempty au usr : ha1 (initHA1 au usr) <> EmptyString.
Proof.
  unfold initHA1. case_bool_decide as E; [|exact E]. cbn [ha1].
  intros H. pose proof (md5sum_length (usr +:+ ":" +:+ authRealm +:+ ":" +:+ passwd au)) as Hl.
  rewrite H in Hl. discriminate Hl.
Qed.

(** X17. The digest key is computed once: after [initHA1] the record has
    a key, of 32 characters when there was none before, and a further
    [initHA1], under whatever user name, leaves the record as it is. *)
Theorem digest_key_computed_once au usr usr' :
  initHA1 (initHA1 au usr) usr' = initHA1 au usr
  /\ ha1 (initHA1 au usr) <> EmptyString
  /\ (ha1 au <> EmptyString -> initHA1 au usr = au)
  /\ (ha1 au = EmptyString -> String.length (ha1 (initHA1 au usr)) = 32%nat).
Proof.
  pose proof (initHA1_nonempty au usr) as Hne.
  split; [|split; [exact Hne|split]].
  - unfold initHA1 at 1. now rewrite bool_decide_eq_false_2.
  - intros H. unfold initHA1. now rewrite bool_decide_eq_false_2.
  - intros H. unfold initHA1. rewrite bool_decide_eq_true_2 by assumption.
    apply md5sum_length.
Qed.

(** The record of alice, before and after her first digest
    authentication. *)
Lemma digest_key_computed_once_witness :
  initHA1 (mkAuthUser "secret" "a800e5adfb20f5bea44fd0b4f2c0507c" 0) "alice"
  = mkAuthUser "secret" "a800e5adfb20f5bea44fd0b4f2c0507c" 0
  /\ String.length (ha1 (initHA1 (mkAuthUser "secret" "" 0) "alice")) = 32%nat.
Proof.
  split.
  - apply (digest_key_computed_once
             (mkAuthUser "secret" "a800e5adfb20f5bea44fd0b4f2c0507c" 0)
             "alice" "alice"). discriminate.
  - apply (digest_key_computed_once (mkAuthUser "secret" "" 0) "alice" "alice").
    reflexivity.
Defined.

Lemma sameCredentials_trans a b c :
  sameCredentials a b -> sameCredentials b c -> sameCredentials a c.
Proof.
  intros H1 H2 u. specialize (H1 u). specialize (H2 u).
  destruct (user a !! u), (user b !! u), (user c !! u); try tauto.
  destruct H1, H2. split; congruence.
Qed.

Lemma wellFormedStore_same a b :
  sameCredentials a b -> wellFormedStore a -> wellFormedStore b.
Proof.
  intros Hs Hw u bu Hb. specialize (Hs u). rewrite Hb in Hs.
  destruct (user a !! u) as [au|] eqn:Ea; [|contradiction].
  destruct Hs as [Hp Hq]. specialize (Hw u au Ea).
  unfold wellFormedUser in *. rewrite <- Hp, <- Hq. exact Hw.
Qed.

(** What one call of [Authenticate] may change. *)
Lemma Authenticate_frame conn r now st e st' ev :
  Authenticate conn r now st = Ret (e, st', ev) ->
  required st' = required st /\ allowedClient st' = allowedClient st
  /\ template st' = template st /\ sameCredentials st st'
  /\ authed st <> None /\ authed st' <> None.
Proof.
  intros H.
  assert (Hbase : forall s,
             s = st \/ (exists usr, s = keyedState st usr) ->
             required s = required st /\ allowedClient s = allowedClient st
             /\ template s = template st /\ authed s = authed st
             /\ sameCredentials st s).
  { intros s [->|[usr ->]].
    - repeat split. apply sameCredentials_refl.
    - destruct (keyedState_fields st usr) as (H1 & H2 & H3 & H4).
      repeat split; try assumption. apply sameCredentials_keyed. }
  destruct (Authenticate_cases _ _ _ _ _ _ _ H)
    as (ts & Hts & [(Hhas & -> & -> & ->)|[(Hhas & Hip & -> & -> & ->)
                   |(Hhas & Hip & st1 & Hup & ->)]]).
  - repeat split; try apply sameCredentials_refl; rewrite Hts; discriminate.
  - repeat split; try apply sameCredentials_refl; rewrite Hts; discriminate.
  - destruct (authUserPasswd_cases _ _ _ _ _ _ _ Hup) as [Hs _].
    destruct (Hbase st1 Hs) as (H1 & H2 & H3 & H4 & H5).
    destruct e as [e|];
      cbn [setAuthed required allowedClient template user authed];
      repeat split; try assumption; try (rewrite Hts; discriminate);
      try discriminate.
    rewrite H4, Hts. discriminate.
Qed.

(** X18. Over a whole run the configuration stands. In every state
    reached from [initAuth] by calls of [Authenticate], the flag, the
    allowed clients and the template are those that [initAuth] set, the
    users are those of the configuration with their passwords and ports,
    well formed, every digest key that is set is the key of its user and
    password, and when authentication is required the cache and the
    template are set, so that [Authenticate] can be called again. *)
Theorem reachable_invariant config open st :
  reachable config open st ->
  exists st0,
    initAuth config open authZero = Ret st0
    /\ required st = required st0
    /\ allowedClient st = allowedClient st0
    /\ template st = template st0
    /\ sameCredentials st0 st
    /\ wellFormedStore st
    /\ keysConsistent st
    /\ (required st = true -> authed st <> None /\ template st <> None).
Proof.
  induction 1 as [st Hinit|st conn r now e st' ev _ IH Hauth].
  - exists st. split; [exact Hinit|].
    split; [reflexivity|]. split; [reflexivity|]. split; [reflexivity|].
    split; [apply sameCredentials_refl|].
    split; [apply (initAuth_wellFormed config open st Hinit)|].
    split; [apply (initAuth_consistent config open st Hinit)|].
    revert Hinit. unfold initAuth. destruct (_ || _ || _).
    + destruct (addUserPasswd _ _); cbn [bind]; try discriminate.
      destruct (loadUserPasswdFile _ _ _); cbn [bind]; try discriminate.
      destruct (parseAllowedClient _ _); cbn [bind]; try discriminate.
      destruct (Template.Parse rawTemplate); [|discriminate].
      intros [= <-] _. split; discriminate.
    + intros [= <-]. discriminate.
  - destruct IH as (st0 & Hinit & Hr & Ha & Ht & Hs & Hw & Hk & Hset).
    destruct (Authenticate_frame _ _ _ _ _ _ _ Hauth)
      as (Fr & Fa & Ft & Fs & Fc & Fc').
    exists st0. split; [exact Hinit|].
    split; [congruence|]. split; [congruence|]. split; [congruence|].
    split; [eapply sameCredentials_trans; eassumption|].
    split; [eapply wellFormedStore_same; eassumption|].
    split; [eapply Authenticate_consistent; eassumption|].
    intros Hreq. split; [exact Fc'|]. rewrite Ft. apply Hset. congruence.
Qed.

(** The running example after a digest authentication. *)
Lemma reachable_invariant_witness :
  exists st1,
    Authenticate exampleConn exampleRequest soonAfter exampleState
    = Ret (None, st1, [])
    /\ keysConsistent st1 /\ sameCredentials exampleState st1.
Proof.
  assert (Hx : initAuth exampleConfig exampleFiles authZero = Ret exampleState)
    by (vm_compute; reflexivity).
  pose proof (reach_init exampleConfig exampleFiles exampleState Hx) as H0.
  eexists. split; [vm_compute; reflexivity|].
  match goal with
  | |- keysConsistent ?s /\ _ =>
      assert (H1 : Authenticate exampleConn exampleRequest soonAfter exampleState
                   = Ret (None, s, [])) by (vm_compute; reflexivity);
      pose proof (reach_step exampleConfig exampleFiles exampleState exampleConn
                    exampleRequest soonAfter None s [] H0 H1) as H2;
      destruct (reachable_invariant exampleConfig exampleFiles s H2)
        as (st0 & Hinit & _ & _ & _ & Hs & _ & Hk & _)
  end.
  split; [exact Hk|].
  assert (E : st0 = exampleState) by congruence.
  rewrite <- E. exact Hs.
Defined.

(** * The authorization header and the cache *)

Lemma SplitN2_first s blob :
  containsByte s " " = false -> SplitN2 (s +:+ String " " blob) " " = [s; blob].
Proof.
  induction s as [|c s IH]; intros H.
  - reflexivity.
  - cbn in H. apply orb_false_iff in H as [Hc Hs].
    rewrite append_cons. cbn [SplitN2]. rewrite Hc, (IH Hs). reflexivity.
Qed.

Lemma SplitN2_none s : containsByte s " " = false -> SplitN2 s " " = [s].
Proof.
  induction s as [|c s IH]; intros H; [reflexivity|].
  cbn in H. apply orb_false_iff in H as [Hc Hs].
  cbn [SplitN2]. rewrite Hc, (IH Hs). reflexivity.
Qed.

(** X19. The authorization header is cut at its first space only. A
    header without a space is malformed, whatever it holds. Otherwise the
    word before the first space, trimmed and in lower case, selects the
    method, and everything after that space, spaces included, is handed to
    it: digest to [authDigest], basic to [authBasic], which leaves the
    state alone, and any other word is an error that names it. *)
Theorem checkProxyAuthorization_dispatch conn r now st :
  (containsByte (ProxyAuthorization r) " " = false ->
   checkProxyAuthorization conn r now st
   = (Some (errorsNew ("auth: malformed ProxyAuthorization header: "
                       +:+ ProxyAuthorization r)), st))
  /\ (forall scheme blob,
        containsByte scheme " " = false ->
        ProxyAuthorization r = scheme +:+ " " +:+ blob ->
        (ToLower (TrimSpace scheme) = "digest" ->
         checkProxyAuthorization conn r now st = authDigest conn r blob now st)
        /\ (ToLower (TrimSpace scheme) = "basic" ->
            checkProxyAuthorization conn r now st = (authBasic conn blob st, st))
        /\ (ToLower (TrimSpace scheme) <> "digest" ->
            ToLower (TrimSpace scheme) <> "basic" ->
            checkProxyAuthorization conn r now st
            = (Some (errorsNew ("auth: method " +:+ scheme
                                +:+ " unsupported, must use digest")), st))).
Proof.
  unfold checkProxyAuthorization. split.
  - intros H. rewrite (SplitN2_none _ H). reflexivity.
  - intros scheme blob Hs ->.
    change (scheme +:+ " " +:+ blob) with (scheme +:+ String " " blob).
    rewrite (SplitN2_first scheme blob Hs). split; [|split].
    + intros ->. reflexivity.
    + intros ->. reflexivity.
    + intros Hd Hb. now rewrite !bool_decide_eq_false_2.
Qed.

(** The methods in capitals, with a blob that holds spaces, and a method
    that is not supported. *)
Lemma checkProxyAuthorization_dispatch_witness :
  checkProxyAuthorization exampleConn
    (mkRequest "GET" "/" ("DIGEST " +:+ exampleDigest)) soonAfter exampleState
  = authDigest exampleConn (mkRequest "GET" "/" ("DIGEST " +:+ exampleDigest))
      exampleDigest soonAfter exampleState
  /\ checkProxyAuthorization exampleConn (mkRequest "GET" "/" "Bearer abc")
       soonAfter exampleState
     = (Some (errorsNew "auth: method Bearer unsupported, must use digest"),
        exampleState)
  /\ checkProxyAuthorization exampleConn (mkRequest "GET" "/" "Digest")
       soonAfter exampleState
     = (Some (errorsNew "auth: malformed ProxyAuthorization header: Digest"),
        exampleState).
Proof.
  split; [|split].
  - exact (proj1 (proj2 (checkProxyAuthorization_dispatch exampleConn
                           (mkRequest "GET" "/" ("DIGEST " +:+ exampleDigest))
                           soonAfter exampleState)
                    "DIGEST" exampleDigest eq_refl eq_refl) eq_refl).
  - refine (proj2 (proj2 (proj2 (checkProxyAuthorization_dispatch exampleConn
                                   (mkRequest "GET" "/" "Bearer abc")
                                   soonAfter exampleState)
                            "Bearer" "abc" eq_refl eq_refl)) _ _);
      vm_compute; discriminate.
  - exact (proj1 (checkProxyAuthorization_dispatch exampleConn
                    (mkRequest "GET" "/" "Digest") soonAfter exampleState)
             eq_refl).
Defined.





Lemma trimLeft_blank fuel b l :
  isBlank b -> trimLeft spaceRunes (S fuel) (b :: l) = trimLeft spaceRunes fuel l.
Proof.
  intros [-> | ->]; reflexivity.
Qed.

Lemma TrimSpace_leading c s :
  isBlank (byteZ c) -> TrimSpace (String c s) = TrimSpace s.
Proof.
  intros Hb. unfold TrimSpace.
  change (bytesOf (String c s)) with (byteZ c :: bytesOf s).
  cbn [length]. rewrite (trimLeft_blank _ _ _ Hb). reflexivity.
Qed.

(** X21. Spaces and tabs before an allowed-client entry do not count:
    the entry gives the same rule, or the same error, with or without
    them. The list 10.0.0.0/8, 192.168.1.5 with a space after the comma
    is the list without it. *)
Theorem parseAllowedEntry_leading_blanks ws v :
  Forall (fun c => isBlank (byteZ c)) ws ->
  parseAllowedEntry (string_of_list_ascii ws +:+ v) = parseAllowedEntry v.
Proof.
  intros Hws. unfold parseAllowedEntry.
  assert (Ht : TrimSpace (string_of_list_ascii ws +:+ v) = TrimSpace v).
  { induction Hws as [|c ws Hc _ IH]; [reflexivity|].
    cbn [string_of_list_ascii]. rewrite append_cons.
    now rewrite (TrimSpace_leading c _ Hc). }
  now rewrite Ht.
Qed.

(** The second entry of the running example, written after a space. *)
Lemma parseAllowedEntry_leading_blanks_witness :
  parseAllowedEntry " 192.168.1.5" = parseAllowedEntry "192.168.1.5"
  /\ parseAllowedClient "10.0.0.0/8, 192.168.1.5" authZero
     = parseAllowedClient "10.0.0.0/8,192.168.1.5" authZero.
Proof.
  split.
  - apply (parseAllowedEntry_leading_blanks [" "%char] "192.168.1.5").
    apply Forall_cons_2; [left; reflexivity | apply Forall_nil_2].
  - reflexivity.
Defined.

(** * The challenge, in every state of a run *)

Lemma reachable_template config open st :
  reachable config open st -> required st = true ->
  template st = Template.Parse rawTemplate.
Proof.
  induction 1 as [st Hinit | st conn r now e st' ev Hreach IH Hstep];
    intros Hreq.
  - exact (initAuth_template config open st Hinit Hreq).
  - destruct (Authenticate_frame _ _ _ _ _ _ _ Hstep) as (Hr & _ & Ht & _).
    rewrite Ht. apply IH. now rewrite <- Hr.
Qed.

Lemma checkProxyAuthorization_template conn r now st :
  template (snd (checkProxyAuthorization conn r now st)) = template st.
Proof.
  destruct (checkProxyAuthorization_state conn r now st) as [->|[usr ->]];
    [reflexivity | apply keyedState_fields].
Qed.

Lemma challenge_written conn now st :
  template st = Template.Parse rawTemplate ->
  writeFails conn = false ->
  challenge conn now st
  = Ret (Some errAuthRequired, st, [Written (challengeBytes (genNonce now))]).
Proof.
  intros Ht Hw. unfold challenge. rewrite Ht.
  pose proof (Execute_rawTemplate (genNonce now)) as He.
  destruct (Template.Parse rawTemplate) as [t|]; [|discriminate He].
  rewrite He, Hw. reflexivity.
Qed.

(** C10. In every state whose template is the one that [initAuth] parses,
    which is every state of a run with authentication required
    ([reachable_template]), whatever the store and the cache have become,
    the challenge is the 407 response laid out byte by byte around the
    nonce, which is the only part that varies. This is what
    [authUserPasswd] writes for a request without authorization and for a
    request whose authorization is turned down with the
    authentication-required error. Its Content-Length is the length of the
    body, 169 bytes; the nonce is the Unix time of the clock in
    hexadecimal, read back by [authDigest] as that time, and, for a time
    that is not negative, made of lower-case hexadecimal digits without a
    leading zero. *)
Theorem challenge_is_byte_exact st conn now r :
  template st = Template.Parse rawTemplate ->
  writeFails conn = false ->
  challenge conn now st
  = Ret (Some errAuthRequired, st, [Written (challengeBytes (genNonce now))])
  /\ (ProxyAuthorization r = EmptyString ->
      authUserPasswd conn r now st
      = Ret (Some errAuthRequired, st,
             [Written (challengeBytes (genNonce now))]))
  /\ (fst (checkProxyAuthorization conn r now st) = Some errAuthRequired ->
      authUserPasswd conn r now st
      = Ret (Some errAuthRequired, snd (checkProxyAuthorization conn r now st),
             [Written (challengeBytes (genNonce now))]))
  /\ FormatInt 10 (Z.of_nat (String.length authRawBodyTmpl)) = "169"
  /\ genNonce now = FormatInt 16 (toUnix now)
  /\ ParseInt16 (genNonce now) = Some (toUnix now)
  /\ (0 <= toUnix now ->
      allLowerHex (genNonce now) = true
      /\ genNonce now <> EmptyString
      /\ (0 < toUnix now -> firstByte (genNonce now) <> Some 48)).
Proof.
  intros Ht Hw.
  split; [|split; [|split; [|split; [|split; [|split]]]]].
  - exact (challenge_written conn now st Ht Hw).
  - intros Hr. unfold authUserPasswd. rewrite Hr.
    rewrite (bool_decide_eq_true_2 _ eq_refl). cbn [negb].
    exact (challenge_written conn now st Ht Hw).
  - intros He. unfold authUserPasswd.
    case_bool_decide as Hr; cbn [negb].
    + exfalso. revert He. unfold checkProxyAuthorization. rewrite Hr.
      cbn. discriminate.
    + pose proof (checkProxyAuthorization_template conn r now st) as Ht'.
      destruct (checkProxyAuthorization conn r now st) as [e s1].
      cbn [fst snd] in *. subst e.
      rewrite (bool_decide_eq_true_2 _ eq_refl). cbn [negb].
      apply challenge_written; [congruence | exact Hw].
  - vm_compute. reflexivity.
  - reflexivity.
  - apply ParseInt16_FormatInt, inInt64_iff, wrap64_range.
  - intros Hpos. destruct (FormatInt16_shape (toUnix now) Hpos) as (H1 & H2 & H3).
    repeat split; assumption.
Qed.

(** The running example, 3 seconds after the instant 5f3759df: a request
    whose digest is wrong in one character is turned down and challenged;
    the state that this leaves, with the digest key of alice in the store,
    is a state of the run, and the challenge in it is the same bytes. *)
Lemma challenge_is_byte_exact_witness :
  let wrong := mkRequest "GET" "/" ("Digest " +:+ mutatedDigest) in
  let st1 := keyedState exampleState "alice" in
  reachable exampleConfig exampleFiles st1
  /\ user st1 !! "alice" <> user exampleState !! "alice"
  /\ Authenticate exampleConn wrong soonAfter exampleState
     = Ret (Some errAuthRequired, st1, [Written (challengeBytes "5f3759e2")])
  /\ challenge exampleConn soonAfter st1
     = Ret (Some errAuthRequired, st1, [Written (challengeBytes "5f3759e2")])
  /\ String.length authRawBodyTmpl = 169%nat.
Proof.
  intros wrong st1.
  assert (Hstep : Authenticate exampleConn wrong soonAfter exampleState
                  = Ret (Some errAuthRequired, st1,
                         [Written (challengeBytes "5f3759e2")])).
  { vm_compute. reflexivity. }
  assert (Hreach : reachable exampleConfig exampleFiles st1).
  { exact (reach_step exampleConfig exampleFiles exampleState exampleConn
             wrong soonAfter (Some errAuthRequired) st1
             [Written (challengeBytes "5f3759e2")]
             (reach_init exampleConfig exampleFiles exampleState eq_refl)
             Hstep). }
  split; [exact Hreach|]. split; [vm_compute; discriminate|].
  split; [exact Hstep|]. split; [|reflexivity].
  exact (proj1 (challenge_is_byte_exact st1 exampleConn soonAfter plainRequest
                  (reachable_template exampleConfig exampleFiles st1 Hreach
                     eq_refl)
                  eq_refl)).
Defined.
